(** * Webhook ingestion service: signature check, validation, storage

    A shallow embedding of [app/main.py], [app/models.py] and
    [app/storage.py], and the properties of the ingestion and query
    engine: idempotent insert, signature rejection, listing, statistics,
    the soft failure of the read path and the validators.

    Conventions of the embedding.
    - A Python [str] is a [string]; a character stands for the code point
      of the same number, so the development covers text in the range
      U+0000..U+00FF (the range of an HTTP header value, and of any JSON
      text restricted to Latin-1). The tables of [str.isdigit] and
      [str.lower] are those of this range.
    - A Python [bytes] is a [list byte], a Python [int] a [Z], and
      [Optional[str]] an [option string]; truthiness is written out.
    - A call that may raise returns a [result]; [try/except] is a match
      on it, and an operation that catches every exception returns a
      plain value.
    - The table [messages] is the list of its rows. An operation takes
      the table and returns the table it leaves, together with [faults]
      that say which calls to SQLite fail during the operation.
    - The clock, [bytes.decode], [json.loads], [datetime.fromisoformat],
      the text of an exception and the order the engine gives to rows
      of equal sort key are parameters.

    The file has the embedding first (one module per source file, after
    the modules for strings and digests), then the properties in the
    words of the specification, then the proofs. *)

From Stdlib Require Import ZArith List Bool Lia.
From Stdlib.Strings Require Import String Ascii Byte.
From Stdlib Require Import Permutation Sorted.
Import ListNotations.
Local Open Scope string_scope.
Local Open Scope list_scope.
Local Open Scope Z_scope.

(** ** Exceptions and results *)

Inductive exn : Type :=
| TypeError (msg : string)
| ValueError (msg : string)
| OverflowError (msg : string)
| UnicodeDecodeError
| JSONDecodeError (msg : string)
| ValidationError (errors : list (string * string))
| IntegrityError (msg : string)
| OperationalError (msg : string)
| HTTPException (status_code : Z) (detail : string).

Inductive result (A : Type) : Type :=
| Ok (a : A)
| Raise (e : exn).
Arguments Ok {A} a.
Arguments Raise {A} e.

Definition bind {A B : Type} (m : result A) (k : A -> result B) : result B :=
  match m with
  | Ok a => k a
  | Raise e => Raise e
  end.

Notation "x <- m ;; k" := (bind m (fun x => k))
  (at level 61, m at next level, right associativity).
Notation "m ;;; k" := (bind m (fun _ => k))
  (at level 61, right associativity).

Definition is_ok {A : Type} (m : result A) : bool :=
  match m with Ok _ => true | Raise _ => false end.

(** ** Python strings *)

Module PyStr.

Definition ord (c : ascii) : Z := Z.of_N (N_of_ascii c).

(** [bool(s)] for a string, and for an optional string. *)
Definition truthy (s : string) : bool := negb (s =? "")%string.

Definition truthy_opt (o : option string) : bool :=
  match o with
  | Some s => truthy s
  | None => false
  end.

(** [len(s)]. *)
Definition len (s : string) : Z := Z.of_nat (String.length s).

(** [s.startswith(p)]. *)
Definition startswith (s p : string) : bool := String.prefix p s.

(** [s[1:]]. *)
Definition tail (s : string) : string :=
  match s with
  | EmptyString => EmptyString
  | String _ t => t
  end.

(** [s.endswith(c)] for a one-character suffix [c]. *)
Fixpoint endswith_char (s : string) (c : ascii) : bool :=
  match s with
  | EmptyString => false
  | String a EmptyString => Ascii.eqb a c
  | String _ t => endswith_char t c
  end.

(** [s.replace(c, r)] for a one-character pattern [c]: every occurrence
    is replaced. *)
Fixpoint replace_char (s : string) (c : ascii) (r : string) : string :=
  match s with
  | EmptyString => EmptyString
  | String a t =>
      if Ascii.eqb a c then (r ++ replace_char t c r)%string
      else String a (replace_char t c r)
  end.

(** Characters with the Unicode property Numeric_Type=Digit or Decimal,
    below U+0100: the ASCII digits and the superscripts U+00B2, U+00B3,
    U+00B9. *)
Definition isdigit_char (c : ascii) : bool :=
  let n := ord c in
  ((48 <=? n) && (n <=? 57)) || (n =? 178) || (n =? 179) || (n =? 185).

Definition is_ascii_digit (c : ascii) : bool :=
  let n := ord c in (48 <=? n) && (n <=? 57).

Fixpoint all_chars (p : ascii -> bool) (s : string) : bool :=
  match s with
  | EmptyString => true
  | String a t => p a && all_chars p t
  end.

(** [s.isdigit()]: at least one character, and all of them digits. *)
Definition isdigit (s : string) : bool :=
  truthy s && all_chars isdigit_char s.

(** [s.isascii()]. *)
Definition isascii (s : string) : bool :=
  all_chars (fun c => ord c <? 128) s.

(** [c.lower()] below U+0100: A-Z, and the letters U+00C0..U+00DE
    except the multiplication sign U+00D7. *)
Definition lower_char (c : ascii) : ascii :=
  let n := ord c in
  if ((65 <=? n) && (n <=? 90))
     || ((192 <=? n) && (n <=? 222) && negb (n =? 215))
  then ascii_of_N (Z.to_N (n + 32))
  else c.

Fixpoint map_chars (f : ascii -> ascii) (s : string) : string :=
  match s with
  | EmptyString => EmptyString
  | String a t => String (f a) (map_chars f t)
  end.

Definition lower (s : string) : string := map_chars lower_char s.

(** [s.encode()]: UTF-8. *)
Definition encode_char (c : ascii) : list byte :=
  let n := N_of_ascii c in
  if (n <? 128)%N then [byte_of_ascii c]
  else
    match Byte.of_N (192 + N.shiftr n 6), Byte.of_N (128 + N.land n 63) with
    | Some b1, Some b2 => [b1; b2]
    | _, _ => []
    end.

Fixpoint encode (s : string) : list byte :=
  match s with
  | EmptyString => []
  | String a t => encode_char a ++ encode t
  end.

End PyStr.

(** ** SHA-256 and HMAC (hashlib.sha256, hmac.new(...).hexdigest()) *)

Module Sha256.

Definition w32 (x : Z) : Z := Z.land x 0xffffffff.
Definition add32 (x y : Z) : Z := w32 (x + y).
Definition rotr (n x : Z) : Z :=
  Z.lor (Z.shiftr x n) (w32 (Z.shiftl x (32 - n))).
Definition not32 (x : Z) : Z := Z.lxor x 0xffffffff.

Definition Ch (x y z : Z) : Z := Z.lxor (Z.land x y) (Z.land (not32 x) z).
Definition Maj (x y z : Z) : Z :=
  Z.lxor (Z.lxor (Z.land x y) (Z.land x z)) (Z.land y z).
Definition Sigma0 (x : Z) := Z.lxor (Z.lxor (rotr 2 x) (rotr 13 x)) (rotr 22 x).
Definition Sigma1 (x : Z) := Z.lxor (Z.lxor (rotr 6 x) (rotr 11 x)) (rotr 25 x).
Definition sigma0 (x : Z) := Z.lxor (Z.lxor (rotr 7 x) (rotr 18 x)) (Z.shiftr x 3).
Definition sigma1 (x : Z) := Z.lxor (Z.lxor (rotr 17 x) (rotr 19 x)) (Z.shiftr x 10).

(** The constants of the hash are the first 32 bits of the fractional
    parts of the cube roots (round constants) and of the square roots
    (initial state) of the first primes. [root_bits k x n 0] is the
    integer [k]-th root of [x], found bit by bit below [2 ^ n]. *)
Fixpoint root_bits (k x : Z) (n : nat) (acc : Z) : Z :=
  match n with
  | O => acc
  | S n' =>
      let candidate := acc + 2 ^ Z.of_nat n' in
      root_bits k x n' (if candidate ^ k <=? x then candidate else acc)
  end.

Definition root_fraction (k p : Z) : Z :=
  w32 (root_bits k (p * 2 ^ (32 * k)) 40 0).

Definition is_prime (p : Z) : bool :=
  forallb (fun d => negb (p mod Z.of_nat d =? 0)) (seq 2 (Z.to_nat p - 2)).

Definition primes : list Z :=
  filter is_prime (map Z.of_nat (seq 2 310)).

Definition K : list Z := Eval vm_compute in map (root_fraction 3) primes.

Definition byte_val (b : byte) : Z := Z.of_N (Byte.to_N b).
Definition byte_of_Z (z : Z) : byte :=
  match Byte.of_N (Z.to_N (Z.land z 255)) with
  | Some b => b
  | None => x00
  end.

(** Big-endian encoding of [x] on [n] bytes. *)
Fixpoint be_bytes (n : nat) (x : Z) : list byte :=
  match n with
  | O => []
  | S n' => byte_of_Z (Z.shiftr x (8 * Z.of_nat n')) :: be_bytes n' x
  end.

Definition pad (msg : list byte) : list byte :=
  let l := Z.of_nat (List.length msg) in
  let k := (55 - l) mod 64 in
  msg ++ [x80] ++ repeat x00 (Z.to_nat k) ++ be_bytes 8 (8 * l).

(** The big-endian 32-bit words of a byte string. *)
Fixpoint words (bs : list byte) : list Z :=
  match bs with
  | a :: b :: c :: d :: rest =>
      (Z.shiftl (byte_val a) 24 + Z.shiftl (byte_val b) 16
       + Z.shiftl (byte_val c) 8 + byte_val d) :: words rest
  | _ => []
  end.

(** The message schedule, most recent word first: [extend n ws]
    appends [n] words to the reversed list [ws] of at least 16 words. *)
Fixpoint extend (n : nat) (ws : list Z) : list Z :=
  match n with
  | O => ws
  | S n' =>
      let w := add32 (add32 (sigma1 (nth 1 ws 0)) (nth 6 ws 0))
                     (add32 (sigma0 (nth 14 ws 0)) (nth 15 ws 0)) in
      extend n' (w :: ws)
  end.

Definition schedule (block : list Z) : list Z :=
  rev (extend 48 (rev block)).

Record state := mkState { a : Z; b : Z; c : Z; d : Z; e : Z; f : Z; g : Z; h : Z }.

Definition round (s : state) (kw : Z * Z) : state :=
  let (k, w) := kw in
  let t1 := add32 (add32 (add32 (h s) (Sigma1 (e s))) (Ch (e s) (f s) (g s)))
                  (add32 k w) in
  let t2 := add32 (Sigma0 (a s)) (Maj (a s) (b s) (c s)) in
  mkState (add32 t1 t2) (a s) (b s) (c s) (add32 (d s) t1) (e s) (f s) (g s).

Definition compress (s : state) (block : list Z) : state :=
  let s' := fold_left round (combine K (schedule block)) s in
  mkState (add32 (a s) (a s')) (add32 (b s) (b s')) (add32 (c s) (c s'))
          (add32 (d s) (d s')) (add32 (e s) (e s')) (add32 (f s) (f s'))
          (add32 (g s) (g s')) (add32 (h s) (h s')).

(** The blocks of 16 words; [fuel] bounds the number of blocks. *)
Fixpoint blocks (fuel : nat) (ws : list Z) : list (list Z) :=
  match fuel, ws with
  | _, [] => []
  | O, _ => []
  | S fuel', _ => firstn 16 ws :: blocks fuel' (skipn 16 ws)
  end.

Definition init : state :=
  Eval vm_compute in
    match map (root_fraction 2) (firstn 8 primes) with
    | [h0; h1; h2; h3; h4; h5; h6; h7] => mkState h0 h1 h2 h3 h4 h5 h6 h7
    | _ => mkState 0 0 0 0 0 0 0 0
    end.

Definition digest (msg : list byte) : list byte :=
  let ws := words (pad msg) in
  let s := fold_left compress (blocks (List.length ws) ws) init in
  flat_map (be_bytes 4) [a s; b s; c s; d s; e s; f s; g s; h s].

End Sha256.

Module Hmac.

Definition block_size : nat := 64.

Definition xor_byte (x : Z) (k : byte) : byte :=
  Sha256.byte_of_Z (Z.lxor (Sha256.byte_val k) x).

(** Keys longer than a block are hashed first; the key is then padded
    with zeros to the block size. *)
Definition block_key (key : list byte) : list byte :=
  let k := if (block_size <? List.length key)%nat then Sha256.digest key else key in
  k ++ repeat x00 (block_size - List.length k).

Definition hmac_sha256 (key msg : list byte) : list byte :=
  let k := block_key key in
  Sha256.digest (map (xor_byte 0x5c) k
                 ++ Sha256.digest (map (xor_byte 0x36) k ++ msg)).

Definition hex_digit (n : Z) : ascii :=
  ascii_of_N (Z.to_N (if n <? 10 then 48 + n else 87 + n)).

Fixpoint hex (bs : list byte) : string :=
  match bs with
  | [] => EmptyString
  | b :: rest =>
      let v := Sha256.byte_val b in
      String (hex_digit (Z.shiftr v 4)) (String (hex_digit (Z.land v 15)) (hex rest))
  end.

(** [hmac.new(key, msg, hashlib.sha256).hexdigest()]. *)
Definition hexdigest (key msg : list byte) : string :=
  hex (hmac_sha256 key msg).

(** [hmac.compare_digest(a, b)] on two [str]: a [TypeError] unless both
    are ASCII, otherwise their equality. *)
Definition compare_digest (a b : string) : result bool :=
  if PyStr.isascii a && PyStr.isascii b then Ok (a =? b)%string
  else Raise (TypeError "comparing strings with non-ASCII characters is not supported").

End Hmac.

(** ** app/models.py *)

Module Models.
Import PyStr.

(** The value of [datetime.fromisoformat]: the fields of the datetime,
    with the offset from UTC in seconds and microseconds when the text
    has one. *)
Record datetime := mkDatetime {
  year : Z; month : Z; day : Z;
  hour : Z; minute : Z; second : Z; microsecond : Z;
  tzoffset : option (Z * Z)
}.

(** *** The format documented for [datetime.fromisoformat]

    [YYYY-MM-DD[*HH[:MM[:SS[.fff[fff]]]][+HH:MM[:SS[.ffffff]]]]], where
    [*] is any single character. The validators below do not depend on
    this recogniser: they take [fromisoformat] as a parameter, and the
    recogniser instantiates it in examples. *)

Definition digit_val (c : ascii) : option Z :=
  if is_ascii_digit c then Some (ord c - 48) else None.

Fixpoint parse_digits (n : nat) (acc : Z) (s : string) : option (Z * string) :=
  match n with
  | O => Some (acc, s)
  | S n' =>
      match s with
      | String c t =>
          match digit_val c with
          | Some d => parse_digits n' (10 * acc + d) t
          | None => None
          end
      | EmptyString => None
      end
  end.

Definition expect (c : ascii) (s : string) : option string :=
  match s with
  | String a t => if Ascii.eqb a c then Some t else None
  | EmptyString => None
  end.

Definition is_leap (y : Z) : bool :=
  ((y mod 4 =? 0) && negb (y mod 100 =? 0)) || (y mod 400 =? 0).

Definition days_in_month (y m : Z) : Z :=
  if m =? 2 then (if is_leap y then 29 else 28)
  else if (m =? 4) || (m =? 6) || (m =? 9) || (m =? 11) then 30
  else 31.

(** [.fff] or [.ffffff] up to the end of [s], in microseconds. *)
Definition parse_fraction (s : string) : option Z :=
  match String.length s with
  | 3%nat =>
      match parse_digits 3 0 s with
      | Some (v, _) => Some (v * 1000)
      | None => None
      end
  | 6%nat =>
      match parse_digits 6 0 s with
      | Some (v, _) => Some v
      | None => None
      end
  | _ => None
  end.

(** [HH[:MM[:SS[.fff[fff]]]]] covering the whole of [s]. *)
Definition parse_hh_mm_ss_ff (s : string) : option (Z * Z * Z * Z) :=
  match parse_digits 2 0 s with
  | None => None
  | Some (hh, EmptyString) => Some (hh, 0, 0, 0)
  | Some (hh, s1) =>
      match expect ":" s1 with
      | None => None
      | Some s2 =>
          match parse_digits 2 0 s2 with
          | None => None
          | Some (mm, EmptyString) => Some (hh, mm, 0, 0)
          | Some (mm, s3) =>
              match expect ":" s3 with
              | None => None
              | Some s4 =>
                  match parse_digits 2 0 s4 with
                  | None => None
                  | Some (ss, EmptyString) => Some (hh, mm, ss, 0)
                  | Some (ss, s5) =>
                      match expect "." s5 with
                      | None => None
                      | Some s6 =>
                          match parse_fraction s6 with
                          | Some us => Some (hh, mm, ss, us)
                          | None => None
                          end
                      end
                  end
              end
          end
      end
  end.

(** The position of the first [+] or [-] splits the time from the
    offset. *)
Fixpoint split_tz (s : string) : string * option (ascii * string) :=
  match s with
  | EmptyString => (EmptyString, None)
  | String a t =>
      if Ascii.eqb a "+" || Ascii.eqb a "-" then (EmptyString, Some (a, t))
      else let (l, r) := split_tz t in (String a l, r)
  end.

Definition parse_tz (sign : ascii) (s : string) : option (Z * Z) :=
  match String.length s with
  | 5%nat | 8%nat | 15%nat =>
      match parse_hh_mm_ss_ff s with
      | Some (hh, mm, ss, us) =>
          let secs := hh * 3600 + mm * 60 + ss in
          if secs <? 86400 then
            if Ascii.eqb sign "-" then Some (- secs, - us) else Some (secs, us)
          else None
      | None => None
      end
  | _ => None
  end.

Definition invalid_isoformat {A : Type} : result A :=
  Raise (ValueError "Invalid isoformat string").

Definition isoformat_documented (s : string) : result datetime :=
  match parse_digits 4 0 s with
  | None => invalid_isoformat
  | Some (y, s1) =>
  match expect "-" s1 with
  | None => invalid_isoformat
  | Some s2 =>
  match parse_digits 2 0 s2 with
  | None => invalid_isoformat
  | Some (m, s3) =>
  match expect "-" s3 with
  | None => invalid_isoformat
  | Some s4 =>
  match parse_digits 2 0 s4 with
  | None => invalid_isoformat
  | Some (d, rest) =>
      if negb ((1 <=? y) && (1 <=? m) && (m <=? 12)
               && (1 <=? d) && (d <=? days_in_month y m))
      then invalid_isoformat
      else
        match rest with
        | EmptyString => Ok (mkDatetime y m d 0 0 0 0 None)
        | String _ tstr =>
            let (timestr, tz) := split_tz tstr in
            match parse_hh_mm_ss_ff timestr with
            | None => invalid_isoformat
            | Some (hh, mm, ss, us) =>
                if negb ((hh <? 24) && (mm <? 60) && (ss <? 60))
                then invalid_isoformat
                else
                  match tz with
                  | None => Ok (mkDatetime y m d hh mm ss us None)
                  | Some (sign, tzstr) =>
                      match parse_tz sign tzstr with
                      | Some off => Ok (mkDatetime y m d hh mm ss us (Some off))
                      | None => invalid_isoformat
                      end
                  end
            end
        end
  end end end end end.

(** *** WebhookRequest *)

Record WebhookRequest := mkWebhookRequest {
  message_id : string;
  from_ : string;
  to : string;
  ts : string;
  text : option string
}.

(** [validate_phone_number]: the validator of [from_] and [to]. *)
Definition validate_phone_number (v : string) : result string :=
  if negb (startswith v "+") || negb (isdigit (tail v)) then
    Raise (ValueError "Phone number must be in E.164 format (start with +, followed by digits)")
  else Ok v.

Section Timestamp.
(** [datetime.fromisoformat], whose grammar depends on the
    interpreter's version. *)
Variable fromisoformat : string -> result datetime.

(** [validate_timestamp]: the validator of [ts]. The [except] clause
    catches [ValueError] only. *)
Definition validate_timestamp (v : string) : result string :=
  match fromisoformat (replace_char v "Z" "+00:00") with
  | Raise (ValueError _) =>
      Raise (ValueError "Timestamp must be in ISO-8601 UTC format with Z suffix")
  | Raise e => Raise e
  | Ok _ =>
      if negb (endswith_char v "Z") then
        Raise (ValueError "Timestamp must end with Z")
      else Ok v
  end.
End Timestamp.

(** *** Construction of a [WebhookRequest] from the parsed body *)

(** The values [json.loads] produces; a [dict] keeps its items in
    order, with distinct keys. *)
#[warnings="-register-all"] Inductive json : Type :=
| JNull
| JBool (b : bool)
| JInt (n : Z)
| JFloat (repr : string)
| JStr (s : string)
| JList (items : list json)
| JDict (items : list (string * json)).

Fixpoint lookup (k : string) (items : list (string * json)) : option json :=
  match items with
  | [] => None
  | (k', v) :: rest => if (k =? k')%string then Some v else lookup k rest
  end.

(** The outcome of validating one field: the value, an error of the
    given type for the error list, or an exception that is not a
    [ValueError] and leaves the validation. *)
Inductive checked (A : Type) : Type :=
| Good (a : A)
| Bad (error_type : string)
| Abort (e : exn).
Arguments Good {A} a.
Arguments Bad {A} error_type.
Arguments Abort {A} e.

Definition str_field (v : option json) : checked string :=
  match v with
  | None => Bad "missing"
  | Some (JStr s) => Good s
  | Some _ => Bad "string_type"
  end.

Definition min_length (n : Z) (c : checked string) : checked string :=
  match c with
  | Good s => if len s <? n then Bad "string_too_short" else Good s
  | other => other
  end.

(** A [field_validator] runs after the type check; its [ValueError]
    becomes an entry of the error list. *)
Definition after (validator : string -> result string) (c : checked string)
  : checked string :=
  match c with
  | Good s =>
      match validator s with
      | Ok s' => Good s'
      | Raise (ValueError _) => Bad "value_error"
      | Raise e => Abort e
      end
  | other => other
  end.

(** [Optional[str] = Field(None, max_length=4096)]. *)
Definition optional_str_field (max_length : Z) (v : option json)
  : checked (option string) :=
  match v with
  | None => Good None
  | Some JNull => Good None
  | Some (JStr s) =>
      if max_length <? len s then Bad "string_too_long" else Good (Some s)
  | Some _ => Bad "string_type"
  end.

(** A field with an alias is looked up by the alias, then (with
    [populate_by_name]) by its name. *)
Definition lookup_alias (alias name : string) (kw : list (string * json))
  : option json :=
  match lookup alias kw with
  | Some v => Some v
  | None => lookup name kw
  end.

Definition error_of {A : Type} (loc : string) (c : checked A)
  : list (string * string) :=
  match c with
  | Bad t => [(loc, t)]
  | _ => []
  end.

(** [type(v).__name__] for a value [json.loads] returns. *)
Definition type_name (v : json) : string :=
  match v with
  | JNull => "NoneType"
  | JBool _ => "bool"
  | JInt _ => "int"
  | JFloat _ => "float"
  | JStr _ => "str"
  | JList _ => "list"
  | JDict _ => "dict"
  end.

Section Construction.
Variable fromisoformat : string -> result datetime.

(** The constructor call of [WebhookRequest] with the items of
    [body_json] as keyword arguments. *)
Definition WebhookRequest_init (body_json : json) : result WebhookRequest :=
  match body_json with
  | JDict kw =>
      let c_message_id := min_length 1 (str_field (lookup "message_id" kw)) in
      let c_from := after validate_phone_number
                          (str_field (lookup_alias "from" "from_" kw)) in
      let c_to := after validate_phone_number (str_field (lookup "to" kw)) in
      let c_ts := after (validate_timestamp fromisoformat)
                        (str_field (lookup "ts" kw)) in
      let c_text := optional_str_field 4096 (lookup "text" kw) in
      match c_message_id, c_from, c_to, c_ts, c_text with
      | Good m, Good f, Good t, Good s, Good x =>
          Ok (mkWebhookRequest m f t s x)
      | _, Abort e, _, _, _ => Raise e
      | _, _, Abort e, _, _ => Raise e
      | _, _, _, Abort e, _ => Raise e
      | _, _, _, _, _ =>
          Raise (ValidationError
                   (error_of "message_id" c_message_id
                    ++ error_of "from" c_from ++ error_of "to" c_to
                    ++ error_of "ts" c_ts ++ error_of "text" c_text))
      end
  | _ =>
      Raise (TypeError
               ("app.models.WebhookRequest() argument after ** must be a mapping, not "
                ++ type_name body_json)%string)
  end.
End Construction.

End Models.

(** ** app/storage.py *)

Module Storage.
Import PyStr.

(** A row of the table [messages]; [text] is the only nullable column. *)
Record row := mkRow {
  message_id : string;
  from_msisdn : string;
  to_msisdn : string;
  ts : string;
  text : option string;
  created_at : string
}.

(** The table, in the order of insertion. *)
Definition table := list row.

(** What the file system and the engine do to the calls of one
    operation: whether [sqlite3.connect] fails, whether the [n]-th
    [cursor.execute] of the connection fails, and whether [commit] and
    [rollback] fail. *)
Record faults := mkFaults {
  connect_fails : bool;
  execute_fails : nat -> bool;
  commit_fails : bool;
  rollback_fails : bool
}.

Definition healthy : faults := mkFaults false (fun _ => false) false false.

Definition connect (io : faults) : result unit :=
  if connect_fails io then Raise (OperationalError "unable to open database file")
  else Ok tt.

Definition execute_guard (io : faults) (n : nat) : result unit :=
  if execute_fails io n then Raise (OperationalError "disk I/O error") else Ok tt.

Definition commit (io : faults) : result unit :=
  if commit_fails io then Raise (OperationalError "disk I/O error") else Ok tt.

Definition rollback (io : faults) : result unit :=
  if rollback_fails io then Raise (OperationalError "disk I/O error") else Ok tt.

(** *** insert_message *)

Definition has_id (mid : string) (t : table) : bool :=
  existsb (fun r => (message_id r =? mid)%string) t.

(** [INSERT INTO messages ... VALUES (?, ?, ?, ?, ?, ?)]: the primary key
    rejects a second row with the same [message_id]. *)
Definition execute_insert (io : faults) (t : table) (r : row) : result table :=
  execute_guard io 0 ;;;
  if has_id (message_id r) t then
    Raise (IntegrityError "UNIQUE constraint failed: messages.message_id")
  else Ok (t ++ [r]).

(** [utcnow] is the text of [datetime.utcnow().isoformat()] at the call.
    The result is the pair [(success, is_duplicate)] and the table after
    the call; a transaction that is not committed leaves the table as it
    was. *)
Definition insert_message (io : faults) (utcnow : string) (t : table)
    (message_id from_msisdn to_msisdn ts : string) (text : option string)
  : (bool * bool) * table :=
  let created_at := (utcnow ++ "Z")%string in
  let attempt :=
    connect io ;;;
    match execute_insert io t
            (mkRow message_id from_msisdn to_msisdn ts text created_at) with
    | Ok t' => commit io ;;; Ok ((true, false), t')
    | Raise (IntegrityError _) => rollback io ;;; Ok ((true, true), t)
    | Raise e => Raise e
    end in
  match attempt with
  | Ok r => r
  | Raise _ => ((false, false), t)
  end.

(** *** The WHERE clause *)

(** The three conditions of [get_messages]: ["from_msisdn = ?"],
    ["ts >= ?"] and ["LOWER(text) LIKE ?"]. The i-th placeholder is bound
    to the i-th parameter, so a condition is kept with its parameter. *)
Inductive condition : Type :=
| from_msisdn_eq
| ts_ge
| lower_text_like.

(** SQLite's [LOWER] folds the ASCII letters only. *)
Definition sql_lower_char (c : ascii) : ascii :=
  let n := ord c in
  if (65 <=? n) && (n <=? 90) then ascii_of_N (Z.to_N (n + 32)) else c.

Definition sql_lower (s : string) : string := map_chars sql_lower_char s.

(** [LIKE] reads its operands up to the first NUL character. *)
Fixpoint c_string (s : string) : string :=
  match s with
  | EmptyString => EmptyString
  | String a t => if (ord a =? 0) then EmptyString else String a (c_string t)
  end.

(** The comparison of [LIKE]: [%] stands for any run of characters, [_]
    for any one character, and any other character for itself, ASCII
    letters regardless of case. *)
Fixpoint like_match (p s : string) : bool :=
  match p with
  | EmptyString =>
      match s with
      | EmptyString => true
      | String _ _ => false
      end
  | String c p' =>
      if Ascii.eqb c "%" then
        (fix any_suffix (s : string) : bool :=
           like_match p' s
           || match s with
              | EmptyString => false
              | String _ s' => any_suffix s'
              end) s
      else
        match s with
        | EmptyString => false
        | String d s' =>
            (Ascii.eqb c "_" || Ascii.eqb (sql_lower_char c) (sql_lower_char d))
            && like_match p' s'
        end
  end.

(** SQLITE_MAX_LIKE_PATTERN_LENGTH, in bytes. *)
Definition like_pattern_limit : Z := 50000.

(** [value LIKE pattern] as a condition: NULL is not true. *)
Definition sql_like (pattern : string) (value : option string) : result bool :=
  if like_pattern_limit <? Z.of_nat (List.length (encode pattern)) then
    Raise (OperationalError "LIKE or GLOB pattern too complex")
  else
    match value with
    | None => Ok false
    | Some v => Ok (like_match (c_string pattern) (c_string v))
    end.

Definition eval_condition (c : condition) (p : string) (r : row) : result bool :=
  match c with
  | from_msisdn_eq => Ok (from_msisdn r =? p)%string
  | ts_ge => Ok (negb (String.ltb (ts r) p))
  | lower_text_like => sql_like p (option_map sql_lower (text r))
  end.

(** The conditions joined by [AND], evaluated from the left up to the
    first that is not true; no condition is ["1=1"]. *)
Fixpoint eval_where (conditions : list (condition * string)) (r : row)
  : result bool :=
  match conditions with
  | [] => Ok true
  | (c, p) :: rest =>
      b <- eval_condition c p r ;;
      if b then eval_where rest r else Ok false
  end.

(** The rows of the table that satisfy the WHERE clause, in table order. *)
Fixpoint select_where (conditions : list (condition * string)) (t : table)
  : result (list row) :=
  match t with
  | [] => Ok []
  | r :: rest =>
      b <- eval_where conditions r ;;
      l <- select_where conditions rest ;;
      Ok (if b then r :: l else l)
  end.

(** *** ORDER BY ts ASC, message_id ASC *)

Definition row_leb (r1 r2 : row) : bool :=
  match String.compare (ts r1) (ts r2) with
  | Lt => true
  | Eq => String.leb (message_id r1) (message_id r2)
  | Gt => false
  end.

Fixpoint insert_row (r : row) (l : list row) : list row :=
  match l with
  | [] => [r]
  | x :: rest => if row_leb r x then r :: l else x :: insert_row r rest
  end.

Definition order_by_ts_message_id (l : list row) : list row :=
  fold_right insert_row [] l.

(** *** LIMIT ? OFFSET ? *)

(** An integer bound to a placeholder must fit SQLite's 64-bit INTEGER. *)
Definition bind_int (n : Z) : result unit :=
  if (- 2 ^ 63 <=? n) && (n <? 2 ^ 63) then Ok tt
  else Raise (OverflowError "Python int too large to convert to SQLite INTEGER").

(** The rows after the first [n]; all of them when [n] is negative. *)
Fixpoint drop {A : Type} (n : Z) (l : list A) : list A :=
  match l with
  | [] => []
  | _ :: rest => if 0 <? n then drop (n - 1) rest else l
  end.

(** The first [n] rows. *)
Fixpoint take {A : Type} (n : Z) (l : list A) : list A :=
  match l with
  | [] => []
  | x :: rest => if 0 <? n then x :: take (n - 1) rest else []
  end.

(** A negative LIMIT is no limit, a negative OFFSET is no offset. *)
Definition limit_offset {A : Type} (limit offset : Z) (l : list A) : list A :=
  let l' := drop offset l in
  if limit <? 0 then l' else take limit l'.

(** *** get_messages *)

(** An item of the list [get_messages] returns: the dict with the keys
    [message_id], [from], [to], [ts] and [text]. *)
Record message := mkMessage {
  d_message_id : string;
  d_from : string;
  d_to : string;
  d_ts : string;
  d_text : option string
}.

Definition message_of_row (r : row) : message :=
  mkMessage (message_id r) (from_msisdn r) (to_msisdn r) (ts r) (text r).

(** [if x: conditions.append(c); params.append(param(x))]. *)
Definition condition_if (c : condition) (x : option string)
    (param : string -> string) : list (condition * string) :=
  match x with
  | Some v => if truthy v then [(c, param v)] else []
  | None => []
  end.

Definition get_messages_try (io : faults) (t : table) (limit offset : Z)
    (from_msisdn since q : option string) : result (list message * Z) :=
  connect io ;;;
  let conditions :=
    condition_if from_msisdn_eq from_msisdn (fun v => v)
    ++ condition_if ts_ge since (fun v => v)
    ++ condition_if lower_text_like q
         (fun q => ("%" ++ lower q ++ "%")%string) in
  execute_guard io 0 ;;;
  counted <- select_where conditions t ;;
  let total := Z.of_nat (List.length counted) in
  bind_int limit ;;;
  bind_int offset ;;;
  execute_guard io 1 ;;;
  selected <- select_where conditions t ;;
  let rows := limit_offset limit offset (order_by_ts_message_id selected) in
  Ok (map message_of_row rows, total).

Definition get_messages (io : faults) (t : table) (limit offset : Z)
    (from_msisdn since q : option string) : list message * Z :=
  match get_messages_try io t limit offset from_msisdn since q with
  | Ok r => r
  | Raise _ => ([], 0)
  end.

(** *** get_stats *)

Record stats := mkStats {
  total_messages : Z;
  senders_count : Z;
  messages_per_sender : list (string * Z);
  first_message_ts : option string;
  last_message_ts : option string
}.

Definition count_from (s : string) (t : table) : Z :=
  Z.of_nat (List.length (filter (fun r => (from_msisdn r =? s)%string) t)).

(** [GROUP BY from_msisdn] with [COUNT( * )]: one pair per sender. *)
Definition group_by_from (t : table) : list (string * Z) :=
  map (fun s => (s, count_from s t)) (nodup string_dec (map from_msisdn t)).

Definition str_min (a b : string) : string := if String.leb a b then a else b.
Definition str_max (a b : string) : string := if String.leb a b then b else a.

(** [MIN(ts)] and [MAX(ts)]: NULL over no row. *)
Definition min_ts (t : table) : option string :=
  match t with
  | [] => None
  | r :: rest => Some (fold_left str_min (map ts rest) (ts r))
  end.

Definition max_ts (t : table) : option string :=
  match t with
  | [] => None
  | r :: rest => Some (fold_left str_max (map ts rest) (ts r))
  end.

(** [x if x else None]. *)
Definition value_if_truthy (x : option string) : option string :=
  if truthy_opt x then x else None.

Definition zeroed_stats : stats := mkStats 0 0 [] None None.

Section Engine.
(** [ORDER BY count DESC] over the grouped rows. The query names no
    second key, so the order of senders with equal counts is the
    engine's. *)
Variable order_by_count_desc : list (string * Z) -> list (string * Z).

Definition get_stats_try (io : faults) (t : table) : result stats :=
  connect io ;;;
  execute_guard io 0 ;;;
  let total_messages := Z.of_nat (List.length t) in
  execute_guard io 1 ;;;
  let senders_count :=
    Z.of_nat (List.length (nodup string_dec (map from_msisdn t))) in
  execute_guard io 2 ;;;
  let senders := firstn 10 (order_by_count_desc (group_by_from t)) in
  execute_guard io 3 ;;;
  let first_message_ts := value_if_truthy (min_ts t) in
  let last_message_ts := value_if_truthy (max_ts t) in
  Ok (mkStats total_messages senders_count senders
              first_message_ts last_message_ts).

Definition get_stats (io : faults) (t : table) : stats :=
  match get_stats_try io t with
  | Ok r => r
  | Raise _ => zeroed_stats
  end.
End Engine.

(** An engine whose sort keeps the senders of equal count in the order
    of the groups. *)
Fixpoint insert_count (x : string * Z) (l : list (string * Z)) : list (string * Z) :=
  match l with
  | [] => [x]
  | y :: rest => if snd y <=? snd x then x :: l else y :: insert_count x rest
  end.

Definition stable_order_by_count_desc (l : list (string * Z)) : list (string * Z) :=
  fold_right insert_count [] l.

(** *** test_connection *)

Definition test_connection (io : faults) : bool :=
  is_ok (connect io ;;; execute_guard io 0).

End Storage.

(** ** app/main.py *)

Module Main.
Import PyStr.

Record WebhookResponse := mkWebhookResponse { status : string }.

(** [verify_signature]; [WEBHOOK_SECRET] is [settings.WEBHOOK_SECRET]. *)
Definition verify_signature (WEBHOOK_SECRET : option string)
    (body : list byte) (signature : string) : result bool :=
  match WEBHOOK_SECRET with
  | None => Ok false
  | Some secret =>
      if negb (truthy secret) then Ok false
      else
        let expected_signature := Hmac.hexdigest (encode secret) body in
        Hmac.compare_digest expected_signature signature
  end.

(** What a call of [webhook] leaves behind: the response or the exception
    it ends with, the label given to [record_webhook_result] if any, and
    the table. *)
Record outcome := mkOutcome {
  response : result WebhookResponse;
  recorded : option string;
  db : Storage.table
}.

Section Webhook.
(** [bytes.decode], [json.loads], [datetime.fromisoformat] and the text
    [str(e)] of an exception belong to the libraries. *)
Variable decode : list byte -> result string.
Variable json_loads : string -> result Models.json.
Variable fromisoformat : string -> result Models.datetime.
Variable str_of : exn -> string.

(** [if not x_signature or not verify_signature(body, x_signature)]. *)
Definition signature_rejected (WEBHOOK_SECRET : option string)
    (body : list byte) (x_signature : option string) : result bool :=
  match x_signature with
  | None => Ok true
  | Some signature =>
      if negb (truthy signature) then Ok true
      else
        valid <- verify_signature WEBHOOK_SECRET body signature ;;
        Ok (negb valid)
  end.

(** The body of the [try] that parses the payload. *)
Definition parse_request (body : list byte) : result Models.WebhookRequest :=
  text <- decode body ;;
  body_json <- json_loads text ;;
  Models.WebhookRequest_init fromisoformat body_json.

Definition webhook (WEBHOOK_SECRET : option string) (io : Storage.faults)
    (utcnow : string) (t : Storage.table)
    (body : list byte) (x_signature : option string) : outcome :=
  match signature_rejected WEBHOOK_SECRET body x_signature with
  | Raise e => mkOutcome (Raise e) None t
  | Ok true =>
      mkOutcome (Raise (HTTPException 401 "invalid signature"))
                (Some "invalid_signature") t
  | Ok false =>
      match parse_request body with
      | Raise (JSONDecodeError m) =>
          mkOutcome
            (Raise (HTTPException 422
                      ("Invalid JSON: " ++ str_of (JSONDecodeError m))%string))
            (Some "validation_error") t
      | Raise (ValidationError errors) =>
          mkOutcome (Raise (HTTPException 422 (str_of (ValidationError errors))))
                    (Some "validation_error") t
      | Raise e => mkOutcome (Raise e) None t
      | Ok webhook_data =>
          let '((success, is_duplicate), t') :=
            Storage.insert_message io utcnow t
              (Models.message_id webhook_data) (Models.from_ webhook_data)
              (Models.to webhook_data) (Models.ts webhook_data)
              (Models.text webhook_data) in
          if negb success then
            mkOutcome (Raise (HTTPException 500 "internal server error"))
                      (Some "insert_error") t'
          else
            let result := if is_duplicate then "duplicate" else "created" in
            mkOutcome (Ok (mkWebhookResponse "ok")) (Some result) t'
      end
  end.
End Webhook.

End Main.

(** ** The properties in the words of the specification *)

Module Spec.
Import PyStr Storage.

(** The storage answers every call of an operation. *)
Definition storage_up (io : faults) : Prop :=
  connect_fails io = false
  /\ (forall n, execute_fails io n = false)
  /\ commit_fails io = false
  /\ rollback_fails io = false.

(** The rows of the table with a given [message_id]. *)
Definition rows_with_id (mid : string) (t : table) : list row :=
  filter (fun r => (message_id r =? mid)%string) t.

(** A later call of [insert_message], with its own storage conditions
    and clock. *)
Record insert_call := mkInsertCall {
  call_io : faults;
  call_utcnow : string;
  call_message_id : string;
  call_from : string;
  call_to : string;
  call_ts : string;
  call_text : option string
}.

Definition after_call (t : table) (c : insert_call) : table :=
  snd (insert_message (call_io c) (call_utcnow c) t (call_message_id c)
         (call_from c) (call_to c) (call_ts c) (call_text c)).

Definition after_calls (cs : list insert_call) (t : table) : table :=
  fold_left after_call cs t.

(** The invariant of the table: [message_id] is a key, and every
    timestamp ends with [Z]. *)
Definition table_ok (t : table) : Prop :=
  NoDup (map message_id t)
  /\ Forall (fun r => endswith_char (ts r) "Z" = true) t.

(** Listing: a row matches when its sender equals [from] (when given)
    and its timestamp is at least [since] in the lexicographic order of
    strings (when given). *)
Definition matches (from since : option string) (r : row) : bool :=
  match from with
  | Some f => (from_msisdn r =? f)%string
  | None => true
  end
  && match since with
     | Some s => String.leb s (ts r)
     | None => true
     end.

(** The order [(timestamp ascending, message_id ascending)]. *)
Definition row_le (r1 r2 : row) : Prop :=
  String.ltb (ts r1) (ts r2) = true
  \/ (ts r1 = ts r2 /\ String.leb (message_id r1) (message_id r2) = true).

(** The window [[offset, offset + limit)] of a list. *)
Definition window {A : Type} (limit offset : Z) (l : list A) : list A :=
  firstn (Z.to_nat limit) (skipn (Z.to_nat offset) l).

(** What listing returns: the window of the matching rows in order, and
    the number of matching rows. *)
Definition list_result (t : table) (limit offset : Z)
    (from since : option string) (res : list message * Z) : Prop :=
  snd res = Z.of_nat (List.length (filter (matches from since) t))
  /\ exists sorted : list row,
       Permutation sorted (filter (matches from since) t)
       /\ StronglySorted row_le sorted
       /\ fst res = map message_of_row (window limit offset sorted).

(** Phone numbers: [+] followed by one or more ASCII digits. *)
Definition phone_ok (v : string) : bool :=
  match v with
  | String "+" rest => truthy rest && all_chars is_ascii_digit rest
  | _ => false
  end.

(** Timestamps: parseable once a trailing [Z] is replaced by [+00:00],
    and ending with [Z]. *)
Fixpoint replace_trailing (s : string) (c : ascii) (r : string) : string :=
  match s with
  | EmptyString => EmptyString
  | String a EmptyString => if Ascii.eqb a c then r else s
  | String a t => String a (replace_trailing t c r)
  end.

Definition timestamp_ok (fromisoformat : string -> result Models.datetime)
    (v : string) : bool :=
  is_ok (fromisoformat (replace_trailing v "Z" "+00:00"))
  && endswith_char v "Z".

(** Text query: [q], compared without regard to case, occurs in the
    text as a literal substring; an absent text never matches. *)
Fixpoint is_substring (q s : string) : bool :=
  String.prefix q s
  || match s with
     | EmptyString => false
     | String _ t => is_substring q t
     end.

Definition text_contains (q : string) (text : option string) : bool :=
  match text with
  | Some s => is_substring (lower q) (lower s)
  | None => false
  end.

(** Plain text: ASCII characters other than NUL; a plain query has
    neither [%] nor [_]. *)
Definition plain_char (c : ascii) : bool :=
  (0 <? ord c) && (ord c <? 128).

Definition literal_char (c : ascii) : bool :=
  plain_char c && negb (Ascii.eqb c "%") && negb (Ascii.eqb c "_").

(** [f] holds of some suffix of [s]. *)
Fixpoint any_suffix (f : string -> bool) (s : string) : bool :=
  match s with
  | EmptyString => f s
  | String _ rest => if f s then true else any_suffix f rest
  end.

(** Statistics. *)
Definition is_sender (t : table) (s : string) : Prop :=
  exists r, In r t /\ from_msisdn r = s.

Definition by_count_desc (x y : string * Z) : Prop := snd y <= snd x.

(** [m] is the least (greatest) timestamp of the table. *)
Definition is_min_ts (t : table) (m : string) : Prop :=
  In m (map ts t) /\ forall r, In r t -> String.leb m (ts r) = true.

Definition is_max_ts (t : table) (m : string) : Prop :=
  In m (map ts t) /\ forall r, In r t -> String.leb (ts r) m = true.




(** What an engine's [ORDER BY count DESC] guarantees. *)
Definition sorts_by_count_desc
    (order_by : list (string * Z) -> list (string * Z)) : Prop :=
  forall l, Permutation (order_by l) l /\ StronglySorted by_count_desc (order_by l).

(** A filter counts as given when it is a non-empty string. *)
Definition given (x : option string) : option string :=
  match x with
  | Some v => if truthy v then x else None
  | None => None
  end.

(** The provided signature is missing or differs from the digest of the
    payload under the configured secret. *)
Definition bad_signature (WEBHOOK_SECRET : option string) (body : list byte)
    (x_signature : option string) : Prop :=
  match x_signature with
  | None => True
  | Some signature =>
      forall secret, WEBHOOK_SECRET = Some secret ->
                     signature <> Hmac.hexdigest (encode secret) body
  end.

(** A header value that is not ASCII: the one character U+00E9. *)
Definition non_ascii_signature : string := String "233"%char EmptyString.

(** A sender written with the superscript digit U+00B2 after the sign. *)
Definition superscript_phone : string := String "+" (String "178"%char EmptyString).

(** A timestamp with [Z] as the separator of date and time. *)
Definition z_separated_timestamp : string := "2025-01-15Z10:00:00Z".

(** A storage whose file cannot be opened. *)
Definition unreachable : faults := mkFaults true (fun _ => false) false false.

(** Rows for the examples. *)
Definition row_m1 : row :=
  mkRow "m1" "+919876543210" "+14155550100" "2025-01-15T09:00:00Z"
        (Some "abc") "2025-01-15T09:00:01.000000Z".

Definition row_m2 : row :=
  mkRow "m2" "+911234567890" "+14155550100" "2025-01-15T10:00:00Z"
        None "2025-01-15T10:00:01.000000Z".



(** Five messages, stored out of order. *)
Definition five_rows : table :=
  [ mkRow "e" "+14155550101" "+14155550100" "2025-01-15T13:00:00Z"
          (Some "fifth") "2025-01-15T14:00:00.000000Z";
    mkRow "d" "+14155550102" "+14155550100" "2025-01-15T12:00:00Z"
          (Some "fourth") "2025-01-15T14:00:01.000000Z";
    mkRow "c" "+14155550101" "+14155550100" "2025-01-15T11:00:00Z"
          (Some "third") "2025-01-15T14:00:02.000000Z";
    mkRow "b" "+14155550102" "+14155550100" "2025-01-15T11:00:00Z"
          None "2025-01-15T14:00:03.000000Z";
    mkRow "a" "+14155550101" "+14155550100" "2025-01-15T10:00:00Z"
          (Some "first") "2025-01-15T14:00:04.000000Z" ].

(** Three messages of one sender and one of another. *)
Definition stats_table : table :=
  [ mkRow "s1" "+919876543210" "+14155550100" "2025-01-15T09:00:00Z"
          (Some "Message 1") "2025-01-15T09:00:01.000000Z";
    mkRow "s2" "+911234567890" "+14155550100" "2025-01-15T11:00:00Z"
          (Some "Message 2") "2025-01-15T11:00:01.000000Z";
    mkRow "s3" "+919876543210" "+14155550100" "2025-01-15T10:00:00Z"
          (Some "Message 3") "2025-01-15T11:00:02.000000Z";
    mkRow "s4" "+919876543210" "+14155550100" "2025-01-15T08:00:00Z"
          None "2025-01-15T11:00:03.000000Z" ].

End Spec.

(** ** app/config.py *)

Module Config.
Import PyStr.

(** [Settings.is_ready]: the secret is set and not empty. *)
Definition is_ready (WEBHOOK_SECRET : option string) : bool :=
  match WEBHOOK_SECRET with
  | Some secret => 0 <? len secret
  | None => false
  end.

End Config.

(** ** app/metrics.py *)

Module Metrics.

(** The counter [webhook_requests_total]: for each value of the label
    [result], the number of times it was incremented. *)
Definition counter := string -> Z.

Definition no_requests : counter := fun _ => 0.

(** [webhook_requests_total.labels(result=result).inc()]. *)
Definition record_webhook_result (c : counter) (result : string) : counter :=
  fun label => if (label =? result)%string then c label + 1 else c label.

End Metrics.

(** ** app/storage.py: the path of the database *)

Module DatabaseUrl.
Import PyStr.

(** [s.replace(old, new)] for a non-empty [old]: the occurrences of
    [old] are replaced from the left, and the search goes on after each
    one. [skip] counts the characters of an occurrence still to pass. *)
Fixpoint replace_skip (old new : string) (skip : nat) (s : string) : string :=
  match s with
  | EmptyString => EmptyString
  | String c rest =>
      match skip with
      | S k => replace_skip old new k rest
      | O =>
          if String.prefix old s then
            (new ++ replace_skip old new (String.length old - 1) rest)%string
          else String c (replace_skip old new 0 rest)
      end
  end.

Definition replace (s old new : string) : string := replace_skip old new 0 s.

(** [Database.__init__]: the path taken from [db_url]. *)
Definition db_path (db_url : string) : string :=
  if startswith db_url "sqlite:///" then replace db_url "sqlite:///" ""
  else db_url.

End DatabaseUrl.

(** ** app/main.py: the other endpoints, and the service over time *)

Module Api.
Import PyStr.

(** What a GET endpoint with validated query parameters answers: the
    body with status 200, or status 422 with the list of the parameters
    that failed and the constraint each one broke. *)
Inductive reply (A : Type) : Type :=
| Reply200 (body : A)
| Reply422 (errors : list (string * string)).
Arguments Reply200 {A} body.
Arguments Reply422 {A} errors.

Record MessagesListResponse := mkMessagesListResponse {
  data : list Storage.message;
  total : Z;
  limit : Z;
  offset : Z
}.

(** [Query(50, ge=1, le=100)] and [Query(0, ge=0)], for an integer that
    was read from the query. *)
Definition check_limit (limit : Z) : list (string * string) :=
  if limit <? 1 then [("limit", "greater_than_equal")]
  else if 100 <? limit then [("limit", "less_than_equal")]
  else [].

Definition check_offset (offset : Z) : list (string * string) :=
  if offset <? 0 then [("offset", "greater_than_equal")] else [].

Section Query.
(** The integer that the validation of an [int] parameter reads from
    the text of a query value, if it reads one. *)
Variable int_of_query : string -> option Z.

(** An [int] query parameter: the default when the query does not name
    it, else the integer read from its text and checked against the
    bounds, or the errors. *)
Definition query_int (name : string) (default : Z)
    (check : Z -> list (string * string)) (raw : option string)
  : list (string * string) + Z :=
  match raw with
  | None => inr default
  | Some text =>
      match int_of_query text with
      | None => inl [(name, "int_parsing")]
      | Some v =>
          match check v with
          | [] => inr v
          | errors => inl errors
          end
      end
  end.

(** [GET /messages]; a query parameter is absent or the text of its
    value. Every dict of [db.get_messages] fits [MessageResponse]. *)
Definition get_messages (io : Storage.faults) (t : Storage.table)
    (limit offset from_ since q : option string)
  : reply MessagesListResponse :=
  match query_int "limit" 50 check_limit limit,
        query_int "offset" 0 check_offset offset with
  | inr limit, inr offset =>
      let '(messages, total) :=
        Storage.get_messages io t limit offset from_ since q in
      Reply200 (mkMessagesListResponse messages total limit offset)
  | inl errors, inr _ => Reply422 errors
  | inr _, inl errors => Reply422 errors
  | inl errors1, inl errors2 => Reply422 (errors1 ++ errors2)
  end.

End Query.

(** [GET /health/ready]. *)
Definition health_ready (WEBHOOK_SECRET : option string) (io : Storage.faults)
  : result string :=
  if negb (Config.is_ready WEBHOOK_SECRET) then
    Raise (HTTPException 503 "not ready")
  else if negb (Storage.test_connection io) then
    Raise (HTTPException 503 "database not accessible")
  else Ok "ready".

(** A request to [POST /webhook], with the storage conditions and the
    clock it meets. *)
Record request := mkRequest {
  req_io : Storage.faults;
  req_utcnow : string;
  req_body : list byte;
  req_signature : option string
}.

Section Service.
Variable decode : list byte -> result string.
Variable json_loads : string -> result Models.json.
Variable fromisoformat : string -> result Models.datetime.
Variable str_of : exn -> string.
Variable WEBHOOK_SECRET : option string.

(** The table and the counter after one request. *)
Definition serve (state : Storage.table * Metrics.counter) (r : request)
  : Storage.table * Metrics.counter :=
  let out := Main.webhook decode json_loads fromisoformat str_of WEBHOOK_SECRET
               (req_io r) (req_utcnow r) (fst state) (req_body r)
               (req_signature r) in
  (Main.db out,
   match Main.recorded out with
   | Some result => Metrics.record_webhook_result (snd state) result
   | None => snd state
   end).

(** The table and the counter after the requests, one after another. *)
Definition serve_all (rs : list request)
    (state : Storage.table * Metrics.counter)
  : Storage.table * Metrics.counter :=
  fold_left serve rs state.

End Service.

End Api.

(** ** Further properties, in the words of the code *)

Module Facts.
Import PyStr Storage.

(** The conditions [get_messages] builds from its filters. *)
Definition conditions_of (from_msisdn since q : option string)
  : list (condition * string) :=
  condition_if from_msisdn_eq from_msisdn (fun v => v)
  ++ condition_if ts_ge since (fun v => v)
  ++ condition_if lower_text_like q (fun q => ("%" ++ lower q ++ "%")%string).

(** A row satisfies the WHERE clause. *)
Definition selected (conditions : list (condition * string)) (r : row) : bool :=
  match eval_where conditions r with
  | Ok b => b
  | Raise _ => false
  end.

(** The strict order of the listing on the items. *)
Definition message_lt (m1 m2 : message) : Prop :=
  String.ltb (d_ts m1) (d_ts m2) = true
  \/ (d_ts m1 = d_ts m2
      /\ String.ltb (d_message_id m1) (d_message_id m2) = true).

(** The sum of the counts of a list of senders. *)
Definition sum_counts (l : list (string * Z)) : Z :=
  fold_right Z.add 0 (map snd l).

(** The characters of [hexdigest]. *)
Definition is_lower_hex (c : ascii) : bool :=
  let n := ord c in
  ((48 <=? n) && (n <=? 57)) || ((97 <=? n) && (n <=? 102)).

(** A row as the validators of [WebhookRequest] leave it. *)
Definition row_valid (fromisoformat : string -> result Models.datetime)
    (r : row) : Prop :=
  message_id r <> ""
  /\ Models.validate_phone_number (from_msisdn r) = Ok (from_msisdn r)
  /\ Models.validate_phone_number (to_msisdn r) = Ok (to_msisdn r)
  /\ Models.validate_timestamp fromisoformat (ts r) = Ok (ts r)
  /\ match text r with
     | Some x => len x <= 4096
     | None => True
     end.

(** The fields of a payload that passes validation. *)
Definition payload_valid (fromisoformat : string -> result Models.datetime)
    (kw : list (string * Models.json)) (w : Models.WebhookRequest) : Prop :=
  Models.lookup "message_id" kw = Some (Models.JStr (Models.message_id w))
  /\ Models.message_id w <> ""
  /\ Models.lookup_alias "from" "from_" kw = Some (Models.JStr (Models.from_ w))
  /\ Models.validate_phone_number (Models.from_ w) = Ok (Models.from_ w)
  /\ Models.lookup "to" kw = Some (Models.JStr (Models.to w))
  /\ Models.validate_phone_number (Models.to w) = Ok (Models.to w)
  /\ Models.lookup "ts" kw = Some (Models.JStr (Models.ts w))
  /\ Models.validate_timestamp fromisoformat (Models.ts w) = Ok (Models.ts w)
  /\ match Models.text w with
     | Some x => Models.lookup "text" kw = Some (Models.JStr x) /\ len x <= 4096
     | None => Models.lookup "text" kw = None
               \/ Models.lookup "text" kw = Some Models.JNull
     end.

(** The parsed body is a JSON object. *)
Definition is_object (j : Models.json) : bool :=
  match j with
  | Models.JDict _ => true
  | _ => false
  end.

(** The labels [webhook] gives to [record_webhook_result]. *)
Definition webhook_labels : list string :=
  ["invalid_signature"; "validation_error"; "insert_error"; "duplicate";
   "created"].

(** The keys [WebhookRequest] reads. *)
Definition field_keys : list string :=
  ["message_id"; "from"; "from_"; "to"; "ts"; "text"].

(** Requests for the examples: a payload, its signature under the
    secret [testsecret], and parsers that know this one payload. *)
Definition quoted (s : string) : string :=
  String "034"%char (s ++ String "034"%char EmptyString)%string.

Definition sample_text : string :=
  ("{" ++ quoted "message_id" ++ ": " ++ quoted "m1" ++ ", "
   ++ quoted "from" ++ ": " ++ quoted "+919876543210" ++ ", "
   ++ quoted "to" ++ ": " ++ quoted "+14155550100" ++ ", "
   ++ quoted "ts" ++ ": " ++ quoted "2025-01-15T10:00:00Z" ++ ", "
   ++ quoted "text" ++ ": " ++ quoted "Hello" ++ "}")%string.

Definition sample_body : list byte := list_byte_of_string sample_text.

Definition sample_json : Models.json :=
  Models.JDict
    [ ("message_id", Models.JStr "m1");
      ("from", Models.JStr "+919876543210");
      ("to", Models.JStr "+14155550100");
      ("ts", Models.JStr "2025-01-15T10:00:00Z");
      ("text", Models.JStr "Hello") ].

(** The items of the sample payload, and the request they validate to. *)
Definition sample_items : list (string * Models.json) :=
  match sample_json with
  | Models.JDict kw => kw
  | _ => []
  end.

Definition sample_webhook_request : Models.WebhookRequest :=
  Models.mkWebhookRequest "m1" "+919876543210" "+14155550100"
    "2025-01-15T10:00:00Z" (Some "Hello").

Definition sample_decode (b : list byte) : result string :=
  Ok (string_of_list_byte b).

Definition sample_loads (s : string) : result Models.json :=
  if (s =? sample_text)%string then Ok sample_json
  else Raise (JSONDecodeError "Expecting value").

Definition sample_str_of (e : exn) : string := "error".

Definition sample_signature : string :=
  Eval vm_compute in Hmac.hexdigest (encode "testsecret") sample_body.

Definition sample_request : Api.request :=
  Api.mkRequest healthy "2025-01-15T10:00:01.000000" sample_body
                (Some sample_signature).

End Facts.

(** * Properties *)

Import PyStr Storage Main Spec.

#[local] Arguments Hmac.hexdigest : simpl never.
#[local] Arguments Sha256.digest : simpl never.

(** ** Idempotent insert *)

Section Insert.
Variables (io : faults) (utcnow : string) (t : table).
Variables (mid from to stamp : string) (body : option string).

Let new_row := mkRow mid from to stamp body (utcnow ++ "Z")%string.

Lemma execute_insert_up :
  execute_fails io 0 = false ->
  execute_insert io t new_row =
    if has_id mid t
    then Raise (IntegrityError "UNIQUE constraint failed: messages.message_id")
    else Ok (t ++ [new_row]).
Proof.
  intros H. unfold execute_insert, execute_guard. rewrite H. reflexivity.
Qed.

Lemma insert_message_fresh :
  storage_up io -> has_id mid t = false ->
  insert_message io utcnow t mid from to stamp body
  = ((true, false), t ++ [new_row]).
Proof.
  intros (Hc & He & Hm & _) Hfresh.
  unfold insert_message, connect, commit.
  fold new_row. rewrite Hc. cbn [bind].
  rewrite (execute_insert_up (He 0%nat)), Hfresh, Hm. reflexivity.
Qed.

Lemma insert_message_duplicate :
  storage_up io -> has_id mid t = true ->
  insert_message io utcnow t mid from to stamp body = ((true, true), t).
Proof.
  intros (Hc & He & _ & Hr) Hdup.
  unfold insert_message, connect, rollback.
  fold new_row. rewrite Hc. cbn [bind].
  rewrite (execute_insert_up (He 0%nat)), Hdup, Hr. reflexivity.
Qed.

(** Whatever the storage does, a call stores the new row at the end of
    the table or leaves the table alone; a call for an [message_id] that
    is present leaves it alone. *)
Lemma insert_message_table :
  let t' := snd (insert_message io utcnow t mid from to stamp body) in
  (t' = t \/ (t' = t ++ [new_row] /\ has_id mid t = false)).
Proof.
  unfold insert_message. fold new_row.
  unfold connect, execute_insert, execute_guard, commit, rollback.
  destruct (connect_fails io); cbn; auto.
  destruct (execute_fails io 0); cbn; auto.
  destruct (has_id mid t) eqn:Hid; cbn.
  - destruct (rollback_fails io); cbn; auto.
  - destruct (commit_fails io); cbn; auto.
Qed.

End Insert.

Lemma has_id_false_rows mid t :
  has_id mid t = false <-> rows_with_id mid t = [].
Proof.
  unfold has_id, rows_with_id. induction t as [|r t IH]; cbn.
  - tauto.
  - destruct (message_id r =? mid)%string; cbn.
    + split; discriminate.
    + exact IH.
Qed.

Lemma has_id_app mid t1 t2 :
  has_id mid (t1 ++ t2) = has_id mid t1 || has_id mid t2.
Proof. unfold has_id. apply existsb_app. Qed.

Lemma rows_with_id_app mid t1 t2 :
  rows_with_id mid (t1 ++ t2) = rows_with_id mid t1 ++ rows_with_id mid t2.
Proof. unfold rows_with_id. apply filter_app. Qed.

(** A call never touches the rows of an id that is already stored. *)
Lemma after_call_keeps mid t c :
  has_id mid t = true ->
  has_id mid (after_call t c) = true
  /\ rows_with_id mid (after_call t c) = rows_with_id mid t.
Proof.
  intros Hid. unfold after_call.
  destruct (insert_message_table (call_io c) (call_utcnow c) t
              (call_message_id c) (call_from c) (call_to c) (call_ts c)
              (call_text c)) as [-> | [-> Hfresh]].
  - auto.
  - rewrite has_id_app, rows_with_id_app, Hid. split; [reflexivity|].
    unfold rows_with_id at 2. cbn.
    destruct (call_message_id c =? mid)%string eqn:E.
    + apply String.eqb_eq in E. rewrite E, Hid in Hfresh. discriminate.
    + apply app_nil_r.
Qed.

Lemma after_calls_keeps mid cs : forall t,
  has_id mid t = true ->
  has_id mid (after_calls cs t) = true
  /\ rows_with_id mid (after_calls cs t) = rows_with_id mid t.
Proof.
  induction cs as [|c cs IH]; intros t Hid.
  - auto.
  - change (after_calls (c :: cs) t) with (after_calls cs (after_call t c)).
    destruct (after_call_keeps mid t c Hid) as [Hid' Hrows].
    destruct (IH _ Hid') as [H1 H2]. split; [exact H1 | now rewrite H2].
Qed.

(** C1. Idempotent insert: with the storage up, the first insert of a
    fresh [message_id] returns [(True, False)] and writes exactly one
    row, with [created_at] taken from the clock; after any later calls,
    an insert of the same [message_id] returns [(True, True)] and leaves
    the table as it is, and the table still holds exactly one row for
    that id, the row of the first insert. *)
Theorem insert_message_idempotent :
  forall io utcnow t mid from to stamp body,
    storage_up io ->
    has_id mid t = false ->
    let first := mkRow mid from to stamp body (utcnow ++ "Z")%string in
    let t1 := snd (insert_message io utcnow t mid from to stamp body) in
    fst (insert_message io utcnow t mid from to stamp body) = (true, false)
    /\ t1 = t ++ [first]
    /\ rows_with_id mid t1 = [first]
    /\ forall (later : list insert_call) io' utcnow' from' to' stamp' body',
         let t2 := after_calls later t1 in
         rows_with_id mid t2 = [first]
         /\ snd (insert_message io' utcnow' t2 mid from' to' stamp' body') = t2
         /\ (storage_up io' ->
             fst (insert_message io' utcnow' t2 mid from' to' stamp' body')
             = (true, true)).
Proof.
  intros io utcnow t mid from to stamp body Hup Hfresh first t1.
  assert (E : insert_message io utcnow t mid from to stamp body
              = ((true, false), t ++ [first]))
    by (apply insert_message_fresh; assumption).
  assert (Ht1 : t1 = t ++ [first]) by (unfold t1; rewrite E; reflexivity).
  assert (Hrows : rows_with_id mid t1 = [first]).
  { rewrite Ht1, rows_with_id_app.
    apply has_id_false_rows in Hfresh. rewrite Hfresh.
    unfold rows_with_id. cbn. rewrite String.eqb_refl. reflexivity. }
  assert (Hid : has_id mid t1 = true).
  { rewrite Ht1, has_id_app. unfold has_id at 2. cbn.
    rewrite String.eqb_refl. apply orb_true_r. }
  rewrite E. repeat split; try assumption.
  - destruct (after_calls_keeps mid later t1 Hid) as [_ ->]. exact Hrows.
  - destruct (after_calls_keeps mid later t1 Hid) as [Hid2 _].
    destruct (insert_message_table io' utcnow' (after_calls later t1) mid
                from' to' stamp' body') as [H | [_ H]].
    + exact H.
    + congruence.
  - intros Hup'.
    destruct (after_calls_keeps mid later t1 Hid) as [Hid2 _].
    rewrite insert_message_duplicate by assumption. reflexivity.
Qed.

(** ** The order of strings and of rows *)

Lemma ascii_compare_refl a : Ascii.compare a a = Eq.
Proof. unfold Ascii.compare. apply N.compare_refl. Qed.

Lemma ascii_compare_trans c x y z :
  Ascii.compare x y = c -> Ascii.compare y z = c -> Ascii.compare x z = c.
Proof.
  unfold Ascii.compare. destruct c; intros H1 H2.
  - apply N.compare_eq_iff in H1, H2. apply N.compare_eq_iff. congruence.
  - rewrite N.compare_lt_iff in *. lia.
  - rewrite N.compare_gt_iff in *. lia.
Qed.

Lemma string_compare_refl s : String.compare s s = Eq.
Proof.
  induction s as [|a s IH]; cbn; [reflexivity|].
  now rewrite ascii_compare_refl.
Qed.

Lemma string_compare_trans c : forall s1 s2 s3,
  String.compare s1 s2 = c -> String.compare s2 s3 = c ->
  c <> Eq -> String.compare s1 s3 = c.
Proof.
  induction s1 as [|a1 s1 IH]; intros [|a2 s2] [|a3 s3]; cbn;
    try congruence.
  destruct (Ascii.compare a1 a2) eqn:E12; destruct (Ascii.compare a2 a3) eqn:E23;
    intros H1 H2 Hc; try congruence.
  - rewrite (ascii_compare_trans Eq _ _ _ E12 E23). eauto.
  - apply Ascii.compare_eq_iff in E12. subst a2. now rewrite E23.
  - apply Ascii.compare_eq_iff in E12. subst a2. now rewrite E23.
  - apply Ascii.compare_eq_iff in E23. subst a3. now rewrite E12.
  - now rewrite (ascii_compare_trans Lt _ _ _ E12 E23).
  - apply Ascii.compare_eq_iff in E23. subst a3. now rewrite E12.
  - now rewrite (ascii_compare_trans Gt _ _ _ E12 E23).
Qed.

Lemma string_ltb_trans s1 s2 s3 :
  String.ltb s1 s2 = true -> String.ltb s2 s3 = true -> String.ltb s1 s3 = true.
Proof.
  unfold String.ltb. intros H1 H2.
  destruct (String.compare s1 s2) eqn:E1; try discriminate.
  destruct (String.compare s2 s3) eqn:E2; try discriminate.
  now rewrite (string_compare_trans Lt _ _ _ E1 E2).
Qed.

Lemma string_leb_refl s : String.leb s s = true.
Proof. unfold String.leb. now rewrite string_compare_refl. Qed.

Lemma string_leb_cases s1 s2 :
  String.leb s1 s2 = true <-> String.ltb s1 s2 = true \/ s1 = s2.
Proof.
  unfold String.leb, String.ltb.
  destruct (String.compare s1 s2) eqn:E; split; intros H; auto;
    try discriminate.
  - right. now apply String.compare_eq_iff.
  - destruct H as [H | ->]; [discriminate|].
    rewrite string_compare_refl in E. discriminate.
Qed.

Lemma string_leb_trans s1 s2 s3 :
  String.leb s1 s2 = true -> String.leb s2 s3 = true -> String.leb s1 s3 = true.
Proof.
  rewrite !string_leb_cases. intros [H1 | ->] [H2 | ->]; auto.
  left. eapply string_ltb_trans; eassumption.
Qed.

(** [negb (a <? b)] is [b <=? a]: the row test [ts >= ?]. *)
Lemma string_ge_leb a b : negb (String.ltb a b) = String.leb b a.
Proof.
  unfold String.ltb, String.leb. rewrite (String.compare_antisym b a).
  now destruct (String.compare a b).
Qed.

Lemma string_ltb_irrefl s : String.ltb s s = false.
Proof. unfold String.ltb. now rewrite string_compare_refl. Qed.

Lemma string_ltb_asym a b : String.ltb a b = true -> String.ltb b a = false.
Proof.
  unfold String.ltb. rewrite (String.compare_antisym a b).
  now destruct (String.compare b a).
Qed.

Lemma row_leb_le r1 r2 : row_leb r1 r2 = true <-> row_le r1 r2.
Proof.
  unfold row_leb, row_le, String.ltb.
  destruct (String.compare (ts r1) (ts r2)) eqn:E.
  - apply String.compare_eq_iff in E. split; auto.
    intros [H | [_ H]]; [discriminate | exact H].
  - split; auto.
  - split; [discriminate|]. intros [H | [H _]]; [discriminate|].
    rewrite H, string_compare_refl in E. discriminate.
Qed.

Lemma row_le_total r1 r2 : row_le r1 r2 \/ row_le r2 r1.
Proof.
  unfold row_le, String.ltb.
  rewrite (String.compare_antisym (ts r2) (ts r1)).
  destruct (String.compare (ts r1) (ts r2)) eqn:E; cbn; auto.
  apply String.compare_eq_iff in E.
  destruct (String.leb_total (message_id r1) (message_id r2)); auto.
Qed.

Lemma row_le_trans r1 r2 r3 : row_le r1 r2 -> row_le r2 r3 -> row_le r1 r3.
Proof.
  unfold row_le. intros [H1 | [E1 H1]] [H2 | [E2 H2]].
  - left. eapply string_ltb_trans; eassumption.
  - left. now rewrite <- E2.
  - left. now rewrite E1.
  - right. split; [congruence|]. eapply string_leb_trans; eassumption.
Qed.

(** Two rows each below the other have the same timestamp and id. *)
Lemma row_le_antisym r1 r2 :
  row_le r1 r2 -> row_le r2 r1 ->
  ts r1 = ts r2 /\ message_id r1 = message_id r2.
Proof.
  unfold row_le. intros [H1 | [E1 H1]] [H2 | [E2 H2]].
  - apply string_ltb_asym in H1. congruence.
  - rewrite E2, string_ltb_irrefl in H1. discriminate.
  - rewrite E1, string_ltb_irrefl in H2. discriminate.
  - split; [assumption|]. now apply String.leb_antisym.
Qed.

(** ** ORDER BY: the sort returns the rows in order *)

Lemma insert_row_perm r l : Permutation (insert_row r l) (r :: l).
Proof.
  induction l as [|x l IH]; cbn; [reflexivity|].
  destruct (row_leb r x); [reflexivity|].
  rewrite IH. apply perm_swap.
Qed.

Lemma order_by_perm l : Permutation (order_by_ts_message_id l) l.
Proof.
  induction l as [|x l IH]; cbn; [reflexivity|].
  rewrite insert_row_perm. now constructor.
Qed.

Lemma insert_row_sorted r l :
  StronglySorted row_le l -> StronglySorted row_le (insert_row r l).
Proof.
  induction 1 as [|x l Hs IH Hx]; cbn.
  - repeat constructor.
  - destruct (row_leb r x) eqn:E.
    + apply row_leb_le in E. constructor.
      * now constructor.
      * constructor; [assumption|].
        eapply Forall_impl; [|exact Hx]. intros y Hy.
        eapply row_le_trans; eassumption.
    + assert (Hxr : row_le x r).
      { destruct (row_le_total r x) as [H | H]; [|assumption].
        apply row_leb_le in H. congruence. }
      constructor; [assumption|].
      eapply Permutation_Forall; [symmetry; apply insert_row_perm|].
      now constructor.
Qed.

Lemma order_by_sorted l : StronglySorted row_le (order_by_ts_message_id l).
Proof.
  induction l as [|x l IH]; cbn; [constructor | now apply insert_row_sorted].
Qed.

(** With [message_id] a key, the order leaves no choice: any engine that
    returns the rows in order returns this list. *)
Lemma sorted_unique : forall l1 l2,
  NoDup (map message_id l1) ->
  (forall r r', In r l1 -> In r' l1 -> message_id r = message_id r' -> r = r') ->
  Permutation l1 l2 ->
  StronglySorted row_le l1 -> StronglySorted row_le l2 -> l1 = l2.
Proof.
  induction l1 as [|x l1 IH]; intros l2 Hnd Hkey Hp Hs1 Hs2.
  - apply Permutation_nil in Hp. congruence.
  - destruct l2 as [|y l2]; [apply Permutation_sym, Permutation_nil in Hp; discriminate|].
    inversion Hs1 as [|? ? Hs1' Hx]; subst.
    inversion Hs2 as [|? ? Hs2' Hy]; subst.
    assert (Exy : x = y).
    { assert (Hyin : In y (x :: l1))
        by (eapply Permutation_in; [symmetry; exact Hp | now left]).
      assert (Hxin : In x (y :: l2))
        by (eapply Permutation_in; [exact Hp | now left]).
      destruct Hyin as [E | Hyin]; [assumption|].
      destruct Hxin as [E | Hxin]; [congruence|].
      rewrite Forall_forall in Hx, Hy.
      destruct (row_le_antisym x y (Hx _ Hyin) (Hy _ Hxin)) as [_ E].
      apply Hkey; [now left | now right | exact E]. }
    subst y. f_equal. apply IH.
    + now inversion Hnd.
    + intros r r' Hr Hr'. apply Hkey; now right.
    + eapply Permutation_cons_inv; exact Hp.
    + assumption.
    + assumption.
Qed.

Lemma NoDup_map_key {A B : Type} (f : A -> B) (l : list A) :
  NoDup (map f l) ->
  forall x y, In x l -> In y l -> f x = f y -> x = y.
Proof.
  induction l as [|a l IH]; cbn; intros Hnd x y Hx Hy E; [contradiction|].
  inversion Hnd as [|? ? Hnotin Hnd']; subst.
  destruct Hx as [-> | Hx], Hy as [-> | Hy]; auto.
  - exfalso. apply Hnotin. rewrite E. now apply in_map.
  - exfalso. apply Hnotin. rewrite <- E. now apply in_map.
Qed.

Lemma order_by_unique l l' :
  NoDup (map message_id l) ->
  Permutation l' l -> StronglySorted row_le l' ->
  l' = order_by_ts_message_id l.
Proof.
  intros Hnd Hp Hs.
  assert (Hnd' : NoDup (map message_id l')).
  { eapply Permutation_NoDup; [|exact Hnd].
    apply Permutation_map. now symmetry. }
  apply sorted_unique.
  - exact Hnd'.
  - now apply NoDup_map_key.
  - rewrite Hp. symmetry. apply order_by_perm.
  - exact Hs.
  - apply order_by_sorted.
Qed.

(** ** Listing *)

Lemma drop_skipn {A : Type} (l : list A) : forall n,
  drop n l = skipn (Z.to_nat n) l.
Proof.
  induction l as [|x l IH]; intros n; cbn.
  - now rewrite skipn_nil.
  - destruct (0 <? n) eqn:E.
    + apply Z.ltb_lt in E.
      replace (Z.to_nat n) with (S (Z.to_nat (n - 1))) by lia.
      cbn. apply IH.
    + apply Z.ltb_ge in E.
      replace (Z.to_nat n) with 0%nat by lia. reflexivity.
Qed.

Lemma take_firstn {A : Type} (l : list A) : forall n,
  take n l = firstn (Z.to_nat n) l.
Proof.
  induction l as [|x l IH]; intros n; cbn.
  - now rewrite firstn_nil.
  - destruct (0 <? n) eqn:E.
    + apply Z.ltb_lt in E.
      replace (Z.to_nat n) with (S (Z.to_nat (n - 1))) by lia.
      cbn. now rewrite IH.
    + apply Z.ltb_ge in E.
      replace (Z.to_nat n) with 0%nat by lia. reflexivity.
Qed.

Lemma limit_offset_window {A : Type} (limit offset : Z) (l : list A) :
  0 <= limit -> limit_offset limit offset l = window limit offset l.
Proof.
  intros H. unfold limit_offset, window.
  destruct (limit <? 0) eqn:E; [apply Z.ltb_lt in E; lia|].
  now rewrite take_firstn, drop_skipn.
Qed.

Lemma bind_int_in_range n :
  - 2 ^ 63 <= n < 2 ^ 63 -> bind_int n = Ok tt.
Proof.
  intros [H1 H2]. unfold bind_int.
  apply Z.leb_le in H1. apply Z.ltb_lt in H2. now rewrite H1, H2.
Qed.

Lemma bind_int_too_large n :
  2 ^ 63 <= n ->
  bind_int n = Raise (OverflowError "Python int too large to convert to SQLite INTEGER").
Proof.
  intros H. unfold bind_int.
  apply Z.ltb_ge in H. rewrite H. now rewrite andb_false_r.
Qed.

(** A WHERE clause that never raises selects by a test on the row. *)
Lemma select_where_filter conditions (p : row -> bool) t :
  (forall r, eval_where conditions r = Ok (p r)) ->
  select_where conditions t = Ok (filter p t).
Proof.
  intros H. induction t as [|r t IH]; cbn; [reflexivity|].
  rewrite H, IH. cbn. reflexivity.
Qed.

Lemma given_nonempty x : x <> Some "" -> given x = x.
Proof.
  destruct x as [[|a v]|]; cbn; intros H; congruence.
Qed.

Lemma eval_where_from_since from since r :
  eval_where (condition_if from_msisdn_eq from (fun v => v)
              ++ condition_if ts_ge since (fun v => v)) r
  = Ok (matches (given from) (given since) r).
Proof.
  unfold matches.
  destruct from as [[|a f]|], since as [[|b s]|]; cbn;
    rewrite ?string_ge_leb;
    repeat match goal with
           | |- context [if ?b then _ else _] => destruct b; cbn
           end;
    rewrite ?string_ge_leb; reflexivity.
Qed.

(** With the storage up and the integers within SQLite's range, the
    listing without a text query is the window of the sorted selection
    and the count of the selection. *)
Lemma get_messages_no_query io t limit offset from since :
  storage_up io ->
  0 <= limit < 2 ^ 63 -> - 2 ^ 63 <= offset < 2 ^ 63 ->
  get_messages io t limit offset from since None
  = (map message_of_row
       (window limit offset
          (order_by_ts_message_id
             (filter (matches (given from) (given since)) t))),
     Z.of_nat (List.length (filter (matches (given from) (given since)) t))).
Proof.
  intros (Hc & He & _ & _) Hl Ho.
  unfold get_messages, get_messages_try, connect, execute_guard.
  rewrite Hc, !He. cbn [bind condition_if]. rewrite app_nil_r.
  rewrite (select_where_filter _ _ t (eval_where_from_since from since)).
  cbn [bind].
  rewrite (bind_int_in_range limit) by lia.
  rewrite (bind_int_in_range offset) by lia.
  cbn [bind]. rewrite limit_offset_window by lia. reflexivity.
Qed.

(** An empty [since] is a lower bound of every timestamp, so leaving it
    out selects the same rows. *)
Lemma matches_given_since from since r :
  matches from (given since) r = matches from since r.
Proof.
  destruct since as [[|a v]|]; try reflexivity.
  unfold matches, given. cbn [truthy String.eqb negb].
  f_equal. unfold String.leb. now destruct (ts r).
Qed.

(** C3, as amended. Listing: with the storage up, for every table, every
    limit in [1, 100], every offset from 0 up to the largest integer
    SQLite stores, and every combination of [from] and [since], [from]
    being absent or a non-empty string, [get_messages] returns the rows
    whose sender equals [from] (when given) and whose timestamp is at
    least [since] in the order of strings (when given), sorted by
    (timestamp, message_id) ascending, with the window
    [[offset, offset + limit)] applied after sorting, and the number of
    matching rows as total. *)
Theorem get_messages_lists_matching_rows :
  forall io t limit offset from since,
    storage_up io ->
    1 <= limit <= 100 ->
    0 <= offset < 2 ^ 63 ->
    from <> Some "" ->
    list_result t limit offset from since
      (get_messages io t limit offset from since None).
Proof.
  intros io t limit offset from since Hup Hl Ho Hf.
  rewrite get_messages_no_query by (try assumption; lia).
  rewrite (given_nonempty from Hf).
  rewrite (filter_ext _ _ (matches_given_since from since) t).
  split; [reflexivity|].
  exists (order_by_ts_message_id (filter (matches from since) t)).
  split; [apply order_by_perm|]. split; [apply order_by_sorted|]. reflexivity.
Qed.

(** C3 as stated fails in two places: an empty [from] selects every row
    where the claim selects the rows whose sender is the empty string,
    and an offset of 2^63 makes the total 0 where one row matches. *)
Lemma get_messages_claim_fails :
  ~ list_result [row_m1] 1 0 (Some "") None
      (get_messages healthy [row_m1] 1 0 (Some "") None None)
  /\ ~ list_result [row_m1] 1 (2 ^ 63) None None
         (get_messages healthy [row_m1] 1 (2 ^ 63) None None None).
Proof.
  split; intros [H _]; vm_compute in H; discriminate.
Qed.

(** C10. Empty-string filters are absent filters: [from], [since] or [q]
    equal to the empty string gives the items and the total of the call
    without that filter, whatever the other arguments are. *)
Theorem empty_filters_are_absent :
  forall io t limit offset from since q,
    get_messages io t limit offset (Some "") since q
    = get_messages io t limit offset None since q
    /\ get_messages io t limit offset from (Some "") q
       = get_messages io t limit offset from None q
    /\ get_messages io t limit offset from since (Some "")
       = get_messages io t limit offset from since None.
Proof.
  intros. repeat split; reflexivity.
Qed.

(** An empty [q] keeps the rows without text. *)
Example empty_q_keeps_null_text :
  get_messages healthy [row_m1; row_m2] 50 0 None None (Some "")
  = ([message_of_row row_m1; message_of_row row_m2], 2).
Proof. vm_compute. reflexivity. Qed.

(** ** Statistics *)

Lemma strongly_sorted_app {A : Type} (R : A -> A -> Prop) (l1 l2 : list A) :
  StronglySorted R (l1 ++ l2) ->
  StronglySorted R l1 /\ forall a b, In a l1 -> In b l2 -> R a b.
Proof.
  induction l1 as [|x l1 IH]; cbn; intros H.
  - split; [constructor | contradiction].
  - inversion H as [|? ? Hs Hx]; subst.
    destruct (IH Hs) as [Hs1 Hcross].
    rewrite Forall_app in Hx. destruct Hx as [Hx1 Hx2]. split.
    + now constructor.
    + intros a b [<- | Ha] Hb.
      * rewrite Forall_forall in Hx2. now apply Hx2.
      * now apply Hcross.
Qed.

(** Folding a choice between two strings that is below both of them
    yields an element below all. *)
Lemma fold_left_extremum (le : string -> string -> bool)
    (f : string -> string -> string) :
  (forall a, le a a = true) ->
  (forall a b c, le a b = true -> le b c = true -> le a c = true) ->
  (forall a b, (f a b = a \/ f a b = b)
               /\ le (f a b) a = true /\ le (f a b) b = true) ->
  forall l a,
    In (fold_left f l a) (a :: l)
    /\ le (fold_left f l a) a = true
    /\ forall x, In x l -> le (fold_left f l a) x = true.
Proof.
  intros Hrefl Htrans Hf.
  induction l as [|x l IH]; intros a; cbn [fold_left].
  - split; [now left|]. split; [apply Hrefl | contradiction].
  - destruct (IH (f a x)) as (Hin & Hle & Hall).
    destruct (Hf a x) as (Hor & Hfa & Hfx).
    split; [|split].
    + destruct Hin as [E | Hin].
      * rewrite <- E. destruct Hor as [-> | ->]; cbn; auto.
      * right. now right.
    + eapply Htrans; eassumption.
    + intros y [<- | Hy]; [eapply Htrans; eassumption | now apply Hall].
Qed.

Lemma str_min_below a b :
  (str_min a b = a \/ str_min a b = b)
  /\ String.leb (str_min a b) a = true /\ String.leb (str_min a b) b = true.
Proof.
  unfold str_min. destruct (String.leb a b) eqn:E.
  - split; [now left|]. split; [apply string_leb_refl | exact E].
  - split; [now right|]. split; [|apply string_leb_refl].
    destruct (String.leb_total a b) as [H | H]; congruence.
Qed.

Lemma str_max_above a b :
  (str_max a b = a \/ str_max a b = b)
  /\ String.leb a (str_max a b) = true /\ String.leb b (str_max a b) = true.
Proof.
  unfold str_max. destruct (String.leb a b) eqn:E.
  - split; [now right|]. split; [exact E | apply string_leb_refl].
  - split; [now left|]. split; [apply string_leb_refl|].
    destruct (String.leb_total a b) as [H | H]; congruence.
Qed.

Lemma min_ts_spec t :
  match min_ts t with
  | None => t = []
  | Some m => is_min_ts t m
  end.
Proof.
  destruct t as [|r t]; cbn; [reflexivity|].
  destruct (fold_left_extremum String.leb str_min string_leb_refl
              string_leb_trans str_min_below (map ts t) (ts r))
    as (Hin & Hle & Hall).
  split; [exact Hin|].
  intros r' [<- | Hr']; [exact Hle|]. apply Hall. now apply in_map.
Qed.

Lemma max_ts_spec t :
  match max_ts t with
  | None => t = []
  | Some m => is_max_ts t m
  end.
Proof.
  destruct t as [|r t]; cbn; [reflexivity|].
  destruct (fold_left_extremum (fun a b => String.leb b a) str_max
              string_leb_refl
              (fun a b c H1 H2 => string_leb_trans c b a H2 H1)
              str_max_above (map ts t) (ts r))
    as (Hin & Hle & Hall).
  split; [exact Hin|].
  intros r' [<- | Hr']; [exact Hle|]. apply Hall. now apply in_map.
Qed.

Lemma endswith_char_truthy s c : endswith_char s c = true -> truthy s = true.
Proof. destruct s; [discriminate | reflexivity]. Qed.

(** In a table whose timestamps end with [Z] the least and the greatest
    timestamp are not the empty string, and [x if x else None] keeps
    them. *)
Lemma value_if_truthy_ts t m :
  table_ok t -> In m (map ts t) -> value_if_truthy (Some m) = Some m.
Proof.
  intros [_ Hz] Hin. apply in_map_iff in Hin. destruct Hin as (r & <- & Hr).
  rewrite Forall_forall in Hz. unfold value_if_truthy. cbn.
  now rewrite (endswith_char_truthy _ _ (Hz r Hr)).
Qed.

Lemma senders_distinct t :
  let senders := nodup string_dec (map from_msisdn t) in
  NoDup senders /\ forall x, In x senders <-> is_sender t x.
Proof.
  split; [apply NoDup_nodup|].
  intros x. rewrite nodup_In, in_map_iff. unfold is_sender.
  split; intros (r & H1 & H2); exists r; auto.
Qed.


Lemma group_by_from_In t x c :
  In (x, c) (group_by_from t) <-> is_sender t x /\ c = count_from x t.
Proof.
  unfold group_by_from. rewrite in_map_iff. split.
  - intros (s & E & Hs). inversion E; subst.
    split; [now apply senders_distinct | reflexivity].
  - intros (Hx & ->). exists x. split; [reflexivity | now apply senders_distinct].
Qed.







Lemma insert_count_perm x l : Permutation (insert_count x l) (x :: l).
Proof.
  induction l as [|y l IH]; cbn; [reflexivity|].
  destruct (snd y <=? snd x); [reflexivity|].
  rewrite IH. apply perm_swap.
Qed.

Lemma insert_count_sorted x l :
  StronglySorted by_count_desc l -> StronglySorted by_count_desc (insert_count x l).
Proof.
  induction 1 as [|y l Hs IH Hy]; cbn.
  - repeat constructor.
  - destruct (snd y <=? snd x) eqn:E.
    + apply Z.leb_le in E. constructor; [now constructor|].
      constructor; [exact E|].
      eapply Forall_impl; [|exact Hy]. unfold by_count_desc. intros; lia.
    + apply Z.leb_gt in E. constructor; [assumption|].
      eapply Permutation_Forall; [symmetry; apply insert_count_perm|].
      constructor; [unfold by_count_desc; lia | assumption].
Qed.

(** The stable sort is one of the engines. *)
Lemma stable_order_sorts : sorts_by_count_desc stable_order_by_count_desc.
Proof.
  intros l. unfold stable_order_by_count_desc.
  induction l as [|x l [IHp IHs]]; cbn.
  - split; [reflexivity | constructor].
  - split.
    + rewrite insert_count_perm. now constructor.
    + now apply insert_count_sorted.
Qed.

(** So is the stable sort of the groups taken in reverse, and the two
    list senders of equal count in different orders: the query leaves
    the order of ties to the engine. *)
Lemma tie_order_is_the_engine's :
  sorts_by_count_desc (fun l => stable_order_by_count_desc (rev l))
  /\ messages_per_sender
       (get_stats stable_order_by_count_desc healthy [row_m1; row_m2])
     <> messages_per_sender
          (get_stats (fun l => stable_order_by_count_desc (rev l)) healthy
             [row_m1; row_m2]).
Proof.
  split.
  - intros l. destruct (stable_order_sorts (rev l)) as [Hp Hs].
    split; [|exact Hs]. rewrite Hp. symmetry. apply Permutation_rev.
  - vm_compute. discriminate.
Qed.


Lemma healthy_up : storage_up healthy.
Proof. unfold storage_up. cbn. auto. Qed.

(** The aggregation of the specification: three messages of one sender
    and one of another. *)
Example stats_three_and_one :
  get_stats stable_order_by_count_desc healthy stats_table
  = mkStats 4 2 [("+919876543210", 3); ("+911234567890", 1)]
            (Some "2025-01-15T08:00:00Z") (Some "2025-01-15T11:00:00Z").
Proof. vm_compute. reflexivity. Qed.

(** *** The listing properties of the specification on five rows *)

Example listing_in_timestamp_order :
  map d_message_id (fst (get_messages healthy five_rows 50 0 None None None))
  = ["a"; "b"; "c"; "d"; "e"].
Proof. vm_compute. reflexivity. Qed.

Example filters_compose :
  map d_message_id
    (fst (get_messages healthy five_rows 50 0 (Some "+14155550101")
            (Some "2025-01-15T11:00:00Z") None))
  = ["c"; "e"].
Proof. vm_compute. reflexivity. Qed.

Example pagination_total :
  let res := get_messages healthy five_rows 2 0 None None None in
  List.length (fst res) = 2%nat /\ snd res = 5.
Proof. vm_compute. split; reflexivity. Qed.

(** ** The read path under storage faults *)

Lemma get_messages_fault io t limit offset from since q :
  connect_fails io = true \/ execute_fails io 0 = true
  \/ execute_fails io 1 = true ->
  is_ok (get_messages_try io t limit offset from since q) = false.
Proof.
  unfold get_messages_try, connect, execute_guard.
  intros H.
  destruct (connect_fails io); cbn; [reflexivity|].
  destruct (execute_fails io 0); cbn; [reflexivity|].
  destruct H as [H | [H | H]]; try discriminate.
  destruct (select_where _ t); cbn; [|reflexivity].
  destruct (bind_int limit); cbn; [|reflexivity].
  destruct (bind_int offset); cbn; [|reflexivity].
  rewrite H. reflexivity.
Qed.

Lemma get_stats_fault order_by io t :
  connect_fails io = true
  \/ (exists n, (n < 4)%nat /\ execute_fails io n = true) ->
  is_ok (get_stats_try order_by io t) = false.
Proof.
  unfold get_stats_try, connect, execute_guard.
  intros [H | (n & Hn & H)].
  - rewrite H. reflexivity.
  - destruct (connect_fails io); cbn; [reflexivity|].
    destruct n as [|[|[|[|n]]]]; try lia; rewrite ?H;
      repeat (match goal with
              | |- context [execute_fails io ?k] =>
                  destruct (execute_fails io k); cbn; try reflexivity;
                  try discriminate
              end).
Qed.

(** C5. Read-path soft fail: whenever the body of [get_messages] raises,
    and so whenever the connection or one of its two queries fails, the
    call returns the empty list and total 0; whenever the body of
    [get_stats] raises, and so whenever the connection or one of its
    four queries fails, the call returns the zeroed statistics. Both
    calls return a value in every case. *)
Theorem read_path_soft_fail :
  forall order_by io t limit offset from since q,
    (is_ok (get_messages_try io t limit offset from since q) = false ->
     get_messages io t limit offset from since q = ([], 0))
    /\ (connect_fails io = true \/ execute_fails io 0 = true
        \/ execute_fails io 1 = true ->
        get_messages io t limit offset from since q = ([], 0))
    /\ (is_ok (get_stats_try order_by io t) = false ->
        get_stats order_by io t = zeroed_stats)
    /\ (connect_fails io = true
        \/ (exists n, (n < 4)%nat /\ execute_fails io n = true) ->
        get_stats order_by io t = zeroed_stats).
Proof.
  intros order_by io t limit offset from since q.
  assert (Hm : is_ok (get_messages_try io t limit offset from since q) = false ->
               get_messages io t limit offset from since q = ([], 0)).
  { unfold get_messages.
    destruct (get_messages_try io t limit offset from since q);
      [discriminate | reflexivity]. }
  assert (Hs : is_ok (get_stats_try order_by io t) = false ->
               get_stats order_by io t = zeroed_stats).
  { unfold get_stats.
    destruct (get_stats_try order_by io t); [discriminate | reflexivity]. }
  split; [exact Hm|]. split.
  { intros H. apply Hm. now apply get_messages_fault. }
  split; [exact Hs|].
  intros H. apply Hs. now apply get_stats_fault.
Qed.

(** ** Signatures *)

Lemma hex_digit_ascii n : 0 <= n < 16 -> (ord (Hmac.hex_digit n) <? 128) = true.
Proof.
  intros H. unfold ord, Hmac.hex_digit. apply Z.ltb_lt.
  rewrite N_ascii_embedding; destruct (n <? 10) eqn:E; lia.
Qed.

Lemma byte_val_range b : 0 <= Sha256.byte_val b < 256.
Proof.
  unfold Sha256.byte_val. pose proof (Byte.to_N_bounded b). lia.
Qed.

(** A hexadecimal digest is ASCII. *)
Lemma hex_isascii bs : isascii (Hmac.hex bs) = true.
Proof.
  unfold isascii. induction bs as [|b bs IH]; cbn; [reflexivity|].
  pose proof (byte_val_range b) as Hb.
  rewrite !hex_digit_ascii, IH; [reflexivity| |].
  - rewrite Z.land_ones with (n := 4) by lia. apply Z.mod_pos_bound. lia.
  - change (Z.div2 (Z.div2 (Z.div2 (Z.div2 (Sha256.byte_val b)))))
      with (Z.shiftr (Sha256.byte_val b) 4).
    rewrite Z.shiftr_div_pow2 by lia. change (2 ^ 4) with 16.
    split; [apply Z.div_pos; lia | apply Z.div_lt_upper_bound; lia].
Qed.

(** On ASCII signatures the verifier is the comparison with the digest
    under a set, non-empty secret. *)
Lemma verify_signature_ascii secret body signature :
  isascii signature = true ->
  verify_signature secret body signature
  = Ok match secret with
       | Some s => truthy s && (Hmac.hexdigest (encode s) body =? signature)%string
       | None => false
       end.
Proof.
  intros Ha. unfold verify_signature. destruct secret as [s|]; [|reflexivity].
  destruct (truthy s); cbn; [|reflexivity].
  unfold Hmac.compare_digest, Hmac.hexdigest. now rewrite hex_isascii, Ha.
Qed.

Lemma verify_signature_not_ascii s body signature :
  truthy s = true -> isascii signature = false ->
  verify_signature (Some s) body signature
  = Raise (TypeError "comparing strings with non-ASCII characters is not supported").
Proof.
  intros Hs Ha. unfold verify_signature, Hmac.compare_digest.
  now rewrite Hs, Ha, andb_false_r.
Qed.

(** C9 at a signature that is not ASCII: with a secret set, the verifier
    raises [TypeError] where the claim has it return false. *)
Theorem verify_signature_raises_on_non_ascii :
  forall body,
    verify_signature (Some "testsecret") body non_ascii_signature
    = Raise (TypeError "comparing strings with non-ASCII characters is not supported").
Proof.
  intros body. now apply verify_signature_not_ascii.
Qed.

Section WebhookProperties.
Variable decode : list byte -> result string.
Variable json_loads : string -> result Models.json.
Variable fromisoformat : string -> result Models.datetime.
Variable str_of : exn -> string.

Local Abbreviation webhook := (Main.webhook decode json_loads fromisoformat str_of).

(** A request whose signature is missing or wrong never reaches the
    table; it is answered with 401 unless the signature is not ASCII. *)
Lemma webhook_bad_signature secret io utcnow t body x_signature :
  bad_signature secret body x_signature ->
  Main.db (webhook secret io utcnow t body x_signature) = t
  /\ (PyStr.isascii (match x_signature with Some v => v | None => "" end) = true ->
      Main.response (webhook secret io utcnow t body x_signature)
      = Raise (HTTPException 401 "invalid signature")
      /\ Main.recorded (webhook secret io utcnow t body x_signature)
         = Some "invalid_signature").
Proof.
  intros Hbad. unfold Main.webhook, Main.signature_rejected.
  destruct x_signature as [signature|]; [|cbn; auto].
  destruct (truthy signature) eqn:Ht; cbn [negb]; [|cbn; auto].
  destruct (isascii signature) eqn:Ha.
  - rewrite (verify_signature_ascii secret body signature Ha). cbn [bind].
    assert (E : match secret with
                | Some s => truthy s
                            && (Hmac.hexdigest (encode s) body =? signature)%string
                | None => false
                end = false).
    { destruct secret as [s|]; [|reflexivity].
      apply andb_false_iff. right. apply String.eqb_neq.
      intros E. now apply (Hbad s eq_refl). }
    rewrite E. cbn. auto.
  - unfold verify_signature. destruct secret as [s|]; [|cbn; split; [reflexivity|discriminate]].
    destruct (truthy s); cbn [negb]; [|cbn; split; [reflexivity|discriminate]].
    unfold Hmac.compare_digest. rewrite Ha, andb_false_r. cbn.
    split; [reflexivity | discriminate].
Qed.

(** C2 at a signature that is not ASCII: the request is not answered
    with the invalid-signature outcome; the handler ends with the
    [TypeError] of the comparison and records no result. The table is
    as it was. *)
Theorem webhook_raises_on_non_ascii_signature :
  forall io utcnow t body,
    Main.response (webhook (Some "testsecret") io utcnow t body
                     (Some non_ascii_signature))
    = Raise (TypeError "comparing strings with non-ASCII characters is not supported")
    /\ Main.recorded (webhook (Some "testsecret") io utcnow t body
                        (Some non_ascii_signature)) = None
    /\ Main.db (webhook (Some "testsecret") io utcnow t body
                  (Some non_ascii_signature)) = t.
Proof.
  intros io utcnow t body.
  unfold Main.webhook, Main.signature_rejected.
  change (truthy non_ascii_signature) with true. cbn [negb].
  rewrite (verify_signature_not_ascii "testsecret" body non_ascii_signature)
    by reflexivity.
  cbn. auto.
Qed.

End WebhookProperties.

(** ** Validation *)

Lemma isdigit_char_ascii c :
  (ord c <? 128) = true -> isdigit_char c = is_ascii_digit c.
Proof.
  unfold isdigit_char, is_ascii_digit. intros H. apply Z.ltb_lt in H.
  replace (ord c =? 178) with false by (symmetry; apply Z.eqb_neq; lia).
  replace (ord c =? 179) with false by (symmetry; apply Z.eqb_neq; lia).
  replace (ord c =? 185) with false by (symmetry; apply Z.eqb_neq; lia).
  now rewrite !orb_false_r.
Qed.

Lemma all_digits_ascii s :
  isascii s = true -> all_chars isdigit_char s = all_chars is_ascii_digit s.
Proof.
  unfold isascii. induction s as [|c s IH]; cbn; [reflexivity|].
  intros H. apply andb_true_iff in H. destruct H as [Hc Hs].
  now rewrite (isdigit_char_ascii c Hc), IH.
Qed.

(** On ASCII text the validator accepts exactly [+] followed by one or
    more ASCII digits, and returns the value as it is. *)
Lemma validate_phone_number_ascii v :
  isascii v = true ->
  Models.validate_phone_number v = (if phone_ok v then Ok v else
    Raise (ValueError "Phone number must be in E.164 format (start with +, followed by digits)")).
Proof.
  intros Ha. unfold Models.validate_phone_number, startswith, isdigit, phone_ok.
  destruct v as [|a rest]; [reflexivity|].
  assert (Hrest : isascii rest = true).
  { unfold isascii in *. cbn in Ha. now apply andb_true_iff in Ha. }
  cbn [tail String.prefix].
  destruct (ascii_dec "+" a) as [<- | Hne].
  - rewrite (all_digits_ascii rest Hrest).
    destruct rest as [|b rest']; [reflexivity|]. cbn [negb orb].
    now destruct (truthy (String b rest') && all_chars is_ascii_digit (String b rest')).
  - destruct a as [[] [] [] [] [] [] [] []]; try reflexivity.
    now contradiction Hne.
Qed.

(** C6 at a sender written with a superscript digit: the validator
    accepts it, though the character after the sign is no ASCII digit. *)
Theorem validate_phone_number_accepts_superscript :
  Models.validate_phone_number superscript_phone = Ok superscript_phone
  /\ phone_ok superscript_phone = false.
Proof. split; reflexivity. Qed.

Lemma validate_timestamp_cases
    (fromisoformat : string -> result Models.datetime) (v : string) :
  is_ok (Models.validate_timestamp fromisoformat v)
  = is_ok (fromisoformat (replace_char v "Z" "+00:00")) && endswith_char v "Z"
  /\ (is_ok (Models.validate_timestamp fromisoformat v) = true ->
      Models.validate_timestamp fromisoformat v = Ok v).
Proof.
  unfold Models.validate_timestamp.
  destruct (fromisoformat (replace_char v "Z" "+00:00")) as [d | e].
  - destruct (endswith_char v "Z"); cbn; split; auto; discriminate.
  - destruct e; cbn; split; auto; discriminate.
Qed.

(** C7, as amended. Timestamp validation succeeds exactly when the
    value with every [Z] replaced by [+00:00] is parseable as an
    ISO-8601 datetime and the value ends with [Z]; the value is returned
    as it is, and a value without the [Z] suffix fails even when it is
    parseable. *)
Theorem validate_timestamp_accepts :
  forall (fromisoformat : string -> result Models.datetime) (v : string),
    is_ok (Models.validate_timestamp fromisoformat v)
    = is_ok (fromisoformat (replace_char v "Z" "+00:00")) && endswith_char v "Z"
    /\ (is_ok (Models.validate_timestamp fromisoformat v) = true ->
        Models.validate_timestamp fromisoformat v = Ok v).
Proof.
  intros fromisoformat v. apply validate_timestamp_cases.
Qed.

(** C7 as stated fails at a value with [Z] between date and time: with
    the trailing [Z] replaced the value is parseable and it ends with
    [Z], yet validation fails, because the other [Z] is replaced too. *)
Lemma validate_timestamp_claim_fails :
  timestamp_ok Models.isoformat_documented z_separated_timestamp = true
  /\ is_ok (Models.validate_timestamp Models.isoformat_documented
              z_separated_timestamp) = false.
Proof. split; vm_compute; reflexivity. Qed.

(** The validation boundary of the specification. *)
Example phone_without_plus_fails :
  is_ok (Models.validate_phone_number "919876543210") = false.
Proof. reflexivity. Qed.

Example phone_with_plus_passes :
  Models.validate_phone_number "+919876543210" = Ok "+919876543210".
Proof. reflexivity. Qed.

Example phone_plus_alone_fails :
  is_ok (Models.validate_phone_number "+") = false.
Proof. reflexivity. Qed.

Example timestamp_without_z_fails :
  is_ok (Models.validate_timestamp Models.isoformat_documented
           "2025-01-15T10:00:00") = false.
Proof. vm_compute. reflexivity. Qed.

Example timestamp_with_z_passes :
  Models.validate_timestamp Models.isoformat_documented "2025-01-15T10:00:00Z"
  = Ok "2025-01-15T10:00:00Z".
Proof. vm_compute. reflexivity. Qed.

(** ** Text query *)

(** C8 at the query [a_c]: the row with the text [abc] is listed, though
    [a_c] does not occur in it; the underscore stands for any
    character. *)
Theorem text_query_underscore_is_wildcard :
  get_messages healthy [row_m1] 50 0 None None (Some "a_c")
  = ([message_of_row row_m1], 1)
  /\ text row_m1 = Some "abc"
  /\ text_contains "a_c" (text row_m1) = false.
Proof. repeat split; vm_compute; reflexivity. Qed.

Example text_query_percent_is_wildcard :
  get_messages healthy [row_m1] 50 0 None None (Some "c%a")
  = ([], 0)
  /\ get_messages healthy [row_m1] 50 0 None None (Some "a%c")
     = ([message_of_row row_m1], 1).
Proof. split; vm_compute; reflexivity. Qed.

Example text_query_plain_substring :
  get_messages healthy [row_m1; row_m2] 50 0 None None (Some "BC")
  = ([message_of_row row_m1], 1).
Proof. vm_compute. reflexivity. Qed.

(** *** A plain query is a substring test *)

Lemma lower_char_plain c :
  plain_char c = true ->
  lower_char c = sql_lower_char c
  /\ plain_char (sql_lower_char c) = true
  /\ sql_lower_char (sql_lower_char c) = sql_lower_char c.
Proof.
  destruct c as [[] [] [] [] [] [] [] []]; intros H;
    try discriminate H; repeat split; reflexivity.
Qed.

Lemma lower_char_literal c :
  literal_char c = true -> literal_char (sql_lower_char c) = true.
Proof.
  destruct c as [[] [] [] [] [] [] [] []]; intros H;
    try discriminate H; reflexivity.
Qed.

Lemma all_chars_map (p q : ascii -> bool) (f : ascii -> ascii) s :
  (forall c, p c = true -> q (f c) = true) ->
  all_chars p s = true -> all_chars q (map_chars f s) = true.
Proof.
  intros Hf. induction s as [|c s IH]; cbn; [reflexivity|].
  intros H. apply andb_true_iff in H. destruct H as [Hc Hs].
  now rewrite (Hf c Hc), IH.
Qed.

Lemma all_chars_impl (p q : ascii -> bool) s :
  (forall c, p c = true -> q c = true) ->
  all_chars p s = true -> all_chars q s = true.
Proof.
  intros Hpq. induction s as [|c s IH]; cbn; [reflexivity|].
  intros H. apply andb_true_iff in H. destruct H as [Hc Hs].
  now rewrite (Hpq c Hc), IH.
Qed.

(** On plain text Python's [lower] and SQLite's [LOWER] agree. *)
Lemma lower_plain s : all_chars plain_char s = true -> lower s = sql_lower s.
Proof.
  unfold lower, sql_lower. induction s as [|c s IH]; cbn; [reflexivity|].
  intros H. apply andb_true_iff in H. destruct H as [Hc Hs].
  now rewrite (proj1 (lower_char_plain c Hc)), IH.
Qed.

(** Plain text has no NUL and one byte per character. *)
Lemma c_string_plain s : all_chars plain_char s = true -> c_string s = s.
Proof.
  induction s as [|c s IH]; cbn; [reflexivity|].
  intros H. apply andb_true_iff in H. destruct H as [Hc Hs].
  unfold plain_char in Hc. apply andb_true_iff in Hc. destruct Hc as [Hc _].
  apply Z.ltb_lt in Hc.
  replace (ord c =? 0) with false by (symmetry; apply Z.eqb_neq; lia).
  now rewrite IH.
Qed.

Lemma encode_length_plain s :
  all_chars plain_char s = true -> List.length (encode s) = String.length s.
Proof.
  induction s as [|c s IH]; cbn; [reflexivity|].
  intros H. apply andb_true_iff in H. destruct H as [Hc Hs].
  unfold plain_char, ord in Hc. apply andb_true_iff in Hc. destruct Hc as [_ Hc].
  apply Z.ltb_lt in Hc. unfold encode_char.
  replace (N_of_ascii c <? 128)%N with true by (symmetry; apply N.ltb_lt; lia).
  cbn. now rewrite IH.
Qed.

Lemma any_suffix_ext (f g : string -> bool) (P : string -> Prop) :
  (forall c s, P (String c s) -> P s) ->
  (forall s, P s -> f s = g s) ->
  forall s, P s -> any_suffix f s = any_suffix g s.
Proof.
  intros Htail Hfg. induction s as [|c s IH]; intros Hs; cbn.
  - now apply Hfg.
  - rewrite (Hfg _ Hs), IH; [reflexivity|]. eapply Htail; eassumption.
Qed.

Lemma any_suffix_of_empty f s : f EmptyString = true -> any_suffix f s = true.
Proof.
  intros H. induction s as [|c s IH]; cbn.
  - exact H.
  - rewrite IH. now destruct (f (String c s)).
Qed.

Lemma is_substring_any_suffix q s :
  is_substring q s = any_suffix (String.prefix q) s.
Proof.
  induction s as [|c s IH]; cbn; [apply orb_false_r|].
  rewrite IH. now destruct (String.prefix q (String c s)).
Qed.

(** A pattern that starts with [%] matches when its rest matches some
    suffix. *)
Lemma like_match_percent p s :
  like_match (String "%" p) s = any_suffix (like_match p) s.
Proof.
  induction s as [|c s IH]; [apply orb_false_r|].
  cbn [any_suffix]. rewrite <- IH.
  change (like_match (String "%" p) (String c s))
    with (like_match p (String c s) || like_match (String "%" p) s).
  now destruct (like_match p (String c s)).
Qed.

(** A literal in lower case followed by [%] matches the lower-case texts
    it is a prefix of. *)
Lemma like_match_literal p : forall s,
  all_chars literal_char p = true ->
  all_chars (fun c => Ascii.eqb (sql_lower_char c) c) p = true ->
  all_chars (fun c => Ascii.eqb (sql_lower_char c) c) s = true ->
  like_match (p ++ "%") s = String.prefix p s.
Proof.
  induction p as [|c p IH]; intros s Hlit Hlow Hs.
  - change (like_match ("" ++ "%") s) with (like_match (String "%" "") s).
    rewrite like_match_percent, any_suffix_of_empty by reflexivity.
    now destruct s.
  - cbn in Hlit, Hlow.
    apply andb_true_iff in Hlit. destruct Hlit as [Hc Hlit].
    apply andb_true_iff in Hlow. destruct Hlow as [Hcl Hlow].
    unfold literal_char in Hc.
    apply andb_true_iff in Hc. destruct Hc as [Hc Hu].
    apply andb_true_iff in Hc. destruct Hc as [_ Hp].
    apply negb_true_iff in Hp, Hu. apply Ascii.eqb_eq in Hcl.
    cbn [append like_match String.prefix]. rewrite Hp, Hu.
    destruct s as [|d s]; [reflexivity|].
    cbn in Hs. apply andb_true_iff in Hs. destruct Hs as [Hd Hs].
    apply Ascii.eqb_eq in Hd. rewrite Hcl, Hd, (IH s Hlit Hlow Hs). cbn.
    destruct (ascii_dec c d) as [-> | Hne].
    + now rewrite Ascii.eqb_refl.
    + apply Ascii.eqb_neq in Hne. now rewrite Hne.
Qed.

(** For a query of ASCII characters without [%], [_] and NUL, short
    enough for the pattern limit, on a row whose text is ASCII without
    NUL or absent, the condition of [q] is the substring test of the
    specification. *)
Lemma text_query_plain q r :
  all_chars literal_char q = true ->
  (forall s, text r = Some s -> all_chars plain_char s = true) ->
  Z.of_nat (String.length q) + 2 <= like_pattern_limit ->
  eval_condition lower_text_like ("%" ++ lower q ++ "%") r
  = Ok (text_contains q (text r)).
Proof.
  intros Hq Htext Hlen.
  assert (Hqp : all_chars plain_char q = true).
  { eapply all_chars_impl; [|exact Hq]. intros c Hc. unfold literal_char in Hc.
    apply andb_true_iff in Hc. destruct Hc as [Hc _].
    now apply andb_true_iff in Hc. }
  assert (Hlq : all_chars literal_char (sql_lower q) = true)
    by (apply (all_chars_map literal_char); [apply lower_char_literal | exact Hq]).
  assert (Hlow : forall s, all_chars plain_char s = true ->
            all_chars (fun c => Ascii.eqb (sql_lower_char c) c) (sql_lower s) = true).
  { intros s. apply all_chars_map. intros c Hc. apply Ascii.eqb_eq.
    apply (lower_char_plain c Hc). }
  assert (Hpl : forall s, all_chars plain_char s = true ->
                          all_chars plain_char (sql_lower s) = true).
  { intros s. apply all_chars_map. intros c Hc. apply (lower_char_plain c Hc). }
  assert (Hpat : all_chars plain_char ("%" ++ sql_lower q ++ "%") = true).
  { cbn. clear - Hqp Hpl. specialize (Hpl q Hqp).
    induction (sql_lower q) as [|c s IH]; cbn; [reflexivity|].
    cbn in Hpl. apply andb_true_iff in Hpl. destruct Hpl as [Hc Hs].
    now rewrite Hc, IH. }
  unfold eval_condition, sql_like. rewrite (lower_plain q Hqp).
  rewrite (encode_length_plain _ Hpat).
  assert (Hshort : (like_pattern_limit
                    <? Z.of_nat (String.length ("%" ++ sql_lower q ++ "%"))) = false).
  { apply Z.ltb_ge. cbn [append String.length].
    assert (E : String.length (sql_lower q ++ "%") = S (String.length q)).
    { clear. unfold sql_lower. induction q as [|c q IH]; cbn; [reflexivity|].
      now rewrite IH. }
    rewrite E. lia. }
  rewrite Hshort.
  destruct (text r) as [s|] eqn:Et; cbn [option_map text_contains]; [|reflexivity].
  specialize (Htext s eq_refl).
  rewrite (c_string_plain _ Hpat), (c_string_plain _ (Hpl s Htext)).
  rewrite (lower_plain q Hqp), (lower_plain s Htext).
  cbn [append]. rewrite like_match_percent, is_substring_any_suffix.
  f_equal.
  apply (any_suffix_ext _ _
           (fun s => all_chars (fun c => Ascii.eqb (sql_lower_char c) c) s = true)).
  - intros c s' H. cbn in H. now apply andb_true_iff in H.
  - intros s' Hs'. apply like_match_literal; [exact Hlq | now apply Hlow | exact Hs'].
  - now apply Hlow.
Qed.

Lemma select_where_filter_on conditions (p : row -> bool) t :
  (forall r, In r t -> eval_where conditions r = Ok (p r)) ->
  select_where conditions t = Ok (filter p t).
Proof.
  induction t as [|r t IH]; intros H; cbn; [reflexivity|].
  rewrite (H r (or_introl eq_refl)), IH; [reflexivity|].
  intros r' Hr'. apply H. now right.
Qed.

(** With such a query and such texts the listing is the window of the
    sorted rows whose text contains the query. *)
Lemma get_messages_plain_query io t limit offset q :
  storage_up io ->
  0 <= limit < 2 ^ 63 -> - 2 ^ 63 <= offset < 2 ^ 63 ->
  truthy q = true ->
  all_chars literal_char q = true ->
  Z.of_nat (String.length q) + 2 <= like_pattern_limit ->
  (forall r s, In r t -> text r = Some s -> all_chars plain_char s = true) ->
  get_messages io t limit offset None None (Some q)
  = (map message_of_row
       (window limit offset
          (order_by_ts_message_id
             (filter (fun r => text_contains q (text r)) t))),
     Z.of_nat (List.length (filter (fun r => text_contains q (text r)) t))).
Proof.
  intros (Hc & He & _ & _) Hl Ho Hq Hlit Hlen Htexts.
  unfold get_messages, get_messages_try, connect, execute_guard.
  rewrite Hc, !He. cbn [bind condition_if app]. rewrite Hq.
  assert (Hsel : select_where [(lower_text_like, ("%" ++ lower q ++ "%")%string)] t
                 = Ok (filter (fun r => text_contains q (text r)) t)).
  { apply select_where_filter_on. intros r Hr. cbn [eval_where].
    rewrite (text_query_plain q r Hlit (fun s => Htexts r s Hr) Hlen).
    cbn [bind]. now destruct (text_contains q (text r)). }
  rewrite Hsel. cbn [bind].
  rewrite (bind_int_in_range limit) by lia.
  rewrite (bind_int_in_range offset) by lia.
  cbn [bind]. rewrite limit_offset_window by lia. reflexivity.
Qed.

(** Outside ASCII the two sides fold case differently: [q.lower()] maps
    U+00C9 to U+00E9, [LOWER] and [LIKE] leave both alone, and the text
    made of the query itself is not found. *)
Example text_query_non_ascii_case :
  let q := String "201"%char EmptyString in
  get_messages healthy [mkRow "m1" "+1" "+2" "2025-01-15T09:00:00Z" (Some q) "c"]
    50 0 None None (Some q) = ([], 0)
  /\ text_contains q (Some q) = true.
Proof. split; vm_compute; reflexivity. Qed.

(** ** The table under the webhook *)

Lemma has_id_false_not_in mid t :
  has_id mid t = false -> ~ In mid (map message_id t).
Proof.
  unfold has_id. induction t as [|r t IH]; cbn; [tauto|].
  intros H. apply orb_false_iff in H. destruct H as [Hr Ht].
  intros [E | Hin]; [|now apply IH].
  rewrite E, String.eqb_refl in Hr. discriminate.
Qed.

(** A call of [insert_message] keeps [message_id] a key. *)
Lemma insert_message_keeps_key io utcnow t mid from to stamp body :
  NoDup (map message_id t) ->
  NoDup (map message_id (snd (insert_message io utcnow t mid from to stamp body))).
Proof.
  intros Hnd.
  destruct (insert_message_table io utcnow t mid from to stamp body)
    as [-> | [-> Hfresh]]; [assumption|].
  rewrite map_app. cbn.
  eapply Permutation_NoDup; [apply Permutation_cons_append|].
  constructor; [now apply has_id_false_not_in | assumption].
Qed.

(** The two results that report success tell what happened to the
    table. *)
Lemma insert_message_created io utcnow t mid from to stamp body t' :
  insert_message io utcnow t mid from to stamp body = ((true, false), t') ->
  has_id mid t = false
  /\ t' = t ++ [mkRow mid from to stamp body (utcnow ++ "Z")%string].
Proof.
  unfold insert_message, connect, execute_insert, execute_guard, commit, rollback.
  destruct (connect_fails io); cbn; [discriminate|].
  destruct (execute_fails io 0); cbn; [discriminate|].
  destruct (has_id mid t); cbn.
  - destruct (rollback_fails io); cbn; discriminate.
  - destruct (commit_fails io); cbn; [discriminate|].
    intros H. inversion H. auto.
Qed.

Lemma after_timestamp_good fromisoformat c s :
  Models.after (Models.validate_timestamp fromisoformat) c = Models.Good s ->
  endswith_char s "Z" = true.
Proof.
  destruct c as [v | |]; cbn; try discriminate.
  destruct (validate_timestamp_cases fromisoformat v) as [Hok Hret].
  destruct (Models.validate_timestamp fromisoformat v) as [v' | e] eqn:E.
  - intros H. inversion H; subst.
    specialize (Hret eq_refl). inversion Hret; subst.
    cbn in Hok. symmetry in Hok. now apply andb_true_iff in Hok.
  - destruct e; discriminate.
Qed.

(** A request that passes validation has a timestamp ending with [Z]. *)
Lemma WebhookRequest_init_ts fromisoformat body_json w :
  Models.WebhookRequest_init fromisoformat body_json = Ok w ->
  endswith_char (Models.ts w) "Z" = true.
Proof.
  unfold Models.WebhookRequest_init.
  destruct body_json as [| | | | | |kw]; try discriminate.
  cbv zeta.
  destruct (Models.min_length 1 (Models.str_field (Models.lookup "message_id" kw)));
    destruct (Models.after Models.validate_phone_number
                (Models.str_field (Models.lookup_alias "from" "from_" kw)));
    destruct (Models.after Models.validate_phone_number
                (Models.str_field (Models.lookup "to" kw)));
    destruct (Models.after (Models.validate_timestamp fromisoformat)
                (Models.str_field (Models.lookup "ts" kw))) eqn:Ets;
    destruct (Models.optional_str_field 4096 (Models.lookup "text" kw));
    try discriminate.
  intros H. inversion H; subst. cbn.
  eapply after_timestamp_good. exact Ets.
Qed.

Section WebhookInvariant.
Variable decode : list byte -> result string.
Variable json_loads : string -> result Models.json.
Variable fromisoformat : string -> result Models.datetime.
Variable str_of : exn -> string.

Local Abbreviation webhook := (Main.webhook decode json_loads fromisoformat str_of).
Local Abbreviation parse_request := (Main.parse_request decode json_loads fromisoformat).

Lemma parse_request_ts body w :
  parse_request body = Ok w -> endswith_char (Models.ts w) "Z" = true.
Proof.
  unfold Main.parse_request.
  destruct (decode body) as [text|]; cbn; [|discriminate].
  destruct (json_loads text) as [j|]; cbn; [|discriminate].
  apply WebhookRequest_init_ts.
Qed.

(** Every request leaves [message_id] a key and the timestamps ending
    with [Z]. *)
Lemma webhook_preserves_table_ok secret io utcnow t body x_signature :
  table_ok t -> table_ok (Main.db (webhook secret io utcnow t body x_signature)).
Proof.
  intros Hok. unfold Main.webhook.
  destruct (Main.signature_rejected secret body x_signature) as [[|]|]; cbn;
    try exact Hok.
  destruct (Main.parse_request decode json_loads fromisoformat body)
    as [w | e] eqn:Ep.
  - pose proof (parse_request_ts body w Ep) as Hz.
    pose proof (insert_message_table io utcnow t (Models.message_id w)
                  (Models.from_ w) (Models.to w) (Models.ts w) (Models.text w))
      as Ht.
    pose proof (insert_message_keeps_key io utcnow t (Models.message_id w)
                  (Models.from_ w) (Models.to w) (Models.ts w) (Models.text w)
                  (proj1 Hok)) as Hk.
    destruct (insert_message io utcnow t (Models.message_id w) (Models.from_ w)
                (Models.to w) (Models.ts w) (Models.text w)) as [[success dup] t'].
    cbn in Ht, Hk.
    assert (Hok' : table_ok t').
    { split; [exact Hk|]. destruct Ht as [-> | [-> _]]; [apply Hok|].
      apply Forall_app. split; [apply Hok|]. now repeat constructor. }
    destruct success; cbn; exact Hok'.
  - destruct e; cbn; exact Hok.
Qed.

(** The idempotency of the specification, at the webhook: a request that
    was stored as created, sent again while the storage is up, is
    answered with success, recorded as a duplicate, and leaves the table
    as it is. *)
Lemma webhook_twice secret io1 io2 utcnow1 utcnow2 t body x_signature :
  Main.recorded (webhook secret io1 utcnow1 t body x_signature) = Some "created" ->
  storage_up io2 ->
  let t1 := Main.db (webhook secret io1 utcnow1 t body x_signature) in
  Main.response (webhook secret io2 utcnow2 t1 body x_signature)
  = Ok (Main.mkWebhookResponse "ok")
  /\ Main.recorded (webhook secret io2 utcnow2 t1 body x_signature)
     = Some "duplicate"
  /\ Main.db (webhook secret io2 utcnow2 t1 body x_signature) = t1.
Proof.
  intros Hrec Hup t1. subst t1. revert Hrec. unfold Main.webhook.
  destruct (Main.signature_rejected secret body x_signature) as [[|]|]; cbn;
    try discriminate.
  destruct (Main.parse_request decode json_loads fromisoformat body)
    as [w | e]; [|destruct e; discriminate].
  destruct (insert_message io1 utcnow1 t (Models.message_id w) (Models.from_ w)
              (Models.to w) (Models.ts w) (Models.text w))
    as [[success dup] t'] eqn:E1.
  destruct success; cbn; [|discriminate].
  destruct dup; cbn; [discriminate|]. intros _.
  apply insert_message_created in E1. destruct E1 as [_ ->].
  rewrite insert_message_duplicate; [cbn; auto | exact Hup |].
  rewrite has_id_app. unfold has_id at 2. cbn.
  rewrite String.eqb_refl. apply orb_true_r.
Qed.

End WebhookInvariant.

(** ** Instances *)

Lemma insert_message_idempotent_witness :
  storage_up healthy
  /\ has_id "m2" [row_m1] = false
  /\ fst (insert_message healthy "2025-01-15T10:00:01.000000" [row_m1] "m2"
            "+911234567890" "+14155550100" "2025-01-15T10:00:00Z" None)
     = (true, false).
Proof.
  split; [exact healthy_up|]. split; [reflexivity|].
  exact (proj1 (insert_message_idempotent healthy "2025-01-15T10:00:01.000000"
                  [row_m1] "m2" "+911234567890" "+14155550100"
                  "2025-01-15T10:00:00Z" None healthy_up eq_refl)).
Defined.

Lemma get_messages_lists_matching_rows_witness :
  storage_up healthy
  /\ 1 <= 2 <= 100
  /\ 0 <= 1 < 2 ^ 63
  /\ Some "+919876543210" <> Some ""
  /\ list_result stats_table 2 1 (Some "+919876543210")
       (Some "2025-01-15T08:30:00Z")
       (get_messages healthy stats_table 2 1 (Some "+919876543210")
          (Some "2025-01-15T08:30:00Z") None).
Proof.
  assert (Hl : 1 <= 2 <= 100) by lia.
  assert (Ho : 0 <= 1 < 2 ^ 63) by lia.
  assert (Hf : Some "+919876543210" <> Some "") by discriminate.
  repeat (split; [assumption || exact healthy_up|]).
  exact (get_messages_lists_matching_rows healthy stats_table 2 1 _ _
           healthy_up Hl Ho Hf).
Defined.

Lemma stats_table_ok : table_ok stats_table.
Proof.
  split.
  - repeat constructor; cbn; intuition discriminate.
  - repeat constructor.
Qed.



Lemma read_path_soft_fail_witness :
  connect_fails unreachable = true
  /\ get_messages unreachable stats_table 50 0 None None None = ([], 0)
  /\ get_stats stable_order_by_count_desc unreachable stats_table = zeroed_stats.
Proof.
  pose proof (read_path_soft_fail stable_order_by_count_desc unreachable
                stats_table 50 0 None None None) as (_ & Hm & _ & Hs).
  split; [reflexivity|]. split.
  - apply Hm. left. reflexivity.
  - apply Hs. left. reflexivity.
Defined.

Lemma validate_timestamp_accepts_witness :
  is_ok (Models.validate_timestamp Models.isoformat_documented
           "2025-01-15T10:00:00Z") = true
  /\ Models.validate_timestamp Models.isoformat_documented "2025-01-15T10:00:00Z"
     = Ok "2025-01-15T10:00:00Z".
Proof.
  assert (H : is_ok (Models.validate_timestamp Models.isoformat_documented
                       "2025-01-15T10:00:00Z") = true) by (vm_compute; reflexivity).
  split; [exact H|].
  exact (proj2 (validate_timestamp_accepts Models.isoformat_documented
                  "2025-01-15T10:00:00Z") H).
Defined.

(** ** Digests *)

Example sha256_abc :
  Hmac.hex (Sha256.digest (list_byte_of_string "abc"))
  = "ba7816bf8f01cfea414140de5dae2223b00361a396177a9cb410ff61f20015ad".
Proof. vm_compute. reflexivity. Qed.

Example hmac_long_key :
  Hmac.hexdigest (repeat "k"%byte 100) (list_byte_of_string "hello")
  = "3fd578d761a4f6703009e92d2e8a0aea22ab9ab50d4ad250dc95d8c369dec3f5".
Proof. vm_compute. reflexivity. Qed.

Example hmac_testsecret_hello :
  Hmac.hexdigest (PyStr.encode "testsecret") (list_byte_of_string "hello")
  = "a42c77dfc9f228485b5ba4238cb5d46c79c16537cd02834fe7c127ba0e0bb987".
Proof. vm_compute. reflexivity. Qed.

(** * Further properties *)

Import Facts.

(** ** Listing: what every call returns *)

Lemma select_where_selected conditions t sel :
  select_where conditions t = Ok sel -> sel = filter (selected conditions) t.
Proof.
  revert sel. induction t as [|r t IH]; cbn; intros sel H.
  - now inversion H.
  - unfold selected at 1.
    destruct (eval_where conditions r) as [b|]; cbn in H; [|discriminate].
    destruct (select_where conditions t) as [l|]; cbn in H; [|discriminate].
    inversion H. now rewrite (IH l eq_refl).
Qed.

(** A call that does not end in the [except] clause returns the window
    of the sorted selection and the size of the selection. *)
Lemma get_messages_try_ok io t limit offset from since q items total :
  get_messages_try io t limit offset from since q = Ok (items, total) ->
  let sel := filter (selected (conditions_of from since q)) t in
  total = Z.of_nat (List.length sel)
  /\ items = map message_of_row
               (limit_offset limit offset (order_by_ts_message_id sel)).
Proof.
  unfold get_messages_try. fold (conditions_of from since q).
  destruct (connect io); cbn [bind]; [|discriminate].
  destruct (execute_guard io 0); cbn [bind]; [|discriminate].
  destruct (select_where (conditions_of from since q) t) as [sel|] eqn:E;
    cbn [bind]; [|discriminate].
  destruct (bind_int limit); cbn [bind]; [|discriminate].
  destruct (bind_int offset); cbn [bind]; [|discriminate].
  destruct (execute_guard io 1); cbn [bind]; [|discriminate].
  intros H. inversion H. apply select_where_selected in E. subst sel.
  split; reflexivity.
Qed.

(** A call returns the empty answer of the [except] clause, or the
    answer of the query. *)
Lemma get_messages_cases io t limit offset from since q :
  let sel := filter (selected (conditions_of from since q)) t in
  get_messages io t limit offset from since q = ([], 0)
  \/ get_messages io t limit offset from since q
     = (map message_of_row
          (limit_offset limit offset (order_by_ts_message_id sel)),
        Z.of_nat (List.length sel)).
Proof.
  unfold get_messages.
  destruct (get_messages_try io t limit offset from since q) as [[items total]|] eqn:E.
  - right. apply get_messages_try_ok in E. destruct E as [-> ->]. reflexivity.
  - now left.
Qed.

Lemma firstn_In {A : Type} n (l : list A) x : In x (firstn n l) -> In x l.
Proof.
  intros H. rewrite <- (firstn_skipn n l). apply in_or_app. now left.
Qed.

Lemma skipn_In {A : Type} n (l : list A) x : In x (skipn n l) -> In x l.
Proof.
  intros H. rewrite <- (firstn_skipn n l). apply in_or_app. now right.
Qed.

Lemma strongly_sorted_app_r {A : Type} (R : A -> A -> Prop) (l1 l2 : list A) :
  StronglySorted R (l1 ++ l2) -> StronglySorted R l2.
Proof.
  induction l1 as [|x l1 IH]; cbn; intros H; [exact H|].
  inversion H; subst. now apply IH.
Qed.

Lemma limit_offset_cases {A : Type} (limit offset : Z) (l : list A) :
  limit_offset limit offset l
  = if limit <? 0 then skipn (Z.to_nat offset) l
    else firstn (Z.to_nat limit) (skipn (Z.to_nat offset) l).
Proof.
  unfold limit_offset. now rewrite take_firstn, drop_skipn.
Qed.

Lemma limit_offset_In {A : Type} (limit offset : Z) (l : list A) x :
  In x (limit_offset limit offset l) -> In x l.
Proof.
  rewrite limit_offset_cases. destruct (limit <? 0); intros H.
  - eapply skipn_In; exact H.
  - eapply skipn_In, firstn_In; exact H.
Qed.

Lemma limit_offset_length {A : Type} (limit offset : Z) (l : list A) :
  (List.length (limit_offset limit offset l) <= List.length l)%nat
  /\ (0 <= limit -> Z.of_nat (List.length (limit_offset limit offset l)) <= limit).
Proof.
  rewrite limit_offset_cases. destruct (limit <? 0) eqn:E.
  - split; [rewrite length_skipn; lia | apply Z.ltb_lt in E; lia].
  - pose proof (firstn_le_length (Z.to_nat limit) (skipn (Z.to_nat offset) l)).
    split; [rewrite length_firstn, length_skipn; lia | lia].
Qed.

Lemma limit_offset_sorted {A : Type} (R : A -> A -> Prop) (limit offset : Z)
    (l : list A) :
  StronglySorted R l -> StronglySorted R (limit_offset limit offset l).
Proof.
  intros H. rewrite limit_offset_cases.
  assert (Hs : StronglySorted R (skipn (Z.to_nat offset) l)).
  { rewrite <- (firstn_skipn (Z.to_nat offset) l) in H.
    eapply strongly_sorted_app_r; exact H. }
  destruct (limit <? 0); [exact Hs|].
  rewrite <- (firstn_skipn (Z.to_nat limit) (skipn (Z.to_nat offset) l)) in Hs.
  now apply strongly_sorted_app in Hs.
Qed.

Lemma filter_length {A : Type} (p : A -> bool) (l : list A) :
  (List.length (filter p l) <= List.length l)%nat.
Proof.
  induction l as [|x l IH]; cbn; [lia|]. destruct (p x); cbn; lia.
Qed.

(** A key of the table is a key of every selection of its rows. *)
Lemma key_of_selection (keep : row -> bool) (t : table) :
  NoDup (map message_id t) -> NoDup (map message_id (filter keep t)).
Proof.
  induction t as [|r t IH]; intros Hkey; [constructor|].
  apply NoDup_cons_iff in Hkey. destruct Hkey as [Hfresh Hkey].
  cbn [filter]. destruct (keep r); [|now apply IH].
  cbn [map]. apply NoDup_cons; [|now apply IH].
  intros Hin. apply Hfresh. apply in_map_iff in Hin.
  destruct Hin as (r' & Hid & Hr'). apply filter_In in Hr'.
  rewrite <- Hid. apply in_map. apply Hr'.
Qed.

Lemma get_messages_sizes io t limit offset from since q :
  Z.of_nat (List.length (fst (get_messages io t limit offset from since q)))
  <= snd (get_messages io t limit offset from since q)
  <= Z.of_nat (List.length t)
  /\ (0 <= limit ->
      Z.of_nat (List.length (fst (get_messages io t limit offset from since q)))
      <= limit).
Proof.
  destruct (get_messages_cases io t limit offset from since q) as [-> | ->];
    cbn [fst snd].
  - cbn. split; lia.
  - set (sel := filter (selected (conditions_of from since q)) t).
    destruct (limit_offset_length limit offset (order_by_ts_message_id sel))
      as [Hlen Hlim].
    assert (Hsort : List.length (order_by_ts_message_id sel) = List.length sel)
      by (apply Permutation_length, order_by_perm).
    pose proof (filter_length (selected (conditions_of from since q)) t) as Hsel.
    fold sel in Hsel. rewrite length_map.
    split; [lia | exact Hlim].
Qed.

(** X1. Whatever the arguments and the state of the storage, the items
    of a listing are rows of the table, there are no more of them than
    the total, the total is no more than the size of the table, and with
    a limit that is not negative there are no more items than the
    limit. *)
Theorem get_messages_within_table :
  forall io t limit offset from since q,
    incl (fst (get_messages io t limit offset from since q))
         (map message_of_row t)
    /\ Z.of_nat (List.length (fst (get_messages io t limit offset from since q)))
       <= snd (get_messages io t limit offset from since q)
       <= Z.of_nat (List.length t)
    /\ (0 <= limit ->
        Z.of_nat (List.length (fst (get_messages io t limit offset from since q)))
        <= limit).
Proof.
  intros io t limit offset from since q.
  split; [|apply get_messages_sizes].
  destruct (get_messages_cases io t limit offset from since q) as [-> | ->];
    cbn [fst].
  - intros x [].
  - intros m Hm. apply in_map_iff in Hm. destruct Hm as (r & <- & Hr).
    apply in_map. apply limit_offset_In in Hr.
    apply (Permutation_in _ (order_by_perm _)) in Hr.
    apply filter_In in Hr. apply Hr.
Qed.

Lemma selected_app cs1 cs2 r :
  selected (cs1 ++ cs2) r = true ->
  selected cs1 r = true /\ selected cs2 r = true.
Proof.
  unfold selected. induction cs1 as [|[c p] cs1 IH]; cbn [app eval_where].
  - auto.
  - destruct (eval_condition c p r) as [[|]|]; cbn [bind]; auto;
      intros H; discriminate.
Qed.

Lemma selected_condition c v param r :
  v <> "" ->
  selected (condition_if c (Some v) param) r = true ->
  eval_condition c (param v) r = Ok true.
Proof.
  intros Hv. unfold selected, condition_if.
  replace (truthy v) with true by (destruct v; [congruence | reflexivity]).
  cbn [eval_where].
  destruct (eval_condition c (param v) r) as [[|]|]; cbn [bind];
    intros H; try discriminate; reflexivity.
Qed.

(** A selected row satisfies each condition that was added. *)
Lemma selected_filters from since q r :
  selected (conditions_of from since q) r = true ->
  (forall f, from = Some f -> f <> "" -> from_msisdn r = f)
  /\ (forall s, since = Some s -> s <> "" -> String.leb s (ts r) = true)
  /\ (forall x, q = Some x -> x <> "" -> exists body, text r = Some body).
Proof.
  unfold conditions_of. intros H.
  apply selected_app in H. destruct H as [Hfrom H].
  apply selected_app in H. destruct H as [Hsince Hq].
  split; [|split].
  - intros f -> Hf. apply (selected_condition _ _ _ _ Hf) in Hfrom.
    cbn in Hfrom. inversion Hfrom as [E]. now apply String.eqb_eq.
  - intros v -> Hv. apply (selected_condition _ _ _ _ Hv) in Hsince.
    cbn [eval_condition] in Hsince. inversion Hsince as [E].
    rewrite E. now rewrite <- string_ge_leb.
  - intros x -> Hx. apply (selected_condition _ _ _ _ Hx) in Hq.
    cbn [eval_condition] in Hq. unfold sql_like in Hq.
    destruct (text r) as [body|]; [now exists body|]. cbn [option_map] in Hq.
    destruct (like_pattern_limit <? _) in Hq; discriminate.
Qed.

(** X2. Whatever the other arguments and the state of the storage,
    every item of a listing has the sender [from] when [from] is given
    and not empty, a timestamp that is at least [since] in the order of
    strings when [since] is given and not empty, and a text when [q] is
    given and not empty. *)
Theorem get_messages_items_pass_filters :
  forall io t limit offset from since q,
    Forall (fun m =>
              (forall f, from = Some f -> f <> "" -> d_from m = f)
              /\ (forall s, since = Some s -> s <> "" ->
                            String.leb s (d_ts m) = true)
              /\ (forall x, q = Some x -> x <> "" ->
                            exists body, d_text m = Some body))
           (fst (get_messages io t limit offset from since q)).
Proof.
  intros io t limit offset from since q. apply Forall_forall. intros m Hm.
  destruct (get_messages_cases io t limit offset from since q) as [E | E];
    rewrite E in Hm; cbn [fst] in Hm; [contradiction|].
  apply in_map_iff in Hm. destruct Hm as (r & <- & Hr).
  apply limit_offset_In in Hr.
  apply (Permutation_in _ (order_by_perm _)) in Hr.
  apply filter_In in Hr. destruct Hr as [_ Hsel].
  apply (selected_filters from since q r Hsel).
Qed.

(** ** Listing: pages *)

Lemma get_messages_up io t limit offset from since q :
  storage_up io ->
  - 2 ^ 63 <= limit < 2 ^ 63 -> - 2 ^ 63 <= offset < 2 ^ 63 ->
  get_messages io t limit offset from since q
  = match select_where (conditions_of from since q) t with
    | Ok sel =>
        (map message_of_row
           (limit_offset limit offset (order_by_ts_message_id sel)),
         Z.of_nat (List.length sel))
    | Raise _ => ([], 0)
    end.
Proof.
  intros (Hc & He & _ & _) Hl Ho.
  unfold get_messages, get_messages_try, connect, execute_guard.
  fold (conditions_of from since q). rewrite Hc, !He. cbn [bind].
  destruct (select_where (conditions_of from since q) t) as [sel|]; cbn [bind];
    [|reflexivity].
  now rewrite (bind_int_in_range limit Hl), (bind_int_in_range offset Ho).
Qed.

Lemma firstn_sum {A : Type} (l : list A) : forall n m,
  firstn (n + m) l = firstn n l ++ firstn m (skipn n l).
Proof.
  induction l as [|x l IH]; intros [|n] m; cbn; try reflexivity.
  - now rewrite firstn_nil.
  - now rewrite IH.
Qed.

Lemma window_tiles {A : Type} (a b o : Z) (l : list A) :
  0 <= a -> 0 <= b -> 0 <= o ->
  limit_offset a o l ++ limit_offset b (o + a) l = limit_offset (a + b) o l.
Proof.
  intros Ha Hb Ho. rewrite !limit_offset_window by lia. unfold window.
  replace (Z.to_nat (a + b)) with (Z.to_nat a + Z.to_nat b)%nat by lia.
  replace (Z.to_nat (o + a)) with (Z.to_nat a + Z.to_nat o)%nat by lia.
  now rewrite firstn_sum, skipn_skipn.
Qed.

(** X3. Consecutive pages tile the listing: with the storage up, the
    page of [a] items at offset [o] followed by the page of [b] items at
    offset [o + a] is the page of [a + b] items at offset [o], for the
    same filters, and the three calls report the same total. *)
Theorem get_messages_pages_tile :
  forall io t a b o from since q,
    storage_up io ->
    0 <= a -> 0 <= b -> 0 <= o -> o + a + b < 2 ^ 63 ->
    fst (get_messages io t a o from since q)
    ++ fst (get_messages io t b (o + a) from since q)
    = fst (get_messages io t (a + b) o from since q)
    /\ snd (get_messages io t a o from since q)
       = snd (get_messages io t (a + b) o from since q)
    /\ snd (get_messages io t b (o + a) from since q)
       = snd (get_messages io t (a + b) o from since q).
Proof.
  intros io t a b o from since q Hup Ha Hb Ho Hmax.
  rewrite !get_messages_up by (try assumption; lia).
  destruct (select_where (conditions_of from since q) t) as [sel|]; cbn [fst snd].
  - rewrite <- map_app, window_tiles by assumption. auto.
  - auto.
Qed.

Lemma filter_all {A : Type} (p : A -> bool) (l : list A) :
  (forall x, p x = true) -> filter p l = l.
Proof.
  intros H. induction l as [|x l IH]; cbn; [reflexivity|].
  now rewrite H, IH.
Qed.

(** X4. Everything stored is listed: with the storage up and a limit
    that covers the table, the listing without filters holds every row
    of the table exactly once, in the order of (timestamp, message_id),
    and its total is the number of rows. *)
Theorem get_messages_lists_every_row :
  forall io t limit,
    storage_up io ->
    Z.of_nat (List.length t) <= limit < 2 ^ 63 ->
    Permutation (fst (get_messages io t limit 0 None None None))
                (map message_of_row t)
    /\ (exists sorted, fst (get_messages io t limit 0 None None None)
                       = map message_of_row sorted
                       /\ StronglySorted row_le sorted)
    /\ snd (get_messages io t limit 0 None None None)
       = Z.of_nat (List.length t).
Proof.
  intros io t limit Hup Hl.
  rewrite get_messages_no_query by (try assumption; lia).
  cbn [given fst snd].
  rewrite (filter_all (matches None None) t) by reflexivity.
  unfold window. rewrite skipn_O.
  rewrite firstn_all2
    by (rewrite (Permutation_length (order_by_perm t)); lia).
  split; [apply Permutation_map, order_by_perm|].
  split; [|reflexivity].
  exists (order_by_ts_message_id t). split; [reflexivity | apply order_by_sorted].
Qed.

(** With [message_id] a key, rows in order are in strict order. *)
Lemma sorted_strictly (l : list row) :
  NoDup (map message_id l) -> StronglySorted row_le l ->
  StronglySorted (fun r1 r2 => message_lt (message_of_row r1) (message_of_row r2)) l.
Proof.
  induction l as [|x l IH]; intros Hnd Hs; [constructor|].
  inversion Hnd as [|? ? Hx Hl]; subst. inversion Hs as [|? ? Hs' Hall]; subst.
  constructor; [now apply IH|].
  rewrite Forall_forall in *. intros y Hy. specialize (Hall y Hy).
  unfold message_lt. cbn.
  destruct Hall as [Hlt | [Ets Hle]]; [now left|]. right. split; [exact Ets|].
  apply string_leb_cases in Hle. destruct Hle as [Hlt | E]; [exact Hlt|].
  exfalso. apply Hx. rewrite E. now apply in_map.
Qed.

Lemma strongly_sorted_map {A B : Type} (R : B -> B -> Prop) (f : A -> B) l :
  StronglySorted (fun x y => R (f x) (f y)) l -> StronglySorted R (map f l).
Proof.
  induction 1 as [|x l Hs IH Hall]; cbn; constructor; [exact IH|].
  apply Forall_map. exact Hall.
Qed.

(** X5. With [message_id] a key of the table, the items of every
    listing are in strict order of (timestamp, message_id): no message
    is listed twice, and no two items tie. *)
Theorem get_messages_strictly_sorted :
  forall io t limit offset from since q,
    NoDup (map message_id t) ->
    StronglySorted message_lt (fst (get_messages io t limit offset from since q)).
Proof.
  intros io t limit offset from since q Hkey.
  destruct (get_messages_cases io t limit offset from since q) as [-> | ->];
    cbn [fst]; [constructor|].
  apply strongly_sorted_map, limit_offset_sorted, sorted_strictly.
  - eapply Permutation_NoDup;
      [apply Permutation_map; symmetry; apply order_by_perm|].
    now apply key_of_selection.
  - apply order_by_sorted.
Qed.

(** ** Statistics: the figures agree with each other *)

Lemma get_stats_cases order_by io t :
  get_stats order_by io t = zeroed_stats
  \/ get_stats order_by io t
     = mkStats (Z.of_nat (List.length t))
               (Z.of_nat (List.length (nodup string_dec (map from_msisdn t))))
               (firstn 10 (order_by (group_by_from t)))
               (value_if_truthy (min_ts t)) (value_if_truthy (max_ts t)).
Proof.
  unfold get_stats, get_stats_try.
  destruct (connect io); cbn [bind]; [|now left].
  repeat (match goal with
          | |- context [execute_guard io ?n] =>
              destruct (execute_guard io n); cbn [bind]; [|now left]
          end).
  now right.
Qed.

Lemma count_from_cons s r t :
  count_from s (r :: t)
  = (if (from_msisdn r =? s)%string then 1 else 0) + count_from s t.
Proof.
  unfold count_from. cbn [filter].
  destruct (from_msisdn r =? s)%string; cbn [List.length]; lia.
Qed.

Lemma sum_indicator (x : string) (l : list string) :
  NoDup l ->
  fold_right Z.add 0 (map (fun s => if (x =? s)%string then 1 else 0) l)
  = if in_dec string_dec x l then 1 else 0.
Proof.
  induction 1 as [|y l Hy Hl IH]; cbn [map fold_right]; [reflexivity|].
  rewrite IH. destruct (String.eqb_spec x y) as [-> | Hne].
  - destruct (in_dec string_dec y l) as [Hin | _]; [contradiction|].
    destruct (in_dec string_dec y (y :: l)) as [_ | Hout]; [lia|].
    exfalso. apply Hout. now left.
  - destruct (in_dec string_dec x l) as [Hin | Hout];
      destruct (in_dec string_dec x (y :: l)) as [Hin' | Hout']; try lia.
    + exfalso. apply Hout'. now right.
    + destruct Hin' as [E | Hin']; [congruence | contradiction].
Qed.

Lemma sum_add_map {A : Type} (f g : A -> Z) (l : list A) :
  fold_right Z.add 0 (map (fun x => f x + g x) l)
  = fold_right Z.add 0 (map f l) + fold_right Z.add 0 (map g l).
Proof.
  induction l as [|x l IH]; cbn; [reflexivity|]. rewrite IH. lia.
Qed.

(** The counts of a list of distinct senders that holds every sender of
    the table add up to the number of rows. *)
Lemma sum_counts_senders (l : list string) : forall t,
  NoDup l -> (forall r, In r t -> In (from_msisdn r) l) ->
  fold_right Z.add 0 (map (fun s => count_from s t) l) = Z.of_nat (List.length t).
Proof.
  induction t as [|r t IH]; intros Hnd Hall.
  - cbn. induction l as [|s l IHl]; cbn; [reflexivity|].
    inversion Hnd; subst. now rewrite IHl.
  - rewrite (map_ext _ (fun s => (if (from_msisdn r =? s)%string then 1 else 0)
                                 + count_from s t))
      by (intros s; apply count_from_cons).
    rewrite sum_add_map, (sum_indicator _ _ Hnd), IH;
      [|exact Hnd | intros r' Hr'; apply Hall; now right].
    destruct (in_dec string_dec (from_msisdn r) l) as [_ | Hout].
    + cbn [List.length]. lia.
    + exfalso. apply Hout, Hall. now left.
Qed.

Lemma sum_counts_groups t : sum_counts (group_by_from t) = Z.of_nat (List.length t).
Proof.
  unfold sum_counts, group_by_from. rewrite map_map. cbn [snd].
  apply sum_counts_senders; [apply NoDup_nodup|].
  intros r Hr. apply nodup_In. now apply in_map.
Qed.

Lemma sum_counts_perm l1 l2 : Permutation l1 l2 -> sum_counts l1 = sum_counts l2.
Proof.
  unfold sum_counts. induction 1; cbn; lia.
Qed.

Lemma sum_counts_app l1 l2 : sum_counts (l1 ++ l2) = sum_counts l1 + sum_counts l2.
Proof.
  unfold sum_counts. induction l1 as [|x l1 IH]; cbn; [reflexivity|].
  cbn in IH. lia.
Qed.

Lemma sum_counts_nonneg l : Forall (fun x => 1 <= snd x) l -> 0 <= sum_counts l.
Proof.
  unfold sum_counts. induction 1; cbn; lia.
Qed.

Lemma count_from_sender t x : is_sender t x -> 1 <= count_from x t.
Proof.
  intros (r & Hr & E). unfold count_from.
  assert (Hin : In r (filter (fun r => (from_msisdn r =? x)%string) t)).
  { apply filter_In. split; [exact Hr | now apply String.eqb_eq]. }
  destruct (filter _ t); [contradiction | cbn; lia].
Qed.

Lemma min_ts_below_max t lo hi :
  min_ts t = Some lo -> max_ts t = Some hi -> String.leb lo hi = true.
Proof.
  intros Hlo Hhi.
  pose proof (min_ts_spec t) as Hmin. pose proof (max_ts_spec t) as Hmax.
  rewrite Hlo in Hmin. rewrite Hhi in Hmax.
  destruct Hmax as [Hin _]. apply in_map_iff in Hin.
  destruct Hin as (r & <- & Hr). now apply Hmin.
Qed.

Lemma value_if_truthy_some x v : value_if_truthy x = Some v -> x = Some v.
Proof.
  unfold value_if_truthy. destruct (truthy_opt x); [auto | discriminate].
Qed.

(** X6. The statistics agree with each other, whatever the storage
    does: there are no more senders than messages, the list of senders
    has ten entries or one per sender if there are fewer, every listed
    count is at least one, the listed counts add up to no more than the
    number of messages and to exactly that number when there are at most
    ten senders, and the first timestamp is not after the last. *)
Theorem get_stats_figures_agree :
  forall order_by io t,
    sorts_by_count_desc order_by ->
    let s := get_stats order_by io t in
    0 <= senders_count s <= total_messages s
    /\ Z.of_nat (List.length (messages_per_sender s)) = Z.min 10 (senders_count s)
    /\ Forall (fun x => 1 <= snd x) (messages_per_sender s)
    /\ sum_counts (messages_per_sender s) <= total_messages s
    /\ (senders_count s <= 10 ->
        sum_counts (messages_per_sender s) = total_messages s)
    /\ (forall lo hi, first_message_ts s = Some lo ->
                      last_message_ts s = Some hi -> String.leb lo hi = true).
Proof.
  intros order_by io t Hsort s. subst s.
  destruct (get_stats_cases order_by io t) as [-> | ->].
  { cbn. repeat split; try lia; try constructor; discriminate. }
  cbn [total_messages senders_count messages_per_sender first_message_ts
       last_message_ts].
  destruct (Hsort (group_by_from t)) as [Hperm _].
  set (L := order_by (group_by_from t)) in *.
  assert (Hlen : List.length L = List.length (nodup string_dec (map from_msisdn t))).
  { rewrite (Permutation_length Hperm). unfold group_by_from. apply length_map. }
  assert (Hones : Forall (fun x => 1 <= snd x) L).
  { apply Forall_forall. intros [x c] Hx.
    apply (Permutation_in _ Hperm) in Hx. apply group_by_from_In in Hx.
    destruct Hx as [Hs ->]. cbn. now apply count_from_sender. }
  assert (Hsum : sum_counts L = Z.of_nat (List.length t))
    by (rewrite (sum_counts_perm _ _ Hperm); apply sum_counts_groups).
  assert (Hsplit : firstn 10 L ++ skipn 10 L = L) by apply firstn_skipn.
  assert (Hones' : Forall (fun x => 1 <= snd x) (firstn 10 L)
                   /\ Forall (fun x => 1 <= snd x) (skipn 10 L)).
  { rewrite <- Hsplit in Hones. now apply Forall_app in Hones. }
  split.
  { split; [lia|]. apply inj_le. rewrite <- (length_map from_msisdn t).
    apply NoDup_incl_length; [apply NoDup_nodup|].
    intros x Hx. now apply nodup_In in Hx. }
  split; [rewrite length_firstn, Hlen; lia|].
  split; [apply Hones'|].
  split.
  { pose proof (sum_counts_app (firstn 10 L) (skipn 10 L)) as Happ.
    rewrite Hsplit in Happ.
    pose proof (sum_counts_nonneg _ (proj2 Hones')). lia. }
  split.
  { intros Hfew. rewrite firstn_all2 by lia. exact Hsum. }
  intros lo hi Hlo Hhi.
  apply value_if_truthy_some in Hlo, Hhi. eapply min_ts_below_max; eassumption.
Qed.

Lemma get_stats_figures_agree_witness :
  sorts_by_count_desc stable_order_by_count_desc
  /\ sum_counts (messages_per_sender
                   (get_stats stable_order_by_count_desc healthy stats_table))
     <= total_messages (get_stats stable_order_by_count_desc healthy stats_table).
Proof.
  split; [exact stable_order_sorts|].
  exact (proj1 (proj2 (proj2 (proj2
           (get_stats_figures_agree stable_order_by_count_desc healthy
              stats_table stable_order_sorts))))).
Defined.

(** ** The webhook: what reaches the table *)

Lemma insert_message_result io utcnow t mid from to stamp body res t' :
  insert_message io utcnow t mid from to stamp body = (res, t') ->
  (res = (true, false)
   /\ has_id mid t = false
   /\ t' = t ++ [mkRow mid from to stamp body (utcnow ++ "Z")%string])
  \/ (res <> (true, false) /\ t' = t).
Proof.
  unfold insert_message, connect, execute_insert, execute_guard, commit, rollback.
  destruct (connect_fails io); cbn;
    [intros H; inversion H; right; split; [discriminate | reflexivity]|].
  destruct (execute_fails io 0); cbn;
    [intros H; inversion H; right; split; [discriminate | reflexivity]|].
  destruct (has_id mid t); cbn.
  - destruct (rollback_fails io); cbn; intros H; inversion H; right;
      split; try discriminate; reflexivity.
  - destruct (commit_fails io); cbn; intros H; inversion H;
      [right; split; [discriminate | reflexivity] | left; auto].
Qed.

Lemma digest_length msg : List.length (Sha256.digest msg) = 32%nat.
Proof. reflexivity. Qed.

Lemma hex_length bs : String.length (Hmac.hex bs) = (2 * List.length bs)%nat.
Proof.
  induction bs as [|b bs IH]; cbn [Hmac.hex String.length List.length];
    [reflexivity|]. rewrite IH. lia.
Qed.

Lemma hexdigest_length key msg : String.length (Hmac.hexdigest key msg) = 64%nat.
Proof.
  unfold Hmac.hexdigest, Hmac.hmac_sha256. now rewrite hex_length, digest_length.
Qed.

(** The digest under a set, non-empty secret verifies. *)
Lemma verify_signature_of_digest secret body :
  secret <> "" ->
  verify_signature (Some secret) body (Hmac.hexdigest (encode secret) body)
  = Ok true.
Proof.
  intros Hs.
  rewrite verify_signature_ascii by apply hex_isascii.
  replace (truthy secret) with true by (destruct secret; [congruence | reflexivity]).
  now rewrite String.eqb_refl.
Qed.

(** What the signature check lets through. *)
Lemma signature_rejected_false secret body x_signature :
  signature_rejected secret body x_signature = Ok false ->
  exists s, secret = Some s /\ s <> ""
            /\ x_signature = Some (Hmac.hexdigest (encode s) body).
Proof.
  unfold signature_rejected.
  destruct x_signature as [sig|]; [|discriminate].
  destruct (truthy sig); cbn [negb]; [|discriminate].
  unfold verify_signature. destruct secret as [s|]; [|discriminate].
  destruct (truthy s) eqn:Hs; cbn [negb]; [|discriminate].
  unfold Hmac.compare_digest.
  destruct (isascii (Hmac.hexdigest (encode s) body) && isascii sig);
    cbn [bind]; [|discriminate].
  destruct (Hmac.hexdigest (encode s) body =? sig)%string eqn:E;
    cbn [negb]; [|discriminate].
  intros _. apply String.eqb_eq in E. exists s.
  split; [reflexivity|]. split; [|now rewrite E].
  intros ->. discriminate.
Qed.

Lemma signature_accepted secret body :
  secret <> "" ->
  signature_rejected (Some secret) body
    (Some (Hmac.hexdigest (encode secret) body)) = Ok false.
Proof.
  intros Hs. unfold signature_rejected.
  assert (Ht : truthy (Hmac.hexdigest (encode secret) body) = true).
  { pose proof (hexdigest_length (encode secret) body) as Hlen.
    destruct (Hmac.hexdigest (encode secret) body); [discriminate | reflexivity]. }
  rewrite Ht. cbn [negb]. now rewrite verify_signature_of_digest.
Qed.

Section WebhookFacts.
Variable decode : list byte -> result string.
Variable json_loads : string -> result Models.json.
Variable fromisoformat : string -> result Models.datetime.
Variable str_of : exn -> string.

Local Abbreviation webhook := (Main.webhook decode json_loads fromisoformat str_of).
Local Abbreviation parse_request := (Main.parse_request decode json_loads fromisoformat).

(** A call leaves the table alone, or it has checked the signature,
    parsed and validated the payload, and stored its row as created. *)
Lemma webhook_outcome secret io utcnow t body x_signature :
  (Main.db (webhook secret io utcnow t body x_signature) = t
   /\ Main.recorded (webhook secret io utcnow t body x_signature)
      <> Some "created")
  \/ (exists w,
        signature_rejected secret body x_signature = Ok false
        /\ parse_request body = Ok w
        /\ has_id (Models.message_id w) t = false
        /\ Main.db (webhook secret io utcnow t body x_signature)
           = t ++ [mkRow (Models.message_id w) (Models.from_ w) (Models.to w)
                         (Models.ts w) (Models.text w) (utcnow ++ "Z")%string]
        /\ Main.recorded (webhook secret io utcnow t body x_signature)
           = Some "created"
        /\ Main.response (webhook secret io utcnow t body x_signature)
           = Ok (mkWebhookResponse "ok")).
Proof.
  unfold Main.webhook.
  destruct (signature_rejected secret body x_signature) as [[|]|]; cbn;
    try (left; split; [reflexivity | discriminate]).
  destruct (Main.parse_request decode json_loads fromisoformat body) as [w|e];
    [|destruct e; cbn; left; split; try reflexivity; discriminate].
  destruct (insert_message io utcnow t (Models.message_id w) (Models.from_ w)
              (Models.to w) (Models.ts w) (Models.text w))
    as [[success dup] t'] eqn:E.
  apply insert_message_result in E.
  destruct E as [(E & Hfresh & ->) | (Hne & ->)].
  - inversion E; subst. cbn. right. exists w. repeat split; auto.
  - left. destruct success; cbn; [|split; [reflexivity | discriminate]].
    destruct dup; cbn; [split; [reflexivity | discriminate]|].
    now contradiction Hne.
Qed.

End WebhookFacts.

Section WebhookTheorems.
Variable decode : list byte -> result string.
Variable json_loads : string -> result Models.json.
Variable fromisoformat : string -> result Models.datetime.
Variable str_of : exn -> string.

Local Abbreviation webhook := (Main.webhook decode json_loads fromisoformat str_of).
Local Abbreviation parse_request := (Main.parse_request decode json_loads fromisoformat).
Local Abbreviation serve_all := (Api.serve_all decode json_loads fromisoformat str_of).
Local Abbreviation serve := (Api.serve decode json_loads fromisoformat str_of).

(** X7. The webhook stores only what is signed: a call that changes the
    table was made with a secret that is set and not empty and with the
    hexadecimal HMAC-SHA256 digest of the body under that secret as its
    signature. *)
Theorem webhook_stores_only_signed :
  forall secret io utcnow t body x_signature,
    Main.db (webhook secret io utcnow t body x_signature) <> t ->
    exists s, secret = Some s /\ s <> ""
              /\ x_signature = Some (Hmac.hexdigest (encode s) body).
Proof.
  intros secret io utcnow t body x_signature Hchanged.
  destruct (webhook_outcome decode json_loads fromisoformat str_of
              secret io utcnow t body x_signature)
    as [[Hsame _] | (w & Hsig & _)].
  - contradiction.
  - now apply signature_rejected_false.
Qed.

(** X8. The webhook only appends: a call leaves the table as it was and
    does not record [created], or it appends one row, whose fields are
    those of the validated payload and whose [created_at] is the clock
    with [Z], for a [message_id] the table did not have; it then answers
    with success and records [created]. *)
Theorem webhook_appends_validated_row :
  forall secret io utcnow t body x_signature,
    (Main.db (webhook secret io utcnow t body x_signature) = t
     /\ Main.recorded (webhook secret io utcnow t body x_signature)
        <> Some "created")
    \/ (exists w,
          parse_request body = Ok w
          /\ has_id (Models.message_id w) t = false
          /\ Main.db (webhook secret io utcnow t body x_signature)
             = t ++ [mkRow (Models.message_id w) (Models.from_ w)
                           (Models.to w) (Models.ts w) (Models.text w)
                           (utcnow ++ "Z")%string]
          /\ Main.recorded (webhook secret io utcnow t body x_signature)
             = Some "created"
          /\ Main.response (webhook secret io utcnow t body x_signature)
             = Ok (mkWebhookResponse "ok")).
Proof.
  intros secret io utcnow t body x_signature.
  destruct (webhook_outcome decode json_loads fromisoformat str_of
              secret io utcnow t body x_signature)
    as [H | (w & _ & H)]; [now left | right; now exists w].
Qed.

(** X9. Without a secret every request is rejected: when [is_ready] is
    false, the webhook answers 401 to every body and every signature,
    records [invalid_signature] and leaves the table as it was. *)
Theorem webhook_without_secret_rejects :
  forall secret io utcnow t body x_signature,
    Config.is_ready secret = false ->
    Main.response (webhook secret io utcnow t body x_signature)
    = Raise (HTTPException 401 "invalid signature")
    /\ Main.recorded (webhook secret io utcnow t body x_signature)
       = Some "invalid_signature"
    /\ Main.db (webhook secret io utcnow t body x_signature) = t.
Proof.
  intros secret io utcnow t body x_signature Hready.
  assert (Hrej : signature_rejected secret body x_signature = Ok true).
  { unfold signature_rejected. destruct x_signature as [sig|]; [|reflexivity].
    destruct (truthy sig); cbn [negb]; [|reflexivity].
    unfold verify_signature. destruct secret as [s|]; [|reflexivity].
    destruct s as [|a s]; [reflexivity|].
    unfold Config.is_ready, len in Hready. apply Z.ltb_ge in Hready.
    cbn [String.length] in Hready. lia. }
  unfold Main.webhook. rewrite Hrej. cbn. auto.
Qed.

(** X10. A signed body that is valid JSON but not an object is not
    answered as a validation error: the constructor call of the request
    raises [TypeError] with the interpreter's message, which names the
    callable and the type of the value, and no [except] clause of the
    handler catches it; no result is recorded and the table is as it
    was. *)
Theorem webhook_non_object_payload :
  forall secret io utcnow t body text j,
    secret <> "" ->
    decode body = Ok text ->
    json_loads text = Ok j ->
    is_object j = false ->
    Main.response (webhook (Some secret) io utcnow t body
                     (Some (Hmac.hexdigest (encode secret) body)))
    = Raise (TypeError
               ("app.models.WebhookRequest() argument after ** must be a mapping, not "
                ++ Models.type_name j)%string)
    /\ Main.recorded (webhook (Some secret) io utcnow t body
                        (Some (Hmac.hexdigest (encode secret) body))) = None
    /\ Main.db (webhook (Some secret) io utcnow t body
                  (Some (Hmac.hexdigest (encode secret) body))) = t.
Proof.
  intros secret io utcnow t body text j Hs Hd Hj Hobj.
  unfold Main.webhook. rewrite (signature_accepted secret body Hs).
  unfold Main.parse_request. rewrite Hd. cbn [bind]. rewrite Hj. cbn [bind].
  destruct j; try discriminate Hobj; cbn; auto.
Qed.

(** Requests never remove an id from the table. *)
Lemma serve_keeps_id secret mid r state :
  has_id mid (fst state) = true -> has_id mid (fst (serve secret state r)) = true.
Proof.
  intros H. unfold Api.serve. cbn [fst].
  destruct (webhook_outcome decode json_loads fromisoformat str_of secret
              (Api.req_io r) (Api.req_utcnow r) (fst state) (Api.req_body r)
              (Api.req_signature r)) as [[-> _] | (w & _ & _ & _ & -> & _)].
  - exact H.
  - rewrite has_id_app, H. reflexivity.
Qed.

Lemma serve_all_keeps_id secret mid rs : forall state,
  has_id mid (fst state) = true ->
  has_id mid (fst (serve_all secret rs state)) = true.
Proof.
  induction rs as [|r rs IH]; intros state H; [exact H|].
  change (serve_all secret (r :: rs) state)
    with (serve_all secret rs (serve secret state r)).
  apply IH. now apply serve_keeps_id.
Qed.

(** X11. Idempotency of the webhook over time: a request that was
    stored as created, sent again after any other requests while the
    storage is up, is answered with success, recorded as a duplicate,
    and leaves the table as it is. *)
Theorem webhook_repeat_is_duplicate :
  forall secret io1 utcnow1 t body x_signature rs c io2 utcnow2,
    Main.recorded (webhook secret io1 utcnow1 t body x_signature)
    = Some "created" ->
    storage_up io2 ->
    let t1 := Main.db (webhook secret io1 utcnow1 t body x_signature) in
    let t2 := fst (serve_all secret rs (t1, c)) in
    Main.response (webhook secret io2 utcnow2 t2 body x_signature)
    = Ok (mkWebhookResponse "ok")
    /\ Main.recorded (webhook secret io2 utcnow2 t2 body x_signature)
       = Some "duplicate"
    /\ Main.db (webhook secret io2 utcnow2 t2 body x_signature) = t2.
Proof.
  intros secret io1 utcnow1 t body x_signature rs c io2 utcnow2 Hrec Hup t1 t2.
  destruct (webhook_outcome decode json_loads fromisoformat str_of
              secret io1 utcnow1 t body x_signature)
    as [[_ Hne] | (w & Hsig & Hparse & _ & Hdb & _)]; [contradiction|].
  assert (Hid : has_id (Models.message_id w) t2 = true).
  { unfold t2. apply serve_all_keeps_id. cbn [fst]. unfold t1.
    rewrite Hdb, has_id_app. unfold has_id at 2. cbn.
    rewrite String.eqb_refl. apply orb_true_r. }
  unfold Main.webhook. rewrite Hsig, Hparse.
  rewrite insert_message_duplicate by assumption. cbn. auto.
Qed.

End WebhookTheorems.

Lemma webhook_stores_only_signed_witness :
  Main.db (Main.webhook sample_decode sample_loads Models.isoformat_documented
             sample_str_of (Some "testsecret") healthy
             "2025-01-15T10:00:01.000000" [] sample_body (Some sample_signature))
  <> []
  /\ exists s, Some "testsecret" = Some s /\ s <> ""
               /\ Some sample_signature
                  = Some (Hmac.hexdigest (encode s) sample_body).
Proof.
  assert (H : Main.db (Main.webhook sample_decode sample_loads
                         Models.isoformat_documented sample_str_of
                         (Some "testsecret") healthy
                         "2025-01-15T10:00:01.000000" [] sample_body
                         (Some sample_signature)) <> [])
    by (vm_compute; discriminate).
  split; [exact H|].
  exact (webhook_stores_only_signed sample_decode sample_loads
           Models.isoformat_documented sample_str_of (Some "testsecret") healthy
           "2025-01-15T10:00:01.000000" [] sample_body (Some sample_signature) H).
Defined.

Lemma webhook_without_secret_rejects_witness :
  Config.is_ready None = false
  /\ Main.db (Main.webhook sample_decode sample_loads Models.isoformat_documented
                sample_str_of None healthy "2025-01-15T10:00:01.000000" []
                sample_body (Some sample_signature)) = [].
Proof.
  split; [reflexivity|].
  exact (proj2 (proj2 (webhook_without_secret_rejects sample_decode sample_loads
                         Models.isoformat_documented sample_str_of None healthy
                         "2025-01-15T10:00:01.000000" [] sample_body
                         (Some sample_signature) eq_refl))).
Defined.

Lemma webhook_non_object_payload_witness :
  "testsecret" <> ""
  /\ sample_decode (list_byte_of_string "[]") = Ok "[]"
  /\ is_object (Models.JList []) = false
  /\ Main.response
       (Main.webhook sample_decode (fun _ => Ok (Models.JList []))
          Models.isoformat_documented sample_str_of (Some "testsecret") healthy
          "2025-01-15T10:00:01.000000" [] (list_byte_of_string "[]")
          (Some (Hmac.hexdigest (encode "testsecret")
                   (list_byte_of_string "[]"))))
     = Raise (TypeError
                "app.models.WebhookRequest() argument after ** must be a mapping, not list").
Proof.
  assert (Hs : "testsecret" <> "") by discriminate.
  assert (Hd : sample_decode (list_byte_of_string "[]") = Ok "[]")
    by reflexivity.
  split; [exact Hs|]. split; [exact Hd|]. split; [reflexivity|].
  exact (proj1 (webhook_non_object_payload sample_decode
                  (fun _ => Ok (Models.JList []))
                  Models.isoformat_documented sample_str_of "testsecret"
                  healthy "2025-01-15T10:00:01.000000" []
                  (list_byte_of_string "[]") "[]" (Models.JList [])
                  Hs Hd eq_refl eq_refl)).
Defined.

Lemma webhook_repeat_is_duplicate_witness :
  Main.recorded (Main.webhook sample_decode sample_loads
                   Models.isoformat_documented sample_str_of
                   (Some "testsecret") healthy "2025-01-15T10:00:01.000000" []
                   sample_body (Some sample_signature)) = Some "created"
  /\ storage_up healthy
  /\ Main.recorded
       (Main.webhook sample_decode sample_loads Models.isoformat_documented
          sample_str_of (Some "testsecret") healthy "2025-01-15T10:05:00.000000"
          (fst (Api.serve_all sample_decode sample_loads
                  Models.isoformat_documented sample_str_of (Some "testsecret") []
                  (Main.db (Main.webhook sample_decode sample_loads
                              Models.isoformat_documented sample_str_of
                              (Some "testsecret") healthy
                              "2025-01-15T10:00:01.000000" [] sample_body
                              (Some sample_signature)),
                   Metrics.no_requests)))
          sample_body (Some sample_signature)) = Some "duplicate".
Proof.
  assert (H : Main.recorded (Main.webhook sample_decode sample_loads
                Models.isoformat_documented sample_str_of
                (Some "testsecret") healthy "2025-01-15T10:00:01.000000" []
                sample_body (Some sample_signature)) = Some "created")
    by (vm_compute; reflexivity).
  split; [exact H|]. split; [exact healthy_up|].
  exact (proj1 (proj2 (webhook_repeat_is_duplicate sample_decode sample_loads
                         Models.isoformat_documented sample_str_of
                         (Some "testsecret") healthy
                         "2025-01-15T10:00:01.000000" [] sample_body
                         (Some sample_signature) [] Metrics.no_requests healthy
                         "2025-01-15T10:05:00.000000" H healthy_up))).
Defined.

(** ** The payload *)

Lemma str_field_good x s :
  Models.str_field x = Models.Good s <-> x = Some (Models.JStr s).
Proof.
  destruct x as [[]|]; cbn; split; intros H; inversion H; reflexivity.
Qed.

Lemma min_length_good x m :
  Models.min_length 1 (Models.str_field x) = Models.Good m
  <-> x = Some (Models.JStr m) /\ m <> "".
Proof.
  split.
  - destruct (Models.str_field x) as [s| |] eqn:E; cbn; try discriminate.
    apply str_field_good in E. unfold len.
    destruct s as [|a s]; cbn; [discriminate|].
    destruct (Z.pos (Pos.of_succ_nat (String.length s)) <? 1) eqn:El;
      [apply Z.ltb_lt in El; lia|].
    intros H. inversion H. split; [exact E | discriminate].
  - intros [-> Hm]. cbn. unfold len.
    destruct m as [|a m]; [congruence|]. cbn [String.length].
    destruct (Z.of_nat (S (String.length m)) <? 1) eqn:El;
      [apply Z.ltb_lt in El; lia | reflexivity].
Qed.

Lemma validate_phone_number_ok v s :
  Models.validate_phone_number v = Ok s -> s = v.
Proof.
  unfold Models.validate_phone_number.
  destruct (negb (startswith v "+") || negb (isdigit (tail v)));
    intros H; inversion H; reflexivity.
Qed.

Lemma validate_timestamp_ok fromisoformat v s :
  Models.validate_timestamp fromisoformat v = Ok s -> s = v.
Proof.
  intros H. destruct (validate_timestamp_cases fromisoformat v) as [_ Hret].
  rewrite H in Hret. specialize (Hret eq_refl). congruence.
Qed.

(** A validator that returns its argument accepts a field exactly when
    the key holds a string it accepts. *)
Lemma after_good (validator : string -> result string) x s :
  (forall v r, validator v = Ok r -> r = v) ->
  Models.after validator (Models.str_field x) = Models.Good s
  <-> x = Some (Models.JStr s) /\ validator s = Ok s.
Proof.
  intros Hid. split.
  - destruct (Models.str_field x) as [v| |] eqn:E; cbn; try discriminate.
    apply str_field_good in E.
    destruct (validator v) as [r|e] eqn:Ev; [|destruct e; discriminate].
    pose proof (Hid _ _ Ev) as Hrv. rewrite Hrv in Ev.
    intros H. inversion H as [Hr]. rewrite Hrv in Hr. rewrite Hr in E, Ev.
    split; assumption.
  - intros [-> Hv]. cbn. now rewrite Hv.
Qed.

Lemma optional_text_good x o :
  Models.optional_str_field 4096 x = Models.Good o
  <-> match o with
      | Some v => x = Some (Models.JStr v) /\ len v <= 4096
      | None => x = None \/ x = Some Models.JNull
      end.
Proof.
  split.
  - destruct x as [[]|]; cbn; try discriminate;
      try (intros H; inversion H; auto; fail).
    destruct (4096 <? len s) eqn:E; [discriminate|].
    apply Z.ltb_ge in E. intros H. inversion H. auto.
  - destruct o as [v|].
    + intros [-> Hlen]. cbn. apply Z.ltb_ge in Hlen. now rewrite Hlen.
    + intros [-> | ->]; reflexivity.
Qed.

(** The constructor call succeeds exactly on a valid payload. *)
Lemma WebhookRequest_init_valid :
  forall fromisoformat kw w,
    Models.WebhookRequest_init fromisoformat (Models.JDict kw) = Ok w
    <-> payload_valid fromisoformat kw w.
Proof.
  intros fromisoformat kw w. unfold payload_valid, Models.WebhookRequest_init.
  cbv zeta.
  pose proof (min_length_good (Models.lookup "message_id" kw)) as Hm.
  pose proof (fun s => after_good Models.validate_phone_number
                         (Models.lookup_alias "from" "from_" kw) s
                         validate_phone_number_ok) as Hf.
  pose proof (fun s => after_good Models.validate_phone_number
                         (Models.lookup "to" kw) s validate_phone_number_ok) as Ht.
  pose proof (fun s => after_good (Models.validate_timestamp fromisoformat)
                         (Models.lookup "ts" kw) s
                         (validate_timestamp_ok fromisoformat)) as Hs.
  pose proof (optional_text_good (Models.lookup "text" kw)) as Hx.
  destruct (Models.min_length 1 (Models.str_field (Models.lookup "message_id" kw)))
    as [m| |];
    destruct (Models.after Models.validate_phone_number
                (Models.str_field (Models.lookup_alias "from" "from_" kw)))
      as [f| |];
    destruct (Models.after Models.validate_phone_number
                (Models.str_field (Models.lookup "to" kw))) as [t| |];
    destruct (Models.after (Models.validate_timestamp fromisoformat)
                (Models.str_field (Models.lookup "ts" kw))) as [s| |];
    destruct (Models.optional_str_field 4096 (Models.lookup "text" kw)) as [x| |];
    split; intros H;
    try discriminate H;
    try (destruct H as (H1 & H2 & H3 & H4 & H5 & H6 & H7 & H8 & H9);
         first [ apply (proj2 (Hm _)) in H1; [discriminate H1 | now split]
               | pose proof (proj2 (Hm _) (conj H1 H2)) as C; discriminate C
               | pose proof (proj2 (Hf _) (conj H3 H4)) as C; discriminate C
               | pose proof (proj2 (Ht _) (conj H5 H6)) as C; discriminate C
               | pose proof (proj2 (Hs _) (conj H7 H8)) as C; discriminate C
               | pose proof (proj2 (Hx _) H9) as C; discriminate C
               | idtac ]).
  - inversion H; subst. cbn.
    destruct (proj1 (Hm m) eq_refl) as [? ?].
    destruct (proj1 (Hf f) eq_refl) as [? ?].
    destruct (proj1 (Ht t) eq_refl) as [? ?].
    destruct (proj1 (Hs s) eq_refl) as [? ?].
    pose proof (proj1 (Hx x) eq_refl).
    repeat (split; [assumption|]). assumption.
  - pose proof (proj2 (Hm _) (conj H1 H2)) as C1. inversion C1; subst.
    pose proof (proj2 (Hf _) (conj H3 H4)) as C2. inversion C2; subst.
    pose proof (proj2 (Ht _) (conj H5 H6)) as C3. inversion C3; subst.
    pose proof (proj2 (Hs _) (conj H7 H8)) as C4. inversion C4; subst.
    pose proof (proj2 (Hx _) H9) as C5. inversion C5; subst.
    now destruct w.
Qed.

(** X12. What a valid payload is: the constructor call of
    [WebhookRequest] on a JSON object succeeds exactly when [message_id]
    is a non-empty string, [from] (or, in its absence, [from_]) and [to]
    are strings that pass the phone validator, [ts] is a string that
    passes the timestamp validator, and [text] is absent, null or a
    string of at most 4096 characters; the request then holds these
    values unchanged. *)
Theorem WebhookRequest_init_accepts :
  forall fromisoformat kw w,
    Models.WebhookRequest_init fromisoformat (Models.JDict kw) = Ok w
    <-> payload_valid fromisoformat kw w.
Proof. exact WebhookRequest_init_valid. Qed.

Lemma WebhookRequest_init_lookups fromisoformat kw1 kw2 :
  (forall k, In k field_keys -> Models.lookup k kw1 = Models.lookup k kw2) ->
  Models.WebhookRequest_init fromisoformat (Models.JDict kw1)
  = Models.WebhookRequest_init fromisoformat (Models.JDict kw2).
Proof.
  intros H. unfold Models.WebhookRequest_init, Models.lookup_alias.
  rewrite (H "message_id"), (H "from"), (H "from_"), (H "to"), (H "ts"),
    (H "text") by (cbn; tauto).
  reflexivity.
Qed.

Lemma lookup_not_in k kw :
  ~ In k (map fst kw) -> Models.lookup k kw = None.
Proof.
  induction kw as [|[k' v] kw IH]; cbn; intros H; [reflexivity|].
  destruct (String.eqb_spec k k') as [-> | _]; [exfalso; apply H; now left|].
  apply IH. intros Hin. apply H. now right.
Qed.

(** In an object, whose keys are distinct, a key is found wherever its
    item stands. *)
Lemma lookup_permutation k kw1 kw2 :
  Permutation kw1 kw2 -> NoDup (map fst kw1) ->
  Models.lookup k kw1 = Models.lookup k kw2.
Proof.
  induction 1 as [| [k' v] l1 l2 Hp IH | [k1 v1] [k2 v2] l | l1 l2 l3 Hp1 IH1 Hp2 IH2];
    intros Hnd.
  - reflexivity.
  - cbn. inversion Hnd; subst. now rewrite IH.
  - cbn. destruct (String.eqb_spec k k2) as [-> | _];
      destruct (String.eqb_spec k2 k1) as [<- | _]; try reflexivity.
    inversion Hnd as [|? ? Hout _]; subst. exfalso. apply Hout. now left.
  - rewrite IH1 by assumption. apply IH2.
    eapply Permutation_NoDup; [apply Permutation_map; exact Hp1 | exact Hnd].
Qed.

(** X13. The order of the keys of the payload and the keys the model
    does not read make no difference: two objects with distinct keys
    and the same items in any order give the same request or the same
    error, and so does an object with one more item under a key other
    than [message_id], [from], [from_], [to], [ts] and [text]. *)
Theorem WebhookRequest_init_ignores_order_and_extras :
  forall fromisoformat kw1 kw2 k v,
    (NoDup (map fst kw1) -> Permutation kw1 kw2 ->
     Models.WebhookRequest_init fromisoformat (Models.JDict kw1)
     = Models.WebhookRequest_init fromisoformat (Models.JDict kw2))
    /\ (~ In k field_keys ->
        Models.WebhookRequest_init fromisoformat (Models.JDict ((k, v) :: kw1))
        = Models.WebhookRequest_init fromisoformat (Models.JDict kw1)).
Proof.
  intros fromisoformat kw1 kw2 k v. split.
  - intros Hnd Hp. apply WebhookRequest_init_lookups.
    intros key _. now apply lookup_permutation.
  - intros Hk. apply WebhookRequest_init_lookups. intros key Hkey. cbn.
    destruct (String.eqb_spec key k) as [-> | _]; [contradiction | reflexivity].
Qed.

(** ** The table over time *)

Section ServiceTheorems.
Variable decode : list byte -> result string.
Variable json_loads : string -> result Models.json.
Variable fromisoformat : string -> result Models.datetime.
Variable str_of : exn -> string.

Local Abbreviation webhook := (Main.webhook decode json_loads fromisoformat str_of).
Local Abbreviation parse_request := (Main.parse_request decode json_loads fromisoformat).
Local Abbreviation serve_all := (Api.serve_all decode json_loads fromisoformat str_of).
Local Abbreviation serve := (Api.serve decode json_loads fromisoformat str_of).

(** A parsed request has passed every validator. *)
Lemma parse_request_valid body w :
  parse_request body = Ok w ->
  Models.message_id w <> ""
  /\ Models.validate_phone_number (Models.from_ w) = Ok (Models.from_ w)
  /\ Models.validate_phone_number (Models.to w) = Ok (Models.to w)
  /\ Models.validate_timestamp fromisoformat (Models.ts w) = Ok (Models.ts w)
  /\ match Models.text w with
     | Some x => len x <= 4096
     | None => True
     end.
Proof.
  unfold Main.parse_request.
  destruct (decode body) as [text|]; cbn [bind]; [|discriminate].
  destruct (json_loads text) as [j|]; cbn [bind]; [|discriminate].
  destruct j as [| | | | | |kw]; try discriminate.
  intros H. apply WebhookRequest_init_valid in H.
  destruct H as (_ & H2 & _ & H4 & _ & H6 & _ & H8 & H9).
  repeat (split; [assumption|]).
  destruct (Models.text w); [apply H9 | exact I].
Qed.

Lemma serve_keeps_valid secret state r :
  NoDup (map message_id (fst state)) ->
  Forall (row_valid fromisoformat) (fst state) ->
  NoDup (map message_id (fst (serve secret state r)))
  /\ Forall (row_valid fromisoformat) (fst (serve secret state r)).
Proof.
  destruct state as [t c]. cbn [fst]. intros Hkey Hvalid.
  unfold Api.serve. cbv zeta. cbn [fst].
  destruct (webhook_outcome decode json_loads fromisoformat str_of secret
              (Api.req_io r) (Api.req_utcnow r) t (Api.req_body r)
              (Api.req_signature r))
    as [[Hdb _] | (w & _ & Hparse & Hfresh & Hdb & _)]; rewrite Hdb; [auto|].
  split.
  - rewrite map_app. cbn.
    eapply Permutation_NoDup; [apply Permutation_cons_append|].
    constructor; [now apply has_id_false_not_in | assumption].
  - apply Forall_app. split; [assumption|].
    constructor; [|constructor].
    apply parse_request_valid in Hparse. exact Hparse.
Qed.

(** X14. Every stored row has passed validation: after any requests,
    starting from a table that has [message_id] as key and whose rows
    have a non-empty [message_id], a sender and a receiver that pass the
    phone validator, a timestamp that passes the timestamp validator and
    a text of at most 4096 characters if any, the table still has
    [message_id] as key and only such rows. *)
Theorem requests_keep_rows_valid :
  forall secret rs t c,
    NoDup (map message_id t) ->
    Forall (row_valid fromisoformat) t ->
    NoDup (map message_id (fst (serve_all secret rs (t, c))))
    /\ Forall (row_valid fromisoformat) (fst (serve_all secret rs (t, c))).
Proof.
  intros secret rs. induction rs as [|r rs IH]; intros t c Hkey Hvalid.
  - auto.
  - change (serve_all secret (r :: rs) (t, c))
      with (serve_all secret rs (serve secret (t, c) r)).
    destruct (serve_keeps_valid secret (t, c) r Hkey Hvalid) as [Hk Hv].
    destruct (serve secret (t, c) r) as [t' c'] eqn:E. now apply IH.
Qed.

Lemma serve_counts secret state r label :
  let state' := serve secret state r in
  snd state label <= snd state' label <= snd state label + 1
  /\ (~ In label webhook_labels -> snd state' label = snd state label)
  /\ snd state' "created" - snd state "created"
     = Z.of_nat (List.length (fst state')) - Z.of_nat (List.length (fst state)).
Proof.
  destruct state as [t c]. unfold Api.serve. cbv zeta. cbn [fst snd].
  set (out := webhook secret (Api.req_io r) (Api.req_utcnow r) t
                (Api.req_body r) (Api.req_signature r)).
  assert (Hlabel : match Main.recorded out with
                   | Some l => In l webhook_labels
                   | None => True
                   end).
  { unfold out, Main.webhook.
    destruct (signature_rejected _ _ _) as [[|]|]; cbn; auto.
    destruct (Main.parse_request _ _ _ _) as [w|e]; [|destruct e; cbn; auto].
    destruct (insert_message _ _ _ _ _ _ _ _) as [[[|] [|]] t']; cbn; auto 6. }
  destruct (webhook_outcome decode json_loads fromisoformat str_of secret
              (Api.req_io r) (Api.req_utcnow r) t (Api.req_body r)
              (Api.req_signature r))
    as [[Hdb Hne] | (w & _ & _ & _ & Hdb & Hrec & _)]; fold out in Hdb.
  - fold out in Hne. rewrite Hdb.
    destruct (Main.recorded out) as [l|]; unfold Metrics.record_webhook_result.
    + split; [destruct (label =? l)%string; lia|]. split.
      * intros Hout. destruct (String.eqb_spec label l) as [-> | _];
          [contradiction | reflexivity].
      * destruct (String.eqb_spec "created" l) as [<- | _];
          [now contradiction Hne | lia].
    + split; [lia|]. split; [reflexivity | lia].
  - fold out in Hrec. rewrite Hdb, Hrec, length_app.
    unfold Metrics.record_webhook_result. cbn [List.length].
    split; [destruct (label =? "created")%string; lia|]. split.
    + intros Hout. destruct (String.eqb_spec label "created") as [-> | _];
        [exfalso; apply Hout; cbn; tauto | reflexivity].
    + rewrite String.eqb_refl. lia.
Qed.

(** X15. The counter follows the table: over any requests, the label
    [created] is counted exactly as often as a row is added, no label is
    counted more often than there are requests or ever counted down, and
    only the five labels of the handler are counted. *)
Theorem created_counter_is_table_growth :
  forall secret rs t c,
    let state := serve_all secret rs (t, c) in
    snd state "created" - c "created"
    = Z.of_nat (List.length (fst state)) - Z.of_nat (List.length t)
    /\ (forall label,
          c label <= snd state label <= c label + Z.of_nat (List.length rs))
    /\ (forall label, ~ In label webhook_labels -> snd state label = c label).
Proof.
  intros secret rs. induction rs as [|r rs IH]; intros t c.
  - cbn. repeat split; intros; lia.
  - cbv zeta.
    change (serve_all secret (r :: rs) (t, c))
      with (serve_all secret rs (serve secret (t, c) r)).
    pose proof (fun label => serve_counts secret (t, c) r label) as Hstep.
    cbv zeta in Hstep. cbn [fst snd] in Hstep.
    destruct (serve secret (t, c) r) as [t' c'] eqn:E. cbn [fst snd] in Hstep.
    specialize (IH t' c'). cbv zeta in IH. destruct IH as (IH1 & IH2 & IH3).
    split; [|split].
    + destruct (Hstep "created") as (_ & _ & H). lia.
    + intros label. destruct (Hstep label) as (H & _ & _).
      specialize (IH2 label). cbn [List.length]. lia.
    + intros label Hout. rewrite (IH3 label Hout).
      now apply (Hstep label).
Qed.

End ServiceTheorems.

Lemma requests_keep_rows_valid_witness :
  NoDup (map message_id (@nil row))
  /\ Forall (row_valid Models.isoformat_documented) []
  /\ Forall (row_valid Models.isoformat_documented)
       (fst (Api.serve_all sample_decode sample_loads Models.isoformat_documented
               sample_str_of (Some "testsecret")
               [sample_request; sample_request] ([], Metrics.no_requests))).
Proof.
  assert (H1 : NoDup (map message_id (@nil row))) by constructor.
  assert (H2 : Forall (row_valid Models.isoformat_documented) []) by constructor.
  split; [exact H1|]. split; [exact H2|].
  exact (proj2 (requests_keep_rows_valid sample_decode sample_loads
                  Models.isoformat_documented sample_str_of (Some "testsecret")
                  [sample_request; sample_request] [] Metrics.no_requests H1 H2)).
Defined.

(** Two deliveries of the sample request: one row, one [created], one
    [duplicate]. *)
Example sample_request_twice :
  let state := Api.serve_all sample_decode sample_loads
                 Models.isoformat_documented sample_str_of (Some "testsecret")
                 [sample_request; sample_request] ([], Metrics.no_requests) in
  List.length (fst state) = 1%nat
  /\ snd state "created" = 1 /\ snd state "duplicate" = 1.
Proof. vm_compute. repeat split; reflexivity. Qed.

(** ** The accepted signature *)

Lemma hex_digit_lower n : 0 <= n < 16 -> is_lower_hex (Hmac.hex_digit n) = true.
Proof.
  intros H. unfold is_lower_hex, ord, Hmac.hex_digit.
  rewrite N_ascii_embedding by (destruct (n <? 10) eqn:E; lia).
  destruct (n <? 10) eqn:E; rewrite Z2N.id by lia.
  - apply Z.ltb_lt in E. apply orb_true_iff. left.
    apply andb_true_iff. split; apply Z.leb_le; lia.
  - apply Z.ltb_ge in E. apply orb_true_iff. right.
    apply andb_true_iff. split; apply Z.leb_le; lia.
Qed.

Lemma hex_lower bs : all_chars is_lower_hex (Hmac.hex bs) = true.
Proof.
  induction bs as [|b bs IH]; cbn [Hmac.hex all_chars]; [reflexivity|].
  pose proof (byte_val_range b) as Hb.
  rewrite !hex_digit_lower, IH; [reflexivity| |].
  - rewrite Z.land_ones with (n := 4) by lia. apply Z.mod_pos_bound. lia.
  - rewrite Z.shiftr_div_pow2 by lia. change (2 ^ 4) with 16.
    split; [apply Z.div_pos; lia | apply Z.div_lt_upper_bound; lia].
Qed.

(** X16. What the verifier accepts: when [verify_signature] returns
    true, the secret is set and not empty and the signature is the
    digest of the body under it, a string of 64 characters, each a digit
    or a letter from [a] to [f] in lower case. *)
Theorem verify_signature_accepts_only_digest :
  forall secret body signature,
    verify_signature secret body signature = Ok true ->
    (exists s, secret = Some s /\ s <> ""
               /\ signature = Hmac.hexdigest (encode s) body)
    /\ String.length signature = 64%nat
    /\ all_chars is_lower_hex signature = true.
Proof.
  intros secret body signature H.
  assert (Hd : exists s, secret = Some s /\ s <> ""
                         /\ signature = Hmac.hexdigest (encode s) body).
  { unfold verify_signature in H. destruct secret as [s|]; [|discriminate].
    destruct (truthy s) eqn:Hs; cbn [negb] in H; [|discriminate].
    unfold Hmac.compare_digest in H.
    destruct (isascii (Hmac.hexdigest (encode s) body) && isascii signature);
      [|discriminate].
    destruct (Hmac.hexdigest (encode s) body =? signature)%string eqn:E;
      [|discriminate].
    apply String.eqb_eq in E. exists s.
    split; [reflexivity|]. split; [|symmetry; exact E].
    intros ->. discriminate Hs. }
  split; [exact Hd|]. destruct Hd as (s & _ & _ & ->).
  split; [apply hexdigest_length | apply hex_lower].
Qed.

Lemma verify_signature_accepts_only_digest_witness :
  verify_signature (Some "testsecret") sample_body sample_signature = Ok true
  /\ String.length sample_signature = 64%nat.
Proof.
  assert (H : verify_signature (Some "testsecret") sample_body sample_signature
              = Ok true) by (vm_compute; reflexivity).
  split; [exact H|].
  exact (proj1 (proj2 (verify_signature_accepts_only_digest
                         (Some "testsecret") sample_body sample_signature H))).
Defined.

Section RejectedSignature.
Variable decode : list byte -> result string.
Variable json_loads : string -> result Models.json.
Variable fromisoformat : string -> result Models.datetime.
Variable str_of : exn -> string.

Local Abbreviation webhook := (Main.webhook decode json_loads fromisoformat str_of).

(** X17. A wrong signature in ASCII is answered with 401: when the
    signature is missing, or is an ASCII string other than the digest of
    the body under the secret, the webhook raises the HTTP exception 401
    [invalid signature], records [invalid_signature] and leaves the
    table as it was. *)
Theorem webhook_rejects_wrong_ascii_signature :
  forall secret io utcnow t body x_signature,
    bad_signature secret body x_signature ->
    isascii (match x_signature with Some v => v | None => "" end) = true ->
    Main.response (webhook secret io utcnow t body x_signature)
    = Raise (HTTPException 401 "invalid signature")
    /\ Main.recorded (webhook secret io utcnow t body x_signature)
       = Some "invalid_signature"
    /\ Main.db (webhook secret io utcnow t body x_signature) = t.
Proof.
  intros secret io utcnow t body x_signature Hbad Hascii.
  destruct (webhook_bad_signature decode json_loads fromisoformat str_of
              secret io utcnow t body x_signature Hbad) as [Hdb Hout].
  destruct (Hout Hascii) as [Hresp Hrec]. auto.
Qed.

End RejectedSignature.

Lemma webhook_rejects_wrong_ascii_signature_witness :
  bad_signature (Some "testsecret") sample_body (Some "invalid")
  /\ isascii "invalid" = true
  /\ Main.response
       (Main.webhook sample_decode sample_loads Models.isoformat_documented
          sample_str_of (Some "testsecret") healthy "2025-01-15T10:00:01.000000"
          [] sample_body (Some "invalid"))
     = Raise (HTTPException 401 "invalid signature").
Proof.
  assert (Hbad : bad_signature (Some "testsecret") sample_body (Some "invalid")).
  { intros s Hs E. inversion Hs; subst.
    pose proof (hexdigest_length (encode "testsecret") sample_body) as Hlen.
    rewrite <- E in Hlen. discriminate Hlen. }
  split; [exact Hbad|]. split; [reflexivity|].
  exact (proj1 (webhook_rejects_wrong_ascii_signature sample_decode sample_loads
                  Models.isoformat_documented sample_str_of (Some "testsecret")
                  healthy "2025-01-15T10:00:01.000000" [] sample_body
                  (Some "invalid") Hbad eq_refl)).
Defined.

(** ** Validation and text query on ASCII *)

(** X18. On ASCII input the phone validator accepts exactly a plus sign
    followed by one or more digits from 0 to 9, and returns the value
    unchanged; everything else raises [ValueError]. *)
Theorem validate_phone_number_on_ascii :
  forall v,
    isascii v = true ->
    (phone_ok v = true -> Models.validate_phone_number v = Ok v)
    /\ (phone_ok v = false ->
        Models.validate_phone_number v
        = Raise (ValueError "Phone number must be in E.164 format (start with +, followed by digits)")).
Proof.
  intros v Ha. rewrite (validate_phone_number_ascii v Ha).
  split; intros ->; reflexivity.
Qed.

Lemma validate_phone_number_on_ascii_witness :
  isascii "+919876543210" = true
  /\ phone_ok "+919876543210" = true
  /\ Models.validate_phone_number "+919876543210" = Ok "+919876543210".
Proof.
  split; [reflexivity|]. split; [reflexivity|].
  exact (proj1 (validate_phone_number_on_ascii "+919876543210" eq_refl) eq_refl).
Defined.

Lemma eval_where_app cs1 cs2 r b :
  eval_where cs1 r = Ok b ->
  eval_where (cs1 ++ cs2) r = if b then eval_where cs2 r else Ok false.
Proof.
  revert b. induction cs1 as [|[c p] cs1 IH]; cbn [app eval_where]; intros b H.
  - now inversion H.
  - destruct (eval_condition c p r) as [[|]|]; cbn [bind] in *;
      [now apply IH | now inversion H | discriminate].
Qed.

(** X19. A plain text query composes with the other filters as a
    substring test: with the storage up, for a non-empty query of ASCII
    characters other than [%], [_] and NUL that fits the pattern limit,
    on a table whose texts are ASCII without NUL, the listing is the
    window of the rows, in order, that match [from] and [since] (each
    when given and not empty) and whose text contains the query without
    regard to case; the total is their number. *)
Theorem get_messages_plain_query_composes :
  forall io t limit offset from since q,
    storage_up io ->
    0 <= limit < 2 ^ 63 -> 0 <= offset < 2 ^ 63 ->
    q <> "" ->
    all_chars literal_char q = true ->
    Z.of_nat (String.length q) + 2 <= like_pattern_limit ->
    (forall r s, In r t -> text r = Some s -> all_chars plain_char s = true) ->
    let keep := fun r => matches (given from) (given since) r
                         && text_contains q (text r) in
    get_messages io t limit offset from since (Some q)
    = (map message_of_row
         (window limit offset (order_by_ts_message_id (filter keep t))),
       Z.of_nat (List.length (filter keep t))).
Proof.
  intros io t limit offset from since q Hup Hl Ho Hq Hlit Hlen Htexts keep.
  rewrite get_messages_up by (try assumption; lia).
  assert (Hsel : select_where (conditions_of from since (Some q)) t
                 = Ok (filter keep t)).
  { apply select_where_filter_on. intros r Hr. unfold conditions_of.
    rewrite app_assoc.
    rewrite (eval_where_app _ _ r _ (eval_where_from_since from since r)).
    unfold keep. destruct (matches (given from) (given since) r); [|reflexivity].
    unfold condition_if.
    replace (truthy q) with true by (destruct q; [congruence | reflexivity]).
    cbn [eval_where andb].
    rewrite (text_query_plain q r Hlit (fun s => Htexts r s Hr) Hlen).
    cbn [bind]. now destruct (text_contains q (text r)). }
  rewrite Hsel. now rewrite limit_offset_window by lia.
Qed.

Lemma get_messages_plain_query_composes_witness :
  storage_up healthy
  /\ "message" <> ""
  /\ all_chars literal_char "message" = true
  /\ snd (get_messages healthy stats_table 10 0 (Some "+919876543210") None
            (Some "message")) = 2.
Proof.
  assert (Hq : "message" <> "") by discriminate.
  assert (Hl : 0 <= 10 < 2 ^ 63) by lia.
  assert (Ho : 0 <= 0 < 2 ^ 63) by lia.
  assert (Hlen : Z.of_nat (String.length "message") + 2 <= like_pattern_limit)
    by (vm_compute; discriminate).
  assert (Ht : forall r s, In r stats_table -> text r = Some s ->
                           all_chars plain_char s = true).
  { intros r s Hr Hs. cbn in Hr.
    repeat (destruct Hr as [<- | Hr]; [cbn in Hs; inversion Hs; reflexivity|]).
    contradiction. }
  split; [exact healthy_up|]. split; [exact Hq|]. split; [reflexivity|].
  rewrite (get_messages_plain_query_composes healthy stats_table 10 0
             (Some "+919876543210") None "message" healthy_up Hl Ho Hq eq_refl
             Hlen Ht).
  reflexivity.
Defined.

(** ** The listing at concrete tables *)

Lemma get_messages_pages_tile_witness :
  storage_up healthy
  /\ fst (get_messages healthy five_rows 2 1 None None None)
     ++ fst (get_messages healthy five_rows 2 (1 + 2) None None None)
     = fst (get_messages healthy five_rows (2 + 2) 1 None None None).
Proof.
  split; [exact healthy_up|].
  exact (proj1 (get_messages_pages_tile healthy five_rows 2 2 1 None None None
                  healthy_up ltac:(lia) ltac:(lia) ltac:(lia) ltac:(lia))).
Defined.

Lemma get_messages_lists_every_row_witness :
  storage_up healthy
  /\ Z.of_nat (List.length five_rows) <= 5 < 2 ^ 63
  /\ snd (get_messages healthy five_rows 5 0 None None None)
     = Z.of_nat (List.length five_rows).
Proof.
  assert (Hl : Z.of_nat (List.length five_rows) <= 5 < 2 ^ 63) by (cbn; lia).
  split; [exact healthy_up|]. split; [exact Hl|].
  exact (proj2 (proj2 (get_messages_lists_every_row healthy five_rows 5
                         healthy_up Hl))).
Defined.

Lemma get_messages_strictly_sorted_witness :
  NoDup (map message_id five_rows)
  /\ StronglySorted message_lt
       (fst (get_messages healthy five_rows 3 1 (Some "+14155550101") None None)).
Proof.
  assert (Hkey : NoDup (map message_id five_rows)).
  { cbn. repeat constructor; cbn; intuition discriminate. }
  split; [exact Hkey|].
  exact (get_messages_strictly_sorted healthy five_rows 3 1
           (Some "+14155550101") None None Hkey).
Defined.

(** ** The path of the database *)

Lemma replace_skip_absent old new s :
  is_substring old s = false -> DatabaseUrl.replace_skip old new 0 s = s.
Proof.
  induction s as [|c rest IH]; [reflexivity|].
  cbn [is_substring DatabaseUrl.replace_skip]. intros H.
  apply orb_false_iff in H. destruct H as [Hp Hrest].
  rewrite Hp. now rewrite IH.
Qed.

(** X20. The path of the database: a URL made of the scheme
    [sqlite:///] and a path that does not contain the scheme gives that
    path, and a path given without the scheme is taken as it is. Every
    further occurrence of the scheme inside the URL is removed as well,
    since the path is [replace] applied to what follows the scheme. *)
Theorem db_path_strips_scheme :
  forall path,
    DatabaseUrl.db_path ("sqlite:///" ++ path)
    = DatabaseUrl.replace path "sqlite:///" ""
    /\ (is_substring "sqlite:///" path = false ->
        DatabaseUrl.db_path ("sqlite:///" ++ path) = path
        /\ DatabaseUrl.db_path path = path).
Proof.
  intros path.
  assert (H : DatabaseUrl.db_path ("sqlite:///" ++ path)
              = DatabaseUrl.replace path "sqlite:///" "").
  { unfold DatabaseUrl.db_path, startswith, DatabaseUrl.replace.
    destruct path; reflexivity. }
  split; [exact H|]. intros Habs. split.
  - rewrite H. now apply replace_skip_absent.
  - unfold DatabaseUrl.db_path.
    destruct (startswith path "sqlite:///"); [|reflexivity].
    now apply replace_skip_absent.
Qed.

Lemma db_path_strips_scheme_witness :
  is_substring "sqlite:///" "/data/app.db" = false
  /\ DatabaseUrl.db_path "sqlite:////data/app.db" = "/data/app.db"
  /\ DatabaseUrl.db_path "sqlite:///a/sqlite:///b" = "a/b".
Proof.
  split; [reflexivity|]. split.
  - exact (proj1 (proj2 (db_path_strips_scheme "/data/app.db") eq_refl)).
  - reflexivity.
Defined.

(** ** The read endpoints *)

(** The outcomes of an [int] query parameter. *)
Lemma query_int_cases int_of_query name default check raw :
  match Api.query_int int_of_query name default check raw with
  | inr v =>
      match raw with
      | None => v = default
      | Some text => int_of_query text = Some v /\ check v = []
      end
  | inl errors =>
      errors <> []
      /\ exists text,
           raw = Some text
           /\ (int_of_query text = None
               \/ exists v, int_of_query text = Some v /\ check v <> [])
  end.
Proof.
  unfold Api.query_int. destruct raw as [text|]; [|reflexivity].
  destruct (int_of_query text) as [v|] eqn:E.
  - destruct (check v) as [|e errors] eqn:Ec; [now split|].
    split; [discriminate|]. exists text. split; [reflexivity|]. right.
    exists v. split; [exact E|]. rewrite Ec. discriminate.
  - split; [discriminate|]. exists text. split; [reflexivity|]. now left.
Qed.

Lemma check_limit_cases v :
  (Api.check_limit v = [] -> 1 <= v <= 100)
  /\ (Api.check_limit v <> [] -> v < 1 \/ 100 < v).
Proof.
  unfold Api.check_limit.
  destruct (v <? 1) eqn:E1; [split; [discriminate | lia]|].
  destruct (100 <? v) eqn:E2; [split; [discriminate | lia]|].
  split; [lia | congruence].
Qed.

Lemma check_offset_cases v :
  (Api.check_offset v = [] -> 0 <= v)
  /\ (Api.check_offset v <> [] -> v < 0).
Proof.
  unfold Api.check_offset.
  destruct (v <? 0) eqn:E1; [split; [discriminate | lia]|].
  split; [lia | congruence].
Qed.

(** X21. [GET /messages] answers 200 or 422, whatever integer the
    validation reads from the text of a query value. At 200 the limit
    and the offset of the body are the integers read from the values
    given, or 50 and 0 when the query does not name them, with the limit
    from 1 to 100 and the offset not negative; the items are no more
    than the limit and no more than the total, which is no more than the
    rows of the table. At 422 the value given for the limit is not read
    as an integer or is read as one outside 1..100, or the value given
    for the offset is not read as an integer or is read as a negative
    one. *)
Theorem messages_endpoint_bounds :
  forall int_of_query io t limit offset from since q,
    match Api.get_messages int_of_query io t limit offset from since q with
    | Api.Reply200 body =>
        match limit with
        | None => Api.limit body = 50
        | Some text => int_of_query text = Some (Api.limit body)
        end
        /\ match offset with
           | None => Api.offset body = 0
           | Some text => int_of_query text = Some (Api.offset body)
           end
        /\ 1 <= Api.limit body <= 100
        /\ 0 <= Api.offset body
        /\ Z.of_nat (List.length (Api.data body)) <= Api.limit body
        /\ Z.of_nat (List.length (Api.data body)) <= Api.total body
        /\ Api.total body <= Z.of_nat (List.length t)
    | Api.Reply422 errors =>
        errors <> []
        /\ ((exists text,
               limit = Some text
               /\ (int_of_query text = None
                   \/ exists v, int_of_query text = Some v
                                /\ (v < 1 \/ 100 < v)))
            \/ (exists text,
                  offset = Some text
                  /\ (int_of_query text = None
                      \/ exists v, int_of_query text = Some v /\ v < 0)))
    end.
Proof.
  intros int_of_query io t limit offset from since q. unfold Api.get_messages.
  pose proof (query_int_cases int_of_query "limit" 50 Api.check_limit limit)
    as Hl.
  pose proof (query_int_cases int_of_query "offset" 0 Api.check_offset offset)
    as Ho.
  assert (Hbadl : forall errors : list (string * string),
            errors <> []
            /\ (exists text,
                  limit = Some text
                  /\ (int_of_query text = None
                      \/ exists v, int_of_query text = Some v
                                   /\ Api.check_limit v <> [])) ->
            exists text,
              limit = Some text
              /\ (int_of_query text = None
                  \/ exists v, int_of_query text = Some v
                               /\ (v < 1 \/ 100 < v))).
  { intros errors (_ & text & E & [Hn | (v & Hv & Hc)]); exists text;
      (split; [exact E|]); [now left|]. right. exists v.
    split; [exact Hv | now apply check_limit_cases]. }
  assert (Hbado : forall errors : list (string * string),
            errors <> []
            /\ (exists text,
                  offset = Some text
                  /\ (int_of_query text = None
                      \/ exists v, int_of_query text = Some v
                                   /\ Api.check_offset v <> [])) ->
            exists text,
              offset = Some text
              /\ (int_of_query text = None
                  \/ exists v, int_of_query text = Some v /\ v < 0)).
  { intros errors (_ & text & E & [Hn | (v & Hv & Hc)]); exists text;
      (split; [exact E|]); [now left|]. right. exists v.
    split; [exact Hv | now apply check_offset_cases]. }
  destruct (Api.query_int int_of_query "limit" 50 Api.check_limit limit)
    as [e1 | l];
    destruct (Api.query_int int_of_query "offset" 0 Api.check_offset offset)
      as [e2 | o].
  - split; [|left; exact (Hbadl e1 Hl)].
    destruct Hl as [Hne _]. destruct e1; [congruence | discriminate].
  - split; [apply Hl | left; exact (Hbadl e1 Hl)].
  - split; [apply Ho | right; exact (Hbado e2 Ho)].
  - assert (Hlim : 1 <= l <= 100).
    { destruct limit as [text|]; [|lia].
      destruct Hl as [_ Hc]. now apply check_limit_cases. }
    assert (Hoff : 0 <= o).
    { destruct offset as [text|]; [|lia].
      destruct Ho as [_ Hc]. now apply check_offset_cases. }
    pose proof (get_messages_sizes io t l o from since q) as Hin.
    destruct (get_messages io t l o from since q) as [items n].
    cbn [fst snd] in Hin. cbn [Api.limit Api.offset Api.data Api.total].
    destruct Hin as ((H1 & H2) & H3).
    split; [destruct limit; [apply Hl | exact Hl]|].
    split; [destruct offset; [apply Ho | exact Ho]|].
    repeat split; try lia.
Qed.

(** X22. [GET /health/ready] answers [ready] exactly when the secret is
    set and not empty and the storage opens and runs one statement. A
    secret that is absent or empty is reported as [not ready] whatever
    the state of the storage; a failing storage is reported only when
    the secret is there. *)
Theorem health_ready_cases :
  forall secret io,
    (Api.health_ready secret io = Ok "ready"
     <-> (exists s, secret = Some s /\ s <> "")
         /\ connect_fails io = false /\ execute_fails io 0 = false)
    /\ (Api.health_ready secret io = Raise (HTTPException 503 "not ready")
        <-> secret = None \/ secret = Some "")
    /\ (Api.health_ready secret io
        = Raise (HTTPException 503 "database not accessible")
        <-> (exists s, secret = Some s /\ s <> "")
            /\ (connect_fails io = true \/ execute_fails io 0 = true)).
Proof.
  intros secret io.
  assert (Hready : Config.is_ready secret = true
                   <-> exists s, secret = Some s /\ s <> "").
  { unfold Config.is_ready. destruct secret as [s|].
    - destruct s as [|c s]; cbn.
      + split; [discriminate|]. intros (s' & E & Hne). injection E as <-. now destruct Hne.
      + split; [|reflexivity].
        intros _. exists (String c s). split; [reflexivity | discriminate].
    - split; [discriminate|]. intros (s' & E & _). discriminate. }
  assert (Hdb : test_connection io = true
                <-> connect_fails io = false /\ execute_fails io 0 = false).
  { unfold test_connection, connect, execute_guard.
    destruct (connect_fails io), (execute_fails io 0); cbn;
      intuition congruence. }
  unfold Api.health_ready.
  destruct (Config.is_ready secret) eqn:Er; cbn [negb].
  - destruct (proj1 Hready eq_refl) as (s & -> & Hne).
    destruct (test_connection io) eqn:Et; cbn [negb].
    + destruct (proj1 Hdb eq_refl) as [Hc He].
      split; [|split].
      * split; [intros _; split; [now exists s | auto] | reflexivity].
      * split; [discriminate|]. intros [E | E]; [discriminate | congruence].
      * split; [discriminate|]. intros (_ & [E | E]); congruence.
    + split; [|split].
      * split; [discriminate|]. intros (_ & Hc & He).
        pose proof (proj2 Hdb (conj Hc He)). discriminate.
      * split; [discriminate|]. intros [E | E]; [discriminate | congruence].
      * split; [|reflexivity]. intros _. split; [now exists s|].
        destruct (connect_fails io) eqn:Hc; [now left|].
        destruct (execute_fails io 0) eqn:He; [now right|].
        pose proof (proj2 Hdb (conj eq_refl eq_refl)). discriminate.
  - assert (Hno : ~ exists s, secret = Some s /\ s <> "").
    { intros H. apply Hready in H. congruence. }
    split; [|split].
    + split; [discriminate|]. intros (H & _). contradiction.
    + split; [|reflexivity]. intros _.
      destruct secret as [s|]; [|now left]. right.
      destruct s as [|c s]; [reflexivity|].
      exfalso. apply Hno. exists (String c s). split; [reflexivity|discriminate].
    + split; [discriminate|]. intros (H & _). contradiction.
Qed.

(** ** The write path under storage faults *)

(** [insert_message] by the operation that fails first. *)
Lemma insert_message_cases io utcnow t mid from to stamp body :
  insert_message io utcnow t mid from to stamp body
  = if connect_fails io || execute_fails io 0 then ((false, false), t)
    else if has_id mid t then
      if rollback_fails io then ((false, false), t) else ((true, true), t)
    else if commit_fails io then ((false, false), t)
    else ((true, false),
          t ++ [mkRow mid from to stamp body (utcnow ++ "Z")%string]).
Proof.
  unfold insert_message, connect, execute_insert, execute_guard, commit,
    rollback. cbn [message_id].
  destruct (connect_fails io), (execute_fails io 0), (has_id mid t),
    (rollback_fails io), (commit_fails io); reflexivity.
Qed.

Section WriteFaults.
Variable decode : list byte -> result string.
Variable json_loads : string -> result Models.json.
Variable fromisoformat : string -> result Models.datetime.
Variable str_of : exn -> string.

Local Abbreviation webhook := (Main.webhook decode json_loads fromisoformat str_of).
Local Abbreviation parse_request := (Main.parse_request decode json_loads fromisoformat).

(** X23. A signed request with a valid payload has two outcomes only.
    Either it is answered with success, its [message_id] is in the table
    afterwards, and it is recorded as [duplicate] when the table had the
    [message_id] before and as [created] otherwise; or it is answered
    500 [internal server error], recorded as [insert_error], and the
    table is as it was. With the storage up it is the first. *)
Theorem webhook_valid_request_outcome :
  forall secret io utcnow t body w,
    secret <> "" ->
    parse_request body = Ok w ->
    let out := webhook (Some secret) io utcnow t body
                 (Some (Hmac.hexdigest (encode secret) body)) in
    ((Main.response out = Ok (mkWebhookResponse "ok")
      /\ has_id (Models.message_id w) (Main.db out) = true
      /\ Main.recorded out
         = Some (if has_id (Models.message_id w) t then "duplicate"
                 else "created"))
     \/ (Main.response out = Raise (HTTPException 500 "internal server error")
         /\ Main.recorded out = Some "insert_error"
         /\ Main.db out = t))
    /\ (storage_up io -> Main.response out = Ok (mkWebhookResponse "ok")).
Proof.
  intros secret io utcnow t body w Hs Hparse out. unfold out, Main.webhook.
  rewrite (signature_accepted secret body Hs), Hparse.
  rewrite insert_message_cases. split.
  - destruct (connect_fails io || execute_fails io 0);
      [right; cbn; auto|].
    destruct (has_id (Models.message_id w) t) eqn:Hid.
    + destruct (rollback_fails io); [right; cbn; auto|].
      left. cbn. auto.
    + destruct (commit_fails io); [right; cbn; auto|].
      left. cbn [negb Main.response Main.db Main.recorded].
      split; [reflexivity|]. split; [|reflexivity].
      rewrite has_id_app. unfold has_id at 2. cbn.
      rewrite String.eqb_refl. apply orb_true_r.
  - intros (Hc & He & Hcommit & Hroll).
    rewrite Hc, (He 0%nat), Hcommit, Hroll. cbn [orb].
    now destruct (has_id (Models.message_id w) t).
Qed.

End WriteFaults.

Lemma webhook_valid_request_outcome_witness :
  "testsecret" <> ""
  /\ Main.parse_request sample_decode sample_loads Models.isoformat_documented
       sample_body
     = Ok (Models.mkWebhookRequest "m1" "+919876543210" "+14155550100"
             "2025-01-15T10:00:00Z" (Some "Hello"))
  /\ storage_up healthy
  /\ Main.response
       (Main.webhook sample_decode sample_loads Models.isoformat_documented
          sample_str_of (Some "testsecret") healthy "2025-01-15T10:00:01.000000"
          [] sample_body
          (Some (Hmac.hexdigest (encode "testsecret") sample_body)))
     = Ok (mkWebhookResponse "ok").
Proof.
  assert (Hs : "testsecret" <> "") by discriminate.
  assert (Hp : Main.parse_request sample_decode sample_loads
                 Models.isoformat_documented sample_body
               = Ok (Models.mkWebhookRequest "m1" "+919876543210" "+14155550100"
                       "2025-01-15T10:00:00Z" (Some "Hello")))
    by (vm_compute; reflexivity).
  split; [exact Hs|]. split; [exact Hp|]. split; [exact healthy_up|].
  exact (proj2 (webhook_valid_request_outcome sample_decode sample_loads
                  Models.isoformat_documented sample_str_of "testsecret" healthy
                  "2025-01-15T10:00:01.000000" [] sample_body _ Hs Hp)
           healthy_up).
Defined.

(** ** From the webhook to the listing *)

Section RoundTrip.
Variable decode : list byte -> result string.
Variable json_loads : string -> result Models.json.
Variable fromisoformat : string -> result Models.datetime.
Variable str_of : exn -> string.

Local Abbreviation webhook := (Main.webhook decode json_loads fromisoformat str_of).
Local Abbreviation parse_request := (Main.parse_request decode json_loads fromisoformat).

(** X24. What the webhook stores, the listing returns: after a request
    recorded as [created], with the storage up and a limit above the
    size of the table, the listing filtered by the sender of the payload
    holds the message with the five fields of the payload, and the
    total of the listing without filters is one more than the table had
    before. *)
Theorem created_message_is_listed :
  forall secret io1 utcnow t body x_signature w io2 limit,
    Main.recorded (webhook secret io1 utcnow t body x_signature)
    = Some "created" ->
    parse_request body = Ok w ->
    storage_up io2 ->
    Z.of_nat (List.length t) < limit < 2 ^ 63 ->
    let t' := Main.db (webhook secret io1 utcnow t body x_signature) in
    In (mkMessage (Models.message_id w) (Models.from_ w) (Models.to w)
                  (Models.ts w) (Models.text w))
       (fst (get_messages io2 t' limit 0 (Some (Models.from_ w)) None None))
    /\ snd (get_messages io2 t' limit 0 None None None)
       = Z.of_nat (List.length t) + 1.
Proof.
  intros secret io1 utcnow t body x_signature w io2 limit Hrec Hparse Hup Hl t'.
  destruct (webhook_outcome decode json_loads fromisoformat str_of
              secret io1 utcnow t body x_signature)
    as [[_ Hne] | (w' & _ & Hparse' & _ & Hdb & _)]; [contradiction|].
  rewrite Hparse in Hparse'. injection Hparse' as <-.
  unfold t'. rewrite Hdb.
  set (r := mkRow (Models.message_id w) (Models.from_ w) (Models.to w)
                  (Models.ts w) (Models.text w) (utcnow ++ "Z")%string).
  rewrite !get_messages_no_query by (try assumption; lia).
  cbn [fst snd]. split.
  - change (mkMessage (Models.message_id w) (Models.from_ w) (Models.to w)
                      (Models.ts w) (Models.text w)) with (message_of_row r).
    apply in_map. unfold window. rewrite skipn_O.
    set (sel := filter (matches (given (Some (Models.from_ w))) (given None))
                       (t ++ [r])).
    assert (Hlen : (List.length sel <= List.length (t ++ [r]))%nat)
      by apply filter_length.
    rewrite length_app in Hlen. cbn [List.length] in Hlen.
    rewrite firstn_all2
      by (rewrite (Permutation_length (order_by_perm sel)); lia).
    apply (Permutation_in _ (Permutation_sym (order_by_perm sel))).
    apply filter_In. split; [apply in_or_app; right; now left|].
    unfold matches, given. cbn [given].
    destruct (truthy (Models.from_ w)); cbn [from_msisdn r];
      [|reflexivity].
    unfold r. cbn [from_msisdn]. now rewrite String.eqb_refl.
  - rewrite (filter_all (matches (given None) (given None)) (t ++ [r]))
      by reflexivity.
    rewrite length_app. cbn [List.length]. lia.
Qed.

End RoundTrip.

Lemma created_message_is_listed_witness :
  Main.recorded (Main.webhook sample_decode sample_loads
                   Models.isoformat_documented sample_str_of
                   (Some "testsecret") healthy "2025-01-15T10:00:01.000000" []
                   sample_body (Some sample_signature)) = Some "created"
  /\ storage_up healthy
  /\ Z.of_nat (List.length (@nil row)) < 50 < 2 ^ 63
  /\ snd (get_messages healthy
            (Main.db (Main.webhook sample_decode sample_loads
                        Models.isoformat_documented sample_str_of
                        (Some "testsecret") healthy
                        "2025-01-15T10:00:01.000000" [] sample_body
                        (Some sample_signature)))
            50 0 None None None)
     = Z.of_nat (List.length (@nil row)) + 1.
Proof.
  assert (Hrec : Main.recorded
                   (Main.webhook sample_decode sample_loads
                      Models.isoformat_documented sample_str_of
                      (Some "testsecret") healthy "2025-01-15T10:00:01.000000"
                      [] sample_body (Some sample_signature)) = Some "created")
    by (vm_compute; reflexivity).
  assert (Hp : Main.parse_request sample_decode sample_loads
                 Models.isoformat_documented sample_body
               = Ok (Models.mkWebhookRequest "m1" "+919876543210" "+14155550100"
                       "2025-01-15T10:00:00Z" (Some "Hello")))
    by (vm_compute; reflexivity).
  assert (Hl : Z.of_nat (List.length (@nil row)) < 50 < 2 ^ 63) by (cbn; lia).
  split; [exact Hrec|]. split; [exact healthy_up|]. split; [exact Hl|].
  exact (proj2 (created_message_is_listed sample_decode sample_loads
                  Models.isoformat_documented sample_str_of (Some "testsecret")
                  healthy "2025-01-15T10:00:01.000000" [] sample_body
                  (Some sample_signature) _ healthy 50 Hrec Hp healthy_up Hl)).
Defined.

(** ** The payload in another order *)

Lemma WebhookRequest_init_ignores_order_and_extras_witness :
  NoDup (map fst sample_items)
  /\ Permutation sample_items (rev sample_items)
  /\ ~ In "request_id" field_keys
  /\ Models.WebhookRequest_init Models.isoformat_documented
       (Models.JDict (("request_id", Models.JStr "r-1") :: rev sample_items))
     = Ok sample_webhook_request.
Proof.
  assert (Hkeys : NoDup (map fst sample_items)).
  { cbn. repeat constructor; cbn; intuition discriminate. }
  assert (Hperm : Permutation sample_items (rev sample_items))
    by apply Permutation_rev.
  assert (Hextra : ~ In "request_id" field_keys).
  { cbn. intuition discriminate. }
  split; [exact Hkeys|]. split; [exact Hperm|]. split; [exact Hextra|].
  rewrite (proj2 (WebhookRequest_init_ignores_order_and_extras
                    Models.isoformat_documented (rev sample_items) []
                    "request_id" (Models.JStr "r-1")) Hextra).
  rewrite <- (proj1 (WebhookRequest_init_ignores_order_and_extras
                       Models.isoformat_documented sample_items
                       (rev sample_items) "" Models.JNull) Hkeys Hperm).
  vm_compute. reflexivity.
Defined.
